(** * xaus: gold perpetual spreads on Bitget

    A shallow embedding of [xaus.py]: the retry wrapper [call_with_retry],
    the market check [validate_symbols], the price fetcher
    [fetch_close_series], the aligner [build_price_df] and the spread
    calculator [add_spreads], followed by the properties of the pipeline.

    Conventions of the embedding.
    - Python [int] is [Z]; Python [float] (and a pandas float64 cell) is a
      binary64 [float]; a [dict] whose iteration order matters is an
      association list, one that is only probed for keys is a [gset].
    - A [str] is a [string] read as the sequence of its code points, each
      character standing for the code point of its number: the texts covered
      are those whose code points are below 256, which the symbols of an
      exchange and the labels of the script are.
    - Library calls that can fail do fail in the model: [time.sleep] refuses
      the delays that CPython refuses, [pd.to_datetime] the instants that
      pandas cannot hold in nanoseconds.
    - The exchange client and the network behind it form the [Exchange]
      record; what the network answers is a parameter of the development.
    - Effects are explicit: a function of the script is a state transformer
      returning either a value or a raised exception.  The state carries the
      exchange, the chronological trace of what the retry wrapper did
      (invocations, warnings, sleeps), and the store of pandas frames, which
      are mutable objects handled by reference. *)

From Stdlib Require Import ZArith List Sorted Ascii String.
From Stdlib Require Import Floats.PrimFloat.
From stdpp Require Import gmap strings list sorting pretty.

Local Open Scope string_scope.
Local Open Scope list_scope.

(** ** Exceptions and results *)

(** The exception classes the script names or can meet.  A constructor
    stands for its class and the subclasses of it: [except] matches by
    [isinstance].  [RuntimeError] carries the [__cause__] set by
    [raise ... from ...].  [OtherError] is an exception of a class that the
    script does not name, given by the name of the class: [OverflowError]
    from [time.sleep], [OutOfBoundsDatetime] from pandas. *)
#[warnings="-register-all"]
Inductive exn : Type :=
| NetworkError (msg : string)
| RequestTimeout (msg : string)
| ExchangeError (msg : string)
| ValueError (msg : string)
| TypeError (msg : string)
| KeyError (key : string)
| RuntimeError (msg : string) (cause : option exn)
| OtherError (cls msg : string).

(** [except (NetworkError, RequestTimeout, ExchangeError) as err] *)
Definition transient (err : exn) : bool :=
  match err with
  | NetworkError _ | RequestTimeout _ | ExchangeError _ => true
  | _ => false
  end.

Inductive result (A : Type) : Type :=
| Return (a : A)
| Raise (e : exn).
Arguments Return {A} a.
Arguments Raise {A} e.

(** ** Data of the pipeline *)

(** One OHLCV row as ccxt returns it:
    [[timestamp, open, high, low, close, volume]].  The timestamp is a count
    of milliseconds, which a frame holds in an int64 column. *)
Record candle : Type := Candle {
  timestamp : Z;
  c_open : float;
  c_high : float;
  c_low : float;
  c_close : float;
  c_volume : float
}.

(** A pandas Series of closing prices: its name, its index of UTC instants
    (counted in milliseconds, as the candles give them; a missing instant
    is the int64 minimum, as in numpy) and its values. *)
Record Series : Type := mkSeries {
  s_name : string;
  s_index : list Z;
  s_values : list float
}.

(** A pandas DataFrame: the row index and the columns in their order. *)
Record DataFrame : Type := mkFrame {
  df_index : list Z;
  df_columns : list (string * list float)
}.

(** The symbol table of the script: alias, then the symbol ccxt knows.  A
    [dict] keeps its insertion order. *)
Definition DEFAULT_SYMBOLS : list (string * string) :=
  [("XAU", "XAU/USDT:USDT"); ("XAUT", "XAUT/USDT:USDT"); ("PAXG", "PAXG/USDT:USDT")].

Definition DEFAULT_TIMEFRAME : string := "1h".
Definition DEFAULT_LIMIT : Z := 500.

(** References to frames in the store. *)
Definition loc : Type := positive.

(** [str(n)] and [f"{n}"] for an [int]. *)
Definition py_str (n : Z) : string := pretty n.

(** [repr] of a [str]: single quotes unless the text has a single quote
    and no double quote; the quote in use and the backslash are escaped;
    tab, line feed and carriage return are written [\t], [\n] and [\r];
    every other character that is not printable is written [\xNN]; a
    printable character is kept. *)
Definition squote : ascii := ascii_of_nat 39.
Definition dquote : ascii := ascii_of_nat 34.
Definition backslash : ascii := ascii_of_nat 92.

Definition hex_digit (n : nat) : ascii :=
  nth n (list_ascii_of_string "0123456789abcdef") "0"%char.

(** [str.isprintable] on a code point below 256: the control characters
    (0 to 31 and 127 to 159), the no-break space (160) and the soft hyphen
    (173) are not printable; the space is. *)
Definition printable (n : nat) : bool :=
  negb ((n <? 32)%nat || ((127 <=? n)%nat && (n <=? 160)%nat) || (n =? 173)%nat).

Definition repr_char (quote c : ascii) : string :=
  let n := nat_of_ascii c in
  if Ascii.eqb c quote || Ascii.eqb c backslash then String backslash (String c EmptyString)
  else if (n =? 9)%nat then "\t"
  else if (n =? 10)%nat then "\n"
  else if (n =? 13)%nat then "\r"
  else if negb (printable n)
       then "\x" +:+ String (hex_digit (n / 16)) (String (hex_digit (n mod 16)) EmptyString)
  else String c EmptyString.

Fixpoint string_has (c : ascii) (s : string) : bool :=
  match s with
  | EmptyString => false
  | String c' s' => Ascii.eqb c c' || string_has c s'
  end.

Fixpoint repr_chars (quote : ascii) (s : string) : string :=
  match s with
  | EmptyString => EmptyString
  | String c s' => repr_char quote c +:+ repr_chars quote s'
  end.

Definition py_repr (s : string) : string :=
  let quote :=
    if string_has squote s && negb (string_has dquote s) then dquote else squote in
  String quote (repr_chars quote s +:+ String quote EmptyString).

(** [repr] of a list of strings, as an f-string prints it. *)
Definition py_repr_list (l : list string) : string :=
  "[" +:+ String.concat ", " (map py_repr l) +:+ "]".

(** ** Reading a message back

    What a message tells its reader: the number that a decimal numeral
    denotes, and the list of texts that a bracketed list of quoted texts
    denotes.  These are the readings by which a message is said to give an
    attempt count or to list identifiers; they are defined on the text
    alone. *)

Definition digit_value (c : ascii) : option N :=
  let n := N_of_ascii c in
  if (48 <=? n)%N && (n <=? 57)%N then Some (n - 48)%N else None.

Fixpoint read_digits (text : string) (acc : N) : option N :=
  match text with
  | EmptyString => Some acc
  | String c rest =>
      match digit_value c with
      | Some d => read_digits rest (acc * 10 + d)%N
      | None => None
      end
  end.

(** The integer that a numeral denotes: digits, after a minus sign or
    not. *)
Definition read_decimal (text : string) : option Z :=
  match text with
  | EmptyString => None
  | String c rest =>
      if Ascii.eqb c "-" then
        match rest with
        | EmptyString => None
        | String _ _ => (fun n => (- Z.of_N n)%Z) <$> read_digits rest 0
        end
      else Z.of_N <$> read_digits text 0
  end.

Fixpoint hex_value_in (digits : list ascii) (c : ascii) (n : nat) : option nat :=
  match digits with
  | [] => None
  | d :: digits' => if Ascii.eqb c d then Some n else hex_value_in digits' c (S n)
  end.

Definition hex_value (c : ascii) : option nat :=
  hex_value_in (list_ascii_of_string "0123456789abcdef") c 0.

(** The character that a backslash and [e] denote. *)
Definition unescape (e : ascii) : ascii :=
  if Ascii.eqb e "t" then ascii_of_nat 9
  else if Ascii.eqb e "n" then ascii_of_nat 10
  else if Ascii.eqb e "r" then ascii_of_nat 13
  else e.

Definition push (c : ascii) (r : option (string * string)) : option (string * string) :=
  match r with
  | Some (text, rest) => Some (String c text, rest)
  | None => None
  end.

(** The text up to the closing [quote], escapes undone, and what follows
    the quote. *)
Fixpoint read_quoted (quote : ascii) (s : string) : option (string * string) :=
  match s with
  | EmptyString => None
  | String c s1 =>
      if Ascii.eqb c quote then Some (EmptyString, s1)
      else if Ascii.eqb c backslash then
        match s1 with
        | EmptyString => None
        | String e s2 =>
            if Ascii.eqb e "x" then
              match s2 with
              | String h (String l s3) =>
                  match hex_value h, hex_value l with
                  | Some hi, Some lo =>
                      push (ascii_of_nat (16 * hi + lo)) (read_quoted quote s3)
                  | _, _ => None
                  end
              | _ => None
              end
            else push (unescape e) (read_quoted quote s2)
        end
      else push c (read_quoted quote s1)
  end.

(** A quoted text at the head of [s], and what follows it. *)
Definition read_repr (s : string) : option (string * string) :=
  match s with
  | EmptyString => None
  | String q s1 =>
      if Ascii.eqb q squote || Ascii.eqb q dquote then read_quoted q s1 else None
  end.

(** Quoted texts separated by a comma and a space, up to the closing
    bracket, which ends the text. *)
Fixpoint read_items (fuel : nat) (s : string) : option (list string) :=
  match fuel with
  | O => None
  | S fuel' =>
      match read_repr s with
      | None => None
      | Some (item, rest) =>
          match rest with
          | String "]" EmptyString => Some [item]
          | String "," (String " " rest') => cons item <$> read_items fuel' rest'
          | _ => None
          end
      end
  end.

(** The list of texts that a bracketed list denotes.  Every item takes a
    character at least, so the length of the text is fuel enough. *)
Definition read_repr_list (s : string) : option (list string) :=
  match s with
  | String "[" (String "]" EmptyString) => Some []
  | String "[" s1 => read_items (String.length s1) s1
  | _ => None
  end.

(** ** The library calls that can fail *)

(** [time.sleep(secs)] converts the delay to a count of nanoseconds and
    refuses some delays, with the exception that [sleep_error] gives; a
    delay it accepts is slept. *)
Class TimeSleep (Delay : Type) : Type := sleep_error : Delay -> option exn.

(** The delay of the script is a [float] ([--retry-delay] has [type=float]).
    CPython refuses NaN, a delay whose nanoseconds do not fit in 64 bits
    (an infinite one among them), and a negative delay; it accepts the
    others, zero and minus zero included. *)
Definition float_sleep_error (secs : float) : option exn :=
  if PrimFloat.is_nan secs then Some (ValueError "Invalid value NaN (not a number)")
  else
    let d := (secs * 1e9)%float in
    if negb (PrimFloat.leb (-0x1p+63)%float d && PrimFloat.ltb d 0x1p+63%float) then
      Some (OtherError "OverflowError" "timestamp too large to convert to C PyTime_t")
    else if PrimFloat.ltb d 0%float then
      Some (ValueError "sleep length must be non-negative")
    else None.

#[global] Instance float_sleep : TimeSleep float := float_sleep_error.

(** [pd.to_datetime(ms, unit="ms", utc=True)] on one value of an int64
    column: the UTC instant, kept as its count of milliseconds.  pandas
    holds an instant as a 64-bit count of nanoseconds, so the instants it
    can hold lie between [Timestamp.min] and [Timestamp.max]; the int64
    minimum is the mark of a missing instant (NaT) and stays what it is;
    any other value raises [OutOfBoundsDatetime]. *)
Definition datetime_min : Z := -9223372036854.
Definition datetime_max : Z := 9223372036854.
Definition iNaT : Z := -9223372036854775808.

Definition to_datetime (ms : Z) : result Z :=
  if decide (datetime_min <= ms <= datetime_max)%Z then Return ms
  else if decide (ms = iNaT) then Return ms
  else Raise (OtherError "OutOfBoundsDatetime" "Out of bounds nanosecond timestamp").

(** The conversion of a column: the first value that cannot be converted
    raises. *)
Fixpoint to_datetime_all (column : list Z) : result (list Z) :=
  match column with
  | [] => Return []
  | ms :: rest =>
      match to_datetime ms with
      | Raise e => Raise e
      | Return t =>
          match to_datetime_all rest with
          | Raise e => Raise e
          | Return ts => Return (t :: ts)
          end
      end
  end.

(** ** The pandas operations the script uses

    The operations follow pandas 2: an inner join keeps the distinct labels
    of the first index that all the other indexes have, in the order the
    first index has them, without sorting ([sort=False] is the default of
    [pd.concat]); a series is realigned on the joined index by label, which
    pandas refuses when the series has a repeated label. *)

(** [Index.unique()]: the labels in order of first appearance. *)
Fixpoint unique (idx : list Z) : list Z :=
  match idx with
  | [] => []
  | t :: idx' => t :: filter (fun u => u ≠ t) (unique idx')
  end.

(** [idx.intersection(other, sort=False)]: the distinct labels of [idx]
    that [other] has, in the order [idx] has them. *)
Definition index_intersection (idx other : list Z) : list Z :=
  filter (fun t => t ∈ other) (unique idx).

(** The row index of an inner join: the first index intersected with the
    others in turn; the index itself when there is only one. *)
Definition combined_index (indexes : list (list Z)) : list Z :=
  match indexes with
  | [] => []
  | [idx] => idx
  | idx :: others => foldl index_intersection idx others
  end.

(** The value a series holds at a label (the first one, NaN if none). *)
Fixpoint series_at (idx : list Z) (vals : list float) (t : Z) : float :=
  match idx, vals with
  | u :: idx', v :: vals' => if decide (u = t) then v else series_at idx' vals' t
  | _, _ => nan
  end.

(** [s.reindex(new_index)]: nothing to do on an equal index; otherwise the
    labels of [s] must be distinct. *)
Definition reindex (s : Series) (new_index : list Z) : result (list float) :=
  if decide (s_index s = new_index) then Return (s_values s)
  else if decide (NoDup (s_index s)) then
    Return (series_at (s_index s) (s_values s) <$> new_index)
  else Raise (ValueError "cannot reindex on an axis with duplicate labels").

Fixpoint reindex_all (series_list : list Series) (new_index : list Z)
    : result (list (string * list float)) :=
  match series_list with
  | [] => Return []
  | s :: rest =>
      match reindex s new_index with
      | Raise e => Raise e
      | Return vals =>
          match reindex_all rest new_index with
          | Raise e => Raise e
          | Return cols => Return ((s_name s, vals) :: cols)
          end
      end
  end.

(** [pd.concat(series_list, axis=1, join="inner")]: one column per series,
    named after it, on the rows every series has. *)
Definition pd_concat (series_list : list Series) : result DataFrame :=
  match series_list with
  | [] => Raise (ValueError "No objects to concatenate")
  | _ =>
      let new_index := combined_index (s_index <$> series_list) in
      match reindex_all series_list new_index with
      | Raise e => Raise e
      | Return cols => Return (mkFrame new_index cols)
      end
  end.

(** [df.empty]: no row or no column. *)
Definition df_empty (df : DataFrame) : bool :=
  match df_index df, df_columns df with
  | _ :: _, _ :: _ => false
  | _, _ => true
  end.

(** The column labelled [col], if any.  The frames of this script take
    their labels from the keys of a [dict], so a label names one column. *)
Fixpoint get_column (cols : list (string * list float)) (col : string)
    : option (list float) :=
  match cols with
  | [] => None
  | (c, vals) :: rest => if decide (c = col) then Some vals else get_column rest col
  end.

(** [df[col] = vals] on the columns: an existing column is overwritten where
    it stands, a new one is appended. *)
Fixpoint set_column (cols : list (string * list float)) (col : string)
    (vals : list float) : list (string * list float) :=
  match cols with
  | [] => [(col, vals)]
  | (c, old) :: rest =>
      if decide (c = col) then (c, vals) :: rest
      else (c, old) :: set_column rest col vals
  end.

(** [a - b] for two columns of one frame: they share their index, so the
    difference is taken row by row. *)
Definition series_sub (a b : list float) : list float :=
  zip_with PrimFloat.sub a b.

(** The columns after the three assignments. *)
Definition with_spreads (cols : list (string * list float))
    (xau xaut paxg : list float) : list (string * list float) :=
  set_column
    (set_column (set_column cols "XAU_minus_XAUT" (series_sub xau xaut))
       "XAU_minus_PAXG" (series_sub xau paxg))
    "PAXG_minus_XAUT" (series_sub paxg xaut).

Section Pipeline.

(** [R] is the state of the network behind the client, [Delay] the type of
    the retry delay handed to [time.sleep]. *)
Context {R Delay : Type} `{!TimeSleep Delay}.

(** The ccxt client: [exchange.markets] ([None] until the markets are
    loaded; only its keys are consulted) and the remote side. *)
Record Exchange : Type := mkExchange {
  markets : option (gset string);
  remote : R
}.

(** What [call_with_retry] does, in chronological order.  A [Warning] is the
    log record of [logging.warning]: format string and arguments. *)
Inductive event : Type :=
| Invoke
| Warning (fmt action_name : string) (attempt retries : Z) (err : exn)
| Sleep (secs : Delay).

Record state : Type := mkState {
  exchange : Exchange;
  trace : list event;
  heap : gmap loc DataFrame
}.

(** The effect monad: state passing with exceptions. *)
Definition M (A : Type) : Type := state -> result A * state.

#[global] Instance M_ret : MRet M := fun A a st => (Return a, st).

#[global] Instance M_bind : MBind M := fun A B k m st =>
  match m st with
  | (Return a, st') => k a st'
  | (Raise e, st') => (Raise e, st')
  end.

Definition raise {A : Type} (e : exn) : M A := fun st => (Raise e, st).

Definition emit (ev : event) : M unit := fun st =>
  (Return tt, mkState (exchange st) (trace st ++ [ev]) (heap st)).

(** [logging.warning(fmt, action_name, attempt, retries, err)] *)
Definition logging_warning (fmt action_name : string) (attempt retries : Z)
    (err : exn) : M unit :=
  emit (Warning fmt action_name attempt retries err).

(** [time.sleep(secs)]: a delay that is refused raises, and nothing is
    slept; another one is slept. *)
Definition time_sleep (secs : Delay) : M unit :=
  match sleep_error secs with
  | Some e => raise e
  | None => emit (Sleep secs)
  end.

(** An operation handed to the retry wrapper: a zero-argument callable
    acting on the exchange. *)
Definition operation (A : Type) : Type := Exchange -> result A * Exchange.

(** [try: func()]: the call is recorded and its outcome, value or
    exception, is handed to the caller. *)
Definition try_call {A : Type} (func : operation A) : M (result A) := fun st =>
  let '(r, ex) := func (exchange st) in
  (Return r, mkState ex (trace st ++ [Invoke]) (heap st)).

(** [range(lo, hi)] *)
Definition py_range (lo hi : Z) : list Z :=
  map (fun i => (lo + Z.of_nat i)%Z) (seq 0 (Z.to_nat (hi - lo))).

(** The body of [call_with_retry]: the [for] loop over the attempts that
    remain, then the [raise ... from last_error] after the loop. *)
Fixpoint retry_attempts {A : Type} (func : operation A) (retries : Z)
    (retry_delay : Delay) (action_name : string)
    (attempts : list Z) (last_error : option exn) : M A :=
  match attempts with
  | [] =>
      raise (RuntimeError
               (action_name +:+ " failed after " +:+ py_str retries +:+ " attempts")
               last_error)
  | attempt :: rest =>
      r ← try_call func;
      match r with
      | Return v => mret v
      | Raise err =>
          if transient err then
            logging_warning "%s failed (%d/%d): %s" action_name attempt retries err;;
            (if (attempt <? retries)%Z then time_sleep retry_delay else mret tt);;
            retry_attempts func retries retry_delay action_name rest (Some err)
          else raise err
      end
  end.

Definition call_with_retry {A : Type} (func : operation A) (retries : Z)
    (retry_delay : Delay) (action_name : string) : M A :=
  retry_attempts func retries retry_delay action_name
    (py_range 1 (retries + 1)) None.

(** *** Market validation *)

(** [[symbol for symbol in symbols.values() if symbol not in exchange.markets]];
    the membership test on [None] is a [TypeError], met at the first
    symbol. *)
Definition missing_symbols (mk : option (gset string))
    (symbols : list (string * string)) : result (list string) :=
  match mk with
  | Some keys => Return (filter (fun symbol => symbol ∉ keys) symbols.*2)
  | None =>
      match symbols with
      | [] => Return []
      | _ :: _ => Raise (TypeError "argument of type 'NoneType' is not iterable")
      end
  end.

Definition validate_symbols (symbols : list (string * string)) : M unit :=
  fun st =>
    match missing_symbols (markets (exchange st)) symbols with
    | Raise e => (Raise e, st)
    | Return [] => (Return tt, st)
    | Return missing =>
        (Raise (ValueError ("Symbols not available on Bitget swap market: "
                              +:+ py_repr_list missing)), st)
    end.

(** *** Fetching the closing prices *)

(** [exchange.fetch_ohlcv(symbol, timeframe=timeframe, limit=limit)]: what
    the exchange answers is a parameter. *)
Variable fetch_ohlcv : string -> string -> Z -> operation (list candle).

Definition lift {A : Type} (r : result A) : M A := fun st => (r, st).

(** The frame of the candles, its [timestamp] column converted and made
    the index, and its [close] column returned. *)
Definition fetch_close_series (symbol timeframe : string) (limit retries : Z)
    (retry_delay : Delay) : M Series :=
  ohlcv ← call_with_retry (fetch_ohlcv symbol timeframe limit) retries retry_delay
            ("fetch_ohlcv(" +:+ symbol +:+ ")");
  match ohlcv with
  | [] => raise (ValueError ("No OHLCV data returned for " +:+ symbol))
  | _ :: _ =>
      index ← lift (to_datetime_all (timestamp <$> ohlcv));
      mret (mkSeries "close" index (c_close <$> ohlcv))
  end.

(** *** The store of frames *)

(** A new frame object. *)
Definition alloc (df : DataFrame) : M loc := fun st =>
  let r := fresh (dom (heap st)) in
  (Return r, mkState (exchange st) (trace st) (<[r := df]> (heap st))).

(** The frame a reference denotes.  In a run of the script a reference
    always denotes a frame; the error case only makes the function total. *)
Definition load (r : loc) : M DataFrame := fun st =>
  match heap st !! r with
  | Some df => (Return df, st)
  | None => (Raise (OtherError "ReferenceError" "no such frame"), st)
  end.

Definition store (r : loc) (df : DataFrame) : M unit := fun st =>
  (Return tt, mkState (exchange st) (trace st) (<[r := df]> (heap st))).

(** *** Aligning the series *)

(** The loop of [build_price_df]:
    [for alias, symbol in symbols.items(): ... series_list.append(close_series)]. *)
Fixpoint collect_series (symbols : list (string * string))
    (timeframe : string) (limit retries : Z) (retry_delay : Delay)
    (series_list : list Series) : M (list Series) :=
  match symbols with
  | [] => mret series_list
  | (alias, symbol) :: rest =>
      close_series ← fetch_close_series symbol timeframe limit retries retry_delay;
      let close_series :=
        mkSeries alias (s_index close_series) (s_values close_series) in
      collect_series rest timeframe limit retries retry_delay
        (series_list ++ [close_series])
  end.

Definition build_price_df (symbols : list (string * string))
    (timeframe : string) (limit retries : Z) (retry_delay : Delay) : M loc :=
  series_list ← collect_series symbols timeframe limit retries retry_delay [];
  df ← lift (pd_concat series_list);
  price_df ← alloc df;
  if df_empty df then
    raise (ValueError "Joined price dataframe is empty. Check symbols/timeframe/limit.")
  else mret price_df.

(** *** Spreads *)

(** [price_df[col]] *)
Definition df_getitem (price_df : loc) (col : string) : M (list float) :=
  df ← load price_df;
  match get_column (df_columns df) col with
  | Some vals => mret vals
  | None => raise (KeyError col)
  end.

(** [price_df[col] = vals]: the frame object itself is updated. *)
Definition df_setitem (price_df : loc) (col : string) (vals : list float)
    : M unit :=
  df ← load price_df;
  store price_df (mkFrame (df_index df) (set_column (df_columns df) col vals)).

Definition add_spreads (price_df : loc) : M loc :=
  xau ← df_getitem price_df "XAU";
  xaut ← df_getitem price_df "XAUT";
  df_setitem price_df "XAU_minus_XAUT" (series_sub xau xaut);;
  xau ← df_getitem price_df "XAU";
  paxg ← df_getitem price_df "PAXG";
  df_setitem price_df "XAU_minus_PAXG" (series_sub xau paxg);;
  paxg ← df_getitem price_df "PAXG";
  xaut ← df_getitem price_df "XAUT";
  df_setitem price_df "PAXG_minus_XAUT" (series_sub paxg xaut);;
  mret price_df.

(** *** Observing an operation and a trace *)

(** The exchange after the first [k] invocations of [func]. *)
Fixpoint after_calls {A : Type} (func : operation A) (k : nat)
    (ex : Exchange) : Exchange :=
  match k with
  | O => ex
  | S k' => after_calls func k' (snd (func ex))
  end.

(** The outcome of the [k]-th invocation of [func], counted from 1. *)
Definition nth_outcome {A : Type} (func : operation A) (ex : Exchange)
    (k : nat) : result A :=
  fst (func (after_calls func (pred k) ex)).

(** The outcome is an exception that the [except] clause catches. *)
Definition raises_transient {A : Type} (r : result A) : bool :=
  match r with
  | Raise err => transient err
  | Return _ => false
  end.

Definition is_invoke (ev : event) : bool :=
  match ev with Invoke => true | _ => false end.

Definition is_warning (ev : event) : bool :=
  match ev with Warning _ _ _ _ _ => true | _ => false end.

Definition count_invocations (tr : list event) : nat :=
  length (List.filter is_invoke tr).

Definition count_warnings (tr : list event) : nat :=
  length (List.filter is_warning tr).

(** The delays slept, in order. *)
Definition sleeps (tr : list event) : list Delay :=
  omap (fun ev => match ev with Sleep d => Some d | _ => None end) tr.

End Pipeline.

Arguments Exchange R : clear implicits.
Arguments event Delay : clear implicits.
Arguments state R Delay : clear implicits.
Arguments M R Delay A : clear implicits.
Arguments operation R A : clear implicits.

(** ** Loading the markets *)

Section Loader.

Context {R Delay Markets : Type} `{!TimeSleep Delay}.

(** [exchange.load_markets(reload=reload, params=params)]: what the client
    does, and the market table it returns, are parameters. *)
Variable load_markets : bool -> list (string * string) -> operation R Markets.

(** The closure [_load_swap_markets] of [load_markets_with_retry]. *)
Definition load_swap_markets : operation R Markets :=
  load_markets true [("type", "swap"); ("productType", "USDT-FUTURES")].

(** The result of the retried call is dropped: the function returns
    [None]. *)
Definition load_markets_with_retry (retries : Z) (retry_delay : Delay)
    : M R Delay unit :=
  call_with_retry load_swap_markets retries retry_delay "load_markets";;
  mret tt.

End Loader.

(** ** The symbol listing of [tance.py] *)

(** [needle in text] for two [str]: [needle] starts at some position of
    [text]. *)
Fixpoint py_in (needle text : string) : bool :=
  String.prefix needle text
  || match text with
     | EmptyString => false
     | String _ rest => py_in needle rest
     end.

(** [[s for s in exchange.symbols if "XAU" in s or "XAUT" in s or "PAXG" in s]] *)
Definition tance_symbols (exchange_symbols : list string) : list string :=
  List.filter (fun s => py_in "XAU" s || py_in "XAUT" s || py_in "PAXG" s)
    exchange_symbols.

(** ** Creating the client *)

(** The Python values that the configuration of the client holds. *)
#[warnings="-register-all"]
Inductive pyval : Type :=
| PyBool (b : bool)
| PyInt (n : Z)
| PyStr (s : string)
| PyDict (d : list (string * pyval)).

Section CreateExchange.

(** What a ccxt client holds besides its [options] and [has] tables. *)
Context {C : Type}.

(** The attributes of the client that [create_exchange] touches:
    [exchange.options], [exchange.has] (kept only when it is a [dict]) and
    the rest. *)
Record Client : Type := mkClient {
  client_options : gmap string pyval;
  client_has : option (gmap string pyval);
  client_rest : C
}.

(** The constructor [ccxt.bitget(config)]: what it makes of the
    configuration is a parameter. *)
Variable bitget : list (string * pyval) -> Client.

(** The [config] dictionary handed to the constructor; an empty [proxy] is
    false in [if proxy]. *)
Definition exchange_config (timeout_ms : Z) (proxy : string)
    : list (string * pyval) :=
  let config :=
    [("enableRateLimit", PyBool true);
     ("timeout", PyInt timeout_ms);
     ("options",
      PyDict [("defaultType", PyStr "swap"); ("fetchCurrencies", PyBool false)])] in
  match proxy with
  | EmptyString => config
  | String _ _ =>
      config ++ [("proxies", PyDict [("http", PyStr proxy); ("https", PyStr proxy)])]
  end.

Definition create_exchange (timeout_ms : Z) (proxy : string) : Client :=
  let exchange := bitget (exchange_config timeout_ms proxy) in
  let exchange :=
    mkClient (<["defaultType" := PyStr "swap"]> (client_options exchange))
      (client_has exchange) (client_rest exchange) in
  let exchange :=
    mkClient (<["fetchCurrencies" := PyBool false]> (client_options exchange))
      (client_has exchange) (client_rest exchange) in
  match client_has exchange with
  | Some has =>
      mkClient (client_options exchange)
        (Some (<["fetchCurrencies" := PyBool false]> has)) (client_rest exchange)
  | None => exchange
  end.

End CreateExchange.

Arguments Client C : clear implicits.

(** ** Scripted exchanges

    Concrete instances of the parameters, on which the definitions run: the
    remote side is a counter of the calls served so far, and the answer to
    the [k]-th call is read off a script. *)

Definition scripted {A : Type} (script : list (result A)) (otherwise : result A)
    : operation nat A := fun ex =>
  (nth (remote ex) script otherwise, mkExchange (markets ex) (S (remote ex))).

Definition fresh_state (mk : option (gset string)) : state nat float :=
  mkState (mkExchange mk 0%nat) [] ∅.

(** A candle that closes at [c] at time [t]. *)
Definition bar (t : Z) (c : float) : candle := Candle t c c c c 0%float.

(** An exchange that answers every request for a symbol with the candles a
    book lists for it (none for a symbol the book lacks). *)
Definition quoting (book : list (string * list candle))
    (symbol timeframe : string) (limit : Z) : operation nat (list candle) :=
  fun ex =>
    (Return (default [] (snd <$> List.find (fun e => String.eqb (fst e) symbol) book)),
     mkExchange (markets ex) (S (remote ex))).

(** An exchange whose first answer is a network error and whose later
    answers hold no candle. *)
Definition empty_after_reset (symbol timeframe : string) (limit : Z)
    : operation nat (list candle) :=
  scripted [Raise (NetworkError "reset"); Return []] (Return []).

(** Three books: candles that overlap on the timestamps 2 and 3, candles
    that share no timestamp, and candles the exchange lists out of order. *)
Definition overlapping_book : list (string * list candle) :=
  [("XAU/USDT:USDT", [bar 1 100; bar 2 100; bar 3 100]);
   ("XAUT/USDT:USDT", [bar 2 99; bar 3 99; bar 4 99]);
   ("PAXG/USDT:USDT", [bar 2 101; bar 3 101])].

Definition disjoint_book : list (string * list candle) :=
  [("XAU/USDT:USDT", [bar 1 100]);
   ("XAUT/USDT:USDT", [bar 2 99]);
   ("PAXG/USDT:USDT", [bar 3 101])].

Definition unordered_book : list (string * list candle) :=
  [("XAU/USDT:USDT", [bar 3 100; bar 2 100]);
   ("XAUT/USDT:USDT", [bar 2 99; bar 3 99]);
   ("PAXG/USDT:USDT", [bar 2 101; bar 3 101])].



(** Candles that overlap on the timestamps 1 and 2, the first symbol
    listing the timestamp 1 twice. *)
Definition duplicated_book : list (string * list candle) :=
  [("XAU/USDT:USDT", [bar 1 100; bar 1 100; bar 2 100]);
   ("XAUT/USDT:USDT", [bar 1 99; bar 2 99]);
   ("PAXG/USDT:USDT", [bar 1 101; bar 2 101])].

(** The series fetched from [overlapping_book], and the state after the
    three fetches. *)
Definition overlapping_series : list Series :=
  [mkSeries "XAU" [1; 2; 3]%Z [100; 100; 100]%float;
   mkSeries "XAUT" [2; 3; 4]%Z [99; 99; 99]%float;
   mkSeries "PAXG" [2; 3]%Z [101; 101]%float].

Definition after_fetches (n : nat) : state nat float :=
  mkState (mkExchange None n) (repeat Invoke n) ∅.

(** Three candles per symbol, on the same timestamps, that close at 10, 9
    and 11. *)
Definition flat_book : list (string * list candle) :=
  [("XAU/USDT:USDT", [bar 1 10; bar 2 10; bar 3 10]);
   ("XAUT/USDT:USDT", [bar 1 9; bar 2 9; bar 3 9]);
   ("PAXG/USDT:USDT", [bar 1 11; bar 2 11; bar 3 11])].

(** An aligned table of two rows, held at reference 1. *)
Definition sample_table : DataFrame :=
  mkFrame [1000; 2000]%Z
    [("XAU", [100; 100.5]%float); ("XAUT", [99; 99.25]%float);
     ("PAXG", [101; 101.5]%float)].

Definition sample_store : state nat float :=
  mkState (mkExchange None 0%nat) [] {[ 1%positive := sample_table ]}.

(** A client whose first market load meets a network error and whose later
    loads fill in the market set [keys]. *)
Definition loading (keys : gset string) (reload : bool)
    (params : list (string * string)) : operation nat unit := fun ex =>
  match remote ex with
  | O => (Raise (NetworkError "reset"), mkExchange (markets ex) 1%nat)
  | S n => (Return tt, mkExchange (Some keys) (S (S n)))
  end.

(** A client that never gets through, for the markets and for the
    candles. *)
Definition markets_down (reload : bool) (params : list (string * string))
    : operation nat unit :=
  scripted [] (Raise (NetworkError "reset")).

Definition candles_down (symbol timeframe : string) (limit : Z)
    : operation nat (list candle) :=
  scripted [] (Raise (RequestTimeout "30000 ms")).

(** A book that lists XAU only. *)
Definition xau_only_book : list (string * list candle) :=
  [("XAU/USDT:USDT", [bar 1 100; bar 2 100])].

(** The table built from [overlapping_book], and the state after the
    build. *)
Definition overlapping_table : DataFrame :=
  mkFrame [2; 3]%Z
    [("XAU", [100; 100]%float); ("XAUT", [99; 99]%float);
     ("PAXG", [101; 101]%float)].

Definition after_build : state nat float :=
  mkState (mkExchange None 3%nat) [Invoke; Invoke; Invoke]
    {[ 1%positive := overlapping_table ]}.

(** Two tables that lack a price column, held at reference 1. *)
Definition no_xau_store : state nat float :=
  mkState (mkExchange None 0%nat) []
    {[ 1%positive := mkFrame [1000]%Z [("XAUT", [99]%float); ("PAXG", [101]%float)] ]}.

Definition no_paxg_table : DataFrame :=
  mkFrame [1000]%Z [("XAU", [100]%float); ("XAUT", [99]%float)].

Definition no_paxg_store : state nat float :=
  mkState (mkExchange None 0%nat) [] {[ 1%positive := no_paxg_table ]}.

(** ** The definitions at work *)

Example py_repr_list_quotes :
  py_repr_list ["XAU/USDT:USDT"; "it's"; "a\b"] =
  String.concat EmptyString
    ["['XAU/USDT:USDT', "; String dquote "it's"; String dquote ", 'a\\b']"].
Proof. reflexivity. Qed.

Example combined_index_of_three :
  combined_index [[1; 2; 3]; [2; 3; 4]; [2; 3]]%Z = [2; 3]%Z.
Proof. reflexivity. Qed.

(** Three symbols, three candles each on the same timestamps, closing at
    10, 9 and 11: three rows, each with the spreads 1, -1 and 2. *)
Example pipeline_end_to_end :
  (validate_symbols DEFAULT_SYMBOLS;;
   price_df ← build_price_df (quoting flat_book) DEFAULT_SYMBOLS "1h" 3 3 2%float;
   add_spreads price_df)
    (fresh_state (Some {["XAU/USDT:USDT"; "XAUT/USDT:USDT"; "PAXG/USDT:USDT"]})) =
  (Return 1%positive,
   mkState
     (mkExchange (Some {["XAU/USDT:USDT"; "XAUT/USDT:USDT"; "PAXG/USDT:USDT"]}) 3%nat)
     [Invoke; Invoke; Invoke]
     {[ 1%positive :=
          mkFrame [1; 2; 3]%Z
            [("XAU", [10; 10; 10]%float); ("XAUT", [9; 9; 9]%float);
             ("PAXG", [11; 11; 11]%float);
             ("XAU_minus_XAUT", [1; 1; 1]%float);
             ("XAU_minus_PAXG", [-1; -1; -1]%float);
             ("PAXG_minus_XAUT", [2; 2; 2]%float)] ]}).
Proof. vm_compute. reflexivity. Qed.


(** [repr] writes the no-break space as an escape and keeps a printable
    letter beyond ASCII. *)
Example py_repr_escapes_what_is_not_printable :
  py_repr (String (ascii_of_nat 160) (String (ascii_of_nat 233) "a")) =
  String squote ("\xa0" +:+ String (ascii_of_nat 233) ("a" +:+ String squote EmptyString))
  /\ py_repr (String (ascii_of_nat 173) (String (ascii_of_nat 127) EmptyString)) =
     String squote ("\xad\x7f" +:+ String squote EmptyString).
Proof. split; reflexivity. Qed.

(** The delays that [time.sleep] refuses and accepts. *)
Example float_sleep_error_cases :
  float_sleep_error (-1) = Some (ValueError "sleep length must be non-negative")
  /\ float_sleep_error nan = Some (ValueError "Invalid value NaN (not a number)")
  /\ float_sleep_error infinity =
       Some (OtherError "OverflowError" "timestamp too large to convert to C PyTime_t")
  /\ float_sleep_error 1e10 =
       Some (OtherError "OverflowError" "timestamp too large to convert to C PyTime_t")
  /\ float_sleep_error 0 = None
  /\ float_sleep_error (-0) = None
  /\ float_sleep_error 2 = None.
Proof. repeat split; vm_compute; reflexivity. Qed.

(** The last instant that [pd.to_datetime] converts, the first one it does
    not, and the mark of a missing instant. *)
Example to_datetime_cases :
  to_datetime 9223372036854 = Return 9223372036854%Z
  /\ to_datetime (-9223372036854) = Return (-9223372036854)%Z
  /\ to_datetime 9223372036855 =
       Raise (OtherError "OutOfBoundsDatetime" "Out of bounds nanosecond timestamp")
  /\ to_datetime (-9223372036855) =
       Raise (OtherError "OutOfBoundsDatetime" "Out of bounds nanosecond timestamp")
  /\ to_datetime iNaT = Return iNaT.
Proof. repeat split; vm_compute; reflexivity. Qed.

(** A numeral and a list, read back. *)
Example read_back_cases :
  read_decimal "3" = Some 3%Z
  /\ read_decimal "-12" = Some (-12)%Z
  /\ read_decimal "1x" = None
  /\ read_decimal EmptyString = None
  /\ read_repr_list "['a', 'b\'c', 'd\\e']" = Some ["a"; "b'c"; "d\e"]
  /\ read_repr_list "[]" = Some []
  /\ read_repr_list "['a'" = None.
Proof. repeat split; vm_compute; reflexivity. Qed.

(** ** What the script writes reads back *)

Lemma append_cons c (s t : string) : String c s +:+ t = String c (s +:+ t).
Proof. reflexivity. Qed.

Lemma append_nil (t : string) : EmptyString +:+ t = t.
Proof. reflexivity. Qed.

Lemma append_assoc (s t u : string) : (s +:+ t) +:+ u = s +:+ (t +:+ u).
Proof. induction s as [|c s IH]; [done|]. by rewrite !append_cons, IH. Qed.

Lemma append_length (s t : string) :
  String.length (s +:+ t) = (String.length s + String.length t)%nat.
Proof. induction s as [|c s IH]; [done|]. rewrite append_cons. cbn. by rewrite IH. Qed.

Lemma digit_value_char (d : N) :
  (d < 10)%N -> digit_value (pretty_N_char d) = Some d.
Proof.
  intros Hd.
  assert (d ∈ [0; 1; 2; 3; 4; 5; 6; 7; 8; 9]%N) as Hin.
  { rewrite !elem_of_cons. lia. }
  repeat (apply elem_of_cons in Hin as [->|Hin]; [reflexivity|]).
  by apply elem_of_nil in Hin.
Qed.

Lemma read_digits_pretty_go (x : N) : forall text acc,
  exists m, read_digits (pretty_N_go x text) acc = read_digits text (acc * m + x)%N.
Proof.
  induction (N.lt_wf_0 x) as [x _ IH]. intros text acc.
  destruct (decide (0 < x)%N) as [Hpos|Hzero].
  - rewrite pretty_N_go_step by done.
    destruct (IH (x `div` 10)%N) with (text := String (pretty_N_char (x `mod` 10)) text)
      (acc := acc) as [m Hm]; [by apply N.div_lt|].
    exists (m * 10)%N. rewrite Hm. cbn [read_digits].
    rewrite digit_value_char by (apply N.mod_lt; lia).
    f_equal. pose proof (N.div_mod x 10 ltac:(lia)). lia.
  - replace x with 0%N by lia. exists 1%N. rewrite pretty_N_go_0. f_equal. lia.
Qed.

Lemma read_digits_pretty (x : N) : read_digits (pretty x) 0 = Some x.
Proof.
  unfold pretty, pretty_N. case_decide as Hx; [by subst|].
  destruct (read_digits_pretty_go x EmptyString 0%N) as [m ->]. cbn. f_equal; lia.
Qed.

Lemma read_decimal_pretty_pos (p : positive) :
  read_decimal (pretty (Npos p)) = Some (Zpos p)
  /\ pretty (Npos p) ≠ EmptyString.
Proof.
  pose proof (read_digits_pretty (Npos p)) as Hread.
  destruct (pretty (Npos p)) as [|c rest] eqn:Htext; [by discriminate Hread|].
  split; [|done]. unfold read_decimal.
  destruct (Ascii.eqb c "-") eqn:Hc.
  - apply Ascii.eqb_eq in Hc as ->. by discriminate Hread.
  - by rewrite Hread.
Qed.

(** The numeral that [str] writes for an integer denotes that integer. *)
Lemma read_decimal_py_str (n : Z) : read_decimal (py_str n) = Some n.
Proof.
  unfold py_str. destruct n as [|p|p].
  - reflexivity.
  - apply read_decimal_pretty_pos.
  - change (pretty (Zneg p)) with ("-" +:+ pretty (Npos p)).
    destruct (read_decimal_pretty_pos p) as [_ Hne].
    pose proof (read_digits_pretty (Npos p)) as Hread.
    change ("-" +:+ pretty (Npos p)) with (String "-" (pretty (Npos p))).
    unfold read_decimal. cbn [Ascii.eqb Bool.eqb].
    destruct (pretty (Npos p)) as [|c rest]; [done|]. by rewrite Hread.
Qed.

Lemma read_quoted_char (quote c : ascii) (tail : string) :
  quote = squote \/ quote = dquote ->
  read_quoted quote (repr_char quote c +:+ tail) = push c (read_quoted quote tail).
Proof.
  intros [-> | ->];
    destruct c as [[] [] [] [] [] [] [] []]; reflexivity.
Qed.

Lemma read_quoted_chars (quote : ascii) (s rest : string) :
  quote = squote \/ quote = dquote ->
  read_quoted quote (repr_chars quote s +:+ String quote rest) = Some (s, rest).
Proof.
  intros Hq. induction s as [|c s IH]; cbn [repr_chars].
  - rewrite append_nil. cbn [read_quoted]. by rewrite Ascii.eqb_refl.
  - by rewrite append_assoc, read_quoted_char, IH.
Qed.

(** The quoted text that [repr] writes for a text denotes that text. *)
Lemma read_repr_py_repr (s rest : string) :
  read_repr (py_repr s +:+ rest) = Some (s, rest).
Proof.
  unfold py_repr.
  destruct (string_has squote s && negb (string_has dquote s));
    rewrite append_cons, append_assoc, append_cons, append_nil;
    cbn [read_repr]; rewrite Ascii.eqb_refl, ?orb_true_r; cbn [orb];
    apply read_quoted_chars; auto.
Qed.

Lemma concat_py_repr_cons item next items :
  String.concat ", " (map py_repr (item :: next :: items)) =
  py_repr item +:+ ", " +:+ String.concat ", " (map py_repr (next :: items)).
Proof. reflexivity. Qed.

Lemma read_items_concat (items : list string) : forall item fuel,
  (length items < fuel)%nat ->
  read_items fuel (String.concat ", " (map py_repr (item :: items)) +:+ "]")
  = Some (item :: items).
Proof.
  induction items as [|next items IH]; intros item [|fuel] Hfuel; try (cbn in Hfuel; lia).
  - cbn [map String.concat read_items]. by rewrite read_repr_py_repr.
  - rewrite concat_py_repr_cons, !append_assoc. cbn [read_items].
    rewrite read_repr_py_repr, !append_cons, append_nil.
    rewrite IH by (cbn in Hfuel; lia). done.
Qed.

Lemma concat_py_repr_length (items : list string) : forall item,
  (length items
   < String.length (String.concat ", " (map py_repr (item :: items)) +:+ "]"))%nat.
Proof.
  induction items as [|next items IH]; intros item.
  - cbn [length]. rewrite append_length. cbn. lia.
  - rewrite concat_py_repr_cons, !append_assoc, !append_length.
    specialize (IH next). rewrite append_length in IH.
    cbn [length String.length] in *. lia.
Qed.

(** The list that [repr] writes for a list of texts denotes that list. *)
Lemma read_repr_list_py_repr_list (l : list string) :
  read_repr_list (py_repr_list l) = Some l.
Proof.
  unfold py_repr_list. destruct l as [|item items]; [reflexivity|].
  rewrite append_cons, append_nil. unfold read_repr_list.
  destruct (String.concat ", " (map py_repr (item :: items)) +:+ "]") as [|c s1] eqn:Htext.
  { pose proof (concat_py_repr_length items item) as Hlen.
    rewrite Htext in Hlen. cbn in Hlen. lia. }
  assert (Hitems : read_items (String.length (String c s1)) (String c s1)
                   = Some (item :: items)).
  { rewrite <- Htext. apply read_items_concat, concat_py_repr_length. }
  destruct (Ascii.eqb c "]") eqn:Hc.
  - apply Ascii.eqb_eq in Hc as ->. cbn [read_items String.length read_repr] in Hitems.
    discriminate Hitems.
  - destruct c as [[] [] [] [] [] [] [] []]; try discriminate Hc; exact Hitems.
Qed.

(** The instants that [pd.to_datetime] converts are kept as they are; a
    column is converted when each of its values is. *)
Lemma to_datetime_Return ms t : to_datetime ms = Return t -> t = ms.
Proof. unfold to_datetime. repeat case_decide; by intros [= <-]. Qed.



Lemma to_datetime_Raise ms e :
  to_datetime ms = Raise e ->
  ~ (datetime_min <= ms <= datetime_max)%Z
  /\ exists msg, e = OtherError "OutOfBoundsDatetime" msg.
Proof.
  unfold to_datetime. repeat case_decide; intros [= <-]. split; [done|by eexists].
Qed.

Lemma to_datetime_all_Return column index :
  to_datetime_all column = Return index -> index = column.
Proof.
  revert index. induction column as [|ms column IH]; intros index; cbn.
  - by intros [= <-].
  - destruct (to_datetime ms) as [t|] eqn:Hms; [|done].
    destruct (to_datetime_all column) as [ts|]; [|done].
    intros [= <-]. apply to_datetime_Return in Hms as ->. by rewrite (IH ts).
Qed.



Lemma to_datetime_all_Raise column e :
  to_datetime_all column = Raise e ->
  exists msg, e = OtherError "OutOfBoundsDatetime" msg.
Proof.
  induction column as [|ms column IH]; cbn; [done|].
  destruct (to_datetime ms) as [t|e'] eqn:Hms.
  - destruct (to_datetime_all column); [done|]. intros [= <-]. by apply IH.
  - intros [= <-]. by apply to_datetime_Raise in Hms as [_ ?].
Qed.

Section Properties.

Context {R Delay : Type} `{!TimeSleep Delay}.

(** ** The retry wrapper *)

Section Retry.

Context {A : Type} (func : operation R A) (retries : Z) (retry_delay : Delay)
  (action_name : string).

Abbreviation loop := (retry_attempts func retries retry_delay action_name).

(** One turn of the loop, spelled out on the state. *)
Lemma retry_attempts_cons attempt rest last_error (st : state R Delay) :
  loop (attempt :: rest) last_error st =
    let st1 := mkState (snd (func (exchange st))) (trace st ++ [Invoke]) (heap st) in
    match fst (func (exchange st)) with
    | Return v => (Return v, st1)
    | Raise err =>
        if transient err then
          let warning :=
            Warning "%s failed (%d/%d): %s" action_name attempt retries err in
          if (attempt <? retries)%Z then
            match sleep_error retry_delay with
            | Some e =>
                (Raise e,
                 mkState (exchange st1) (trace st ++ [Invoke; warning]) (heap st))
            | None =>
                loop rest (Some err)
                  (mkState (exchange st1)
                     (trace st ++ [Invoke; warning; Sleep retry_delay]) (heap st))
            end
          else
            loop rest (Some err)
              (mkState (exchange st1) (trace st ++ [Invoke; warning]) (heap st))
        else (Raise err, st1)
    end.
Proof.
  cbn [retry_attempts]. unfold mbind, M_bind, try_call.
  destruct (func (exchange st)) as [[v|err] ex]; cbn; [reflexivity|].
  destruct (transient err); [|reflexivity].
  unfold logging_warning, time_sleep, emit, raise, mret, M_ret. cbn.
  destruct (attempt <? retries)%Z; cbn; [|by rewrite <- !app_assoc].
  destruct (sleep_error retry_delay); cbn; by rewrite <- !app_assoc.
Qed.

Lemma nth_outcome_1 (ex : Exchange R) : nth_outcome func ex 1 = fst (func ex).
Proof. reflexivity. Qed.

Lemma nth_outcome_S (ex : Exchange R) k :
  (1 <= k)%nat ->
  nth_outcome func ex (S k) = nth_outcome func (snd (func ex)) k.
Proof. intros Hk. destruct k as [|k]; [lia|]. reflexivity. Qed.

Lemma count_invocations_app (tr1 tr2 : list (event Delay)) :
  count_invocations (tr1 ++ tr2) = (count_invocations tr1 + count_invocations tr2)%nat.
Proof. unfold count_invocations. by rewrite List.filter_app, length_app. Qed.

Lemma count_warnings_app (tr1 tr2 : list (event Delay)) :
  count_warnings (tr1 ++ tr2) = (count_warnings tr1 + count_warnings tr2)%nat.
Proof. unfold count_warnings. by rewrite List.filter_app, length_app. Qed.

Lemma sleeps_app (tr1 tr2 : list (event Delay)) :
  sleeps (tr1 ++ tr2) = sleeps tr1 ++ sleeps tr2.
Proof. unfold sleeps. apply omap_app. Qed.

(** [n] caught failures in a row, none of them at the last attempt, with a
    delay that [time.sleep] accepts: each is invoked once, warned about
    once and followed by one sleep, and the loop goes on with the attempts
    that remain. *)
Lemma retry_attempts_failures (n : nat) :
  forall (a : nat) rest last_error (st : state R Delay),
    (Z.of_nat (a + n) <= retries)%Z ->
    n = 0%nat \/ sleep_error retry_delay = None ->
    (forall k, (1 <= k <= n)%nat ->
       raises_transient (nth_outcome func (exchange st) k) = true) ->
    exists tr last_error',
      loop (map Z.of_nat (seq a n) ++ rest) last_error st =
        loop rest last_error'
          (mkState (after_calls func n (exchange st)) (trace st ++ tr) (heap st))
      /\ count_invocations tr = n
      /\ count_warnings tr = n
      /\ sleeps tr = repeat retry_delay n.
Proof.
  induction n as [|n IH]; intros a rest last_error st Hle Hsleep Hfail.
  - exists [], last_error. rewrite app_nil_r. by destruct st.
  - destruct Hsleep as [|Hsleep]; [done|].
    pose proof (Hfail 1%nat ltac:(lia)) as H1. rewrite nth_outcome_1 in H1.
    cbn [seq map app]. rewrite retry_attempts_cons. cbn zeta.
    destruct (fst (func (exchange st))) as [v|err] eqn:Hr; [discriminate|].
    cbn in H1. rewrite H1, Hsleep.
    replace (Z.of_nat a <? retries)%Z with true by (symmetry; apply Z.ltb_lt; lia).
    cbn [exchange trace heap].
    edestruct (IH (S a) rest (Some err)) as (tr & last' & Heq & Hi & Hw & Hs);
      [| | |rewrite Heq].
    + cbn [exchange]. lia.
    + by right.
    + intros k Hk. cbn [exchange]. rewrite <- nth_outcome_S by lia. apply Hfail. lia.
    + cbn [exchange trace heap].
      exists (Invoke :: Warning "%s failed (%d/%d): %s" action_name (Z.of_nat a) retries err
                :: Sleep retry_delay :: tr), last'.
      split; [|split; [|split]].
      * cbn [after_calls]. do 2 f_equal. rewrite <- app_assoc. reflexivity.
      * change (S (count_invocations tr) = S n). by rewrite Hi.
      * change (S (count_warnings tr) = S n). by rewrite Hw.
      * change (retry_delay :: sleeps tr = retry_delay :: repeat retry_delay n).
        by rewrite Hs.
Qed.

Lemma py_range_from_1 (N : nat) :
  py_range 1 (Z.of_nat N + 1) = map Z.of_nat (seq 1 N).
Proof.
  unfold py_range. replace (Z.to_nat (Z.of_nat N + 1 - 1)) with N by lia.
  rewrite <- seq_shift, map_map. apply map_ext. intros i. lia.
Qed.

Lemma seq_split_at (k N : nat) :
  (1 <= k <= N)%nat ->
  seq 1 N = seq 1 (k - 1) ++ k :: seq (S k) (N - k).
Proof.
  intros Hk. replace N with ((k - 1) + S (N - k))%nat at 1 by lia.
  rewrite seq_app. f_equal. replace (1 + (k - 1))%nat with k by lia. reflexivity.
Qed.

Lemma after_calls_S (k : nat) (ex : Exchange R) :
  after_calls func (S k) ex = snd (func (after_calls func k ex)).
Proof.
  revert ex. induction k as [|k IH]; intros ex; [reflexivity|]. cbn. apply IH.
Qed.

(** The wrapper up to its [k]-th attempt, when the [k - 1] attempts before
    it all failed with a caught error and the sleeps between them were
    accepted. *)
Lemma call_with_retry_reaches (k N : nat) (st : state R Delay) :
  retries = Z.of_nat N ->
  (1 <= k <= N)%nat ->
  k = 1%nat \/ sleep_error retry_delay = None ->
  (forall j, (1 <= j < k)%nat ->
     raises_transient (nth_outcome func (exchange st) j) = true) ->
  exists tr last_error,
    call_with_retry func retries retry_delay action_name st =
      loop (Z.of_nat k :: map Z.of_nat (seq (S k) (N - k))) last_error
        (mkState (after_calls func (k - 1) (exchange st)) (trace st ++ tr) (heap st))
    /\ count_invocations tr = (k - 1)%nat
    /\ count_warnings tr = (k - 1)%nat
    /\ sleeps tr = repeat retry_delay (k - 1).
Proof.
  intros HN Hk Hsleep Hfail. unfold call_with_retry.
  replace (py_range 1 (retries + 1)) with (map Z.of_nat (seq 1 N))
    by (rewrite HN; symmetry; apply py_range_from_1).
  rewrite (seq_split_at k N Hk), map_app. cbn [map].
  apply retry_attempts_failures; [lia| |].
  - destruct Hsleep as [->|Hsleep]; [by left|by right].
  - intros j Hj. apply Hfail. lia.
Qed.

(** The [k]-th attempt settles the call when its outcome is a value or an
    error the [except] clause does not catch: that outcome is the outcome of
    the call, and nothing is logged, slept or invoked after it. *)
Lemma call_with_retry_settles (k N : nat) (st : state R Delay) :
  retries = Z.of_nat N ->
  (1 <= k <= N)%nat ->
  k = 1%nat \/ sleep_error retry_delay = None ->
  (forall j, (1 <= j < k)%nat ->
     raises_transient (nth_outcome func (exchange st) j) = true) ->
  raises_transient (nth_outcome func (exchange st) k) = false ->
  exists tr,
    call_with_retry func retries retry_delay action_name st =
      (nth_outcome func (exchange st) k,
       mkState (after_calls func k (exchange st)) (trace st ++ tr ++ [Invoke]) (heap st))
    /\ count_invocations tr = (k - 1)%nat
    /\ count_warnings tr = (k - 1)%nat
    /\ sleeps tr = repeat retry_delay (k - 1).
Proof.
  intros HN Hk Hsleep Hfail Hk_out.
  destruct (call_with_retry_reaches k N st HN Hk Hsleep Hfail)
    as (tr & last & Heq & Hi & Hw & Hs).
  exists tr. split; [|done].
  rewrite Heq, retry_attempts_cons. cbn zeta. cbn [exchange trace heap].
  assert (Hout : nth_outcome func (exchange st) k =
                 fst (func (after_calls func (k - 1) (exchange st)))).
  { unfold nth_outcome. by replace (pred k) with (k - 1)%nat by lia. }
  assert (Hex : after_calls func k (exchange st) =
                snd (func (after_calls func (k - 1) (exchange st)))).
  { replace k with (S (k - 1)) at 1 by lia. apply after_calls_S. }
  rewrite Hout in Hk_out |- *. rewrite Hex, <- app_assoc.
  destruct (fst (func (after_calls func (k - 1) (exchange st)))) as [v|err];
    [reflexivity|].
  cbn in Hk_out. rewrite Hk_out. reflexivity.
Qed.

(** A delay that [time.sleep] refuses ends the call at the first caught
    failure that is not the last attempt: the error of [time.sleep] leaves
    the [except] block, after one invocation and one warning. *)
Lemma call_with_retry_sleep_refused (N : nat) (st : state R Delay) err e :
  retries = Z.of_nat N ->
  (2 <= N)%nat ->
  nth_outcome func (exchange st) 1 = Raise err ->
  transient err = true ->
  sleep_error retry_delay = Some e ->
  call_with_retry func retries retry_delay action_name st =
    (Raise e,
     mkState (after_calls func 1 (exchange st))
       (trace st ++ [Invoke; Warning "%s failed (%d/%d): %s" action_name 1 retries err])
       (heap st)).
Proof.
  intros HN Hpos Hout Hcaught Hsleep. unfold call_with_retry.
  replace (py_range 1 (retries + 1)) with (map Z.of_nat (seq 1 N))
    by (rewrite HN; symmetry; apply py_range_from_1).
  destruct N as [|N]; [lia|]. cbn [seq map].
  rewrite retry_attempts_cons. cbn zeta. rewrite nth_outcome_1 in Hout.
  rewrite Hout, Hcaught, Hsleep.
  replace (Z.of_nat 1 <? retries)%Z with true by (symmetry; apply Z.ltb_lt; lia).
  reflexivity.
Qed.

(** The loop only appends to the trace and never touches the frames; it
    invokes the operation at most once per attempt, warns at most once per
    invocation, and sleeps, for the configured delay, at most once per
    warning and only at an attempt below [retries]. *)
Lemma retry_attempts_frame attempts :
  forall last_error (st : state R Delay),
    exists tr,
      trace (loop attempts last_error st).2 = trace st ++ tr
      /\ heap (loop attempts last_error st).2 = heap st
      /\ (count_invocations tr <= length attempts)%nat
      /\ (count_warnings tr <= count_invocations tr)%nat
      /\ (length (sleeps tr) <= count_warnings tr)%nat
      /\ (length (sleeps tr)
          <= length (List.filter (fun a => (a <? retries)%Z) attempts))%nat
      /\ Forall (eq retry_delay) (sleeps tr).
Proof.
  induction attempts as [|attempt rest IH]; intros last_error st.
  - exists []. cbn. rewrite app_nil_r. repeat split; done.
  - rewrite retry_attempts_cons. cbn zeta.
    destruct (fst (func (exchange st))) as [v|err].
    { exists [Invoke]. cbn. repeat split; first [lia|done]. }
    destruct (transient err).
    2: { exists [Invoke]. cbn. repeat split; first [lia|done]. }
    cbn [List.filter].
    destruct (attempt <? retries)%Z; [destruct (sleep_error retry_delay)|].
    + eexists [Invoke; Warning _ _ _ _ _]. cbn. repeat split; first [lia|done].
    + match goal with |- context [loop rest ?l ?s] =>
        destruct (IH l s) as (tr & Htr & Hheap & Hi & Hw & Hs & Hlt & Hd) end.
      exists (Invoke :: Warning "%s failed (%d/%d): %s" action_name attempt retries err
                :: Sleep retry_delay :: tr).
      rewrite Htr, Hheap. cbn [trace heap]. rewrite <- app_assoc.
      split; [done|]. split; [done|].
      unfold count_invocations, count_warnings, sleeps in *; cbn;
        repeat split; try lia. by constructor.
    + match goal with |- context [loop rest ?l ?s] =>
        destruct (IH l s) as (tr & Htr & Hheap & Hi & Hw & Hs & Hlt & Hd) end.
      exists (Invoke :: Warning "%s failed (%d/%d): %s" action_name attempt retries err
                :: tr).
      rewrite Htr, Hheap. cbn [trace heap]. rewrite <- app_assoc.
      split; [done|]. split; [done|].
      unfold count_invocations, count_warnings, sleeps in *; cbn;
        repeat split; try lia; done.
Qed.

Lemma py_range_length : length (py_range 1 (retries + 1)) = Z.to_nat retries.
Proof.
  unfold py_range. rewrite length_map, length_seq. f_equal. lia.
Qed.

(** The wrapper only appends to the trace, leaves the frames alone and
    invokes the operation at most [retries] times. *)
Lemma call_with_retry_frame (st : state R Delay) :
  exists tr,
    trace (call_with_retry func retries retry_delay action_name st).2
      = trace st ++ tr
    /\ heap (call_with_retry func retries retry_delay action_name st).2 = heap st
    /\ (count_invocations tr <= Z.to_nat retries)%nat.
Proof.
  unfold call_with_retry.
  destruct (retry_attempts_frame (py_range 1 (retries + 1)) None st)
    as (tr & Htr & Hheap & Hi & _).
  exists tr. by rewrite py_range_length in Hi.
Qed.

(** Among the first [n] invocations either all raise a caught error, or
    there is a first one that does not. *)
Lemma first_settled (ex : Exchange R) (n : nat) :
  (forall k, (1 <= k <= n)%nat -> raises_transient (nth_outcome func ex k) = true)
  \/ (exists k, (1 <= k <= n)%nat
        /\ raises_transient (nth_outcome func ex k) = false
        /\ forall j, (1 <= j < k)%nat ->
             raises_transient (nth_outcome func ex j) = true).
Proof.
  induction n as [|n [Hall|(k & Hk & Hsettled & Hbefore)]].
  - left. intros k Hk. lia.
  - destruct (raises_transient (nth_outcome func ex (S n))) eqn:Hnext.
    + left. intros k Hk. destruct (decide (k = S n)) as [->|]; [done|].
      apply Hall. lia.
    + right. exists (S n). split; [lia|]. split; [done|].
      intros j Hj. apply Hall. lia.
  - right. exists k. split; [lia|]. done.
Qed.

(** When the call invokes the operation [k] times at least, and the
    outcome of the [k]-th invocation is a value or an error the [except]
    clause does not catch, the call ends there with that outcome: the
    invocations before it raised caught errors, each logged once and
    followed by one sleep, and nothing comes after the [k]-th invocation. *)
Lemma call_with_retry_stops_at (k : nat) (st : state R Delay)
    (tr : list (event Delay)) :
  trace (call_with_retry func retries retry_delay action_name st).2
    = trace st ++ tr ->
  (1 <= k <= count_invocations tr)%nat ->
  raises_transient (nth_outcome func (exchange st) k) = false ->
  call_with_retry func retries retry_delay action_name st =
    (nth_outcome func (exchange st) k,
     mkState (after_calls func k (exchange st)) (trace st ++ tr) (heap st))
  /\ count_invocations tr = k
  /\ last tr = Some Invoke
  /\ count_warnings tr = (k - 1)%nat
  /\ sleeps tr = repeat retry_delay (k - 1)
  /\ (forall j, (1 <= j < k)%nat ->
        raises_transient (nth_outcome func (exchange st) j) = true).
Proof.
  intros Htr Hk Hsettled.
  destruct (call_with_retry_frame st) as (tr0 & Htr0 & _ & HN).
  rewrite Htr in Htr0. apply app_inv_head in Htr0 as <-.
  assert (Hretries : retries = Z.of_nat (Z.to_nat retries)) by lia.
  destruct (first_settled (exchange st) k) as [Hall|(k0 & Hk0 & Hout0 & Hbefore)].
  { rewrite Hall in Hsettled by lia. discriminate. }
  assert (Hearly : k0 = 1%nat \/ sleep_error retry_delay = None ->
                   k0 = k /\ exists tr', tr = tr' ++ [Invoke]
                     /\ call_with_retry func retries retry_delay action_name st =
                          (nth_outcome func (exchange st) k0,
                           mkState (after_calls func k0 (exchange st))
                             (trace st ++ tr' ++ [Invoke]) (heap st))
                     /\ count_invocations tr' = (k0 - 1)%nat
                     /\ count_warnings tr' = (k0 - 1)%nat
                     /\ sleeps tr' = repeat retry_delay (k0 - 1)).
  { intros Hsleep.
    destruct (call_with_retry_settles k0 (Z.to_nat retries) st Hretries
                ltac:(lia) Hsleep Hbefore Hout0) as (tr' & Heq & Hi & Hw & Hs).
    rewrite Heq in Htr. cbn [snd trace] in Htr. apply app_inv_head in Htr.
    subst tr. rewrite count_invocations_app, Hi in Hk. cbn in Hk.
    split; [lia|]. by exists tr'. }
  destruct (decide (k0 = 1%nat)) as [Hfirst|Hlater];
    [|destruct (sleep_error retry_delay) as [e|] eqn:Hsleep].
  - destruct Hearly as (<- & tr' & -> & Heq & Hi & Hw & Hs); [by left|].
    rewrite Heq, count_invocations_app, count_warnings_app, sleeps_app,
      Hi, Hw, Hs, last_snoc.
    cbn. rewrite app_nil_r. repeat split; try done; lia.
  - pose proof (Hbefore 1%nat ltac:(lia)) as Hone.
    destruct (nth_outcome func (exchange st) 1) as [v|err] eqn:Hout1; [done|].
    cbn in Hone.
    rewrite (call_with_retry_sleep_refused (Z.to_nat retries) st err e
               Hretries ltac:(lia) Hout1 Hone Hsleep) in Htr.
    cbn [snd trace] in Htr. apply app_inv_head in Htr. subst tr.
    cbn in Hk. lia.
  - destruct Hearly as (<- & tr' & -> & Heq & Hi & Hw & Hs); [by right|].
    rewrite Heq, count_invocations_app, count_warnings_app, sleeps_app,
      Hi, Hw, Hs, last_snoc.
    cbn. rewrite app_nil_r. repeat split; try done; lia.
Qed.

End Retry.

(** C1, as the code has it.  With [retries = N >= 1], an operation whose
    first [N - 1] invocations raise a caught (network, timeout or exchange)
    error and whose [N]-th invocation returns [v], and, when [N >= 2], a
    retry delay that [time.sleep] accepts, [call_with_retry] returns [v]:
    no aggregated failure is raised, exactly [N - 1] warnings are logged,
    the operation is invoked exactly [N] times, the exchange is left as the
    [N]-th invocation left it, and the successful invocation is the last
    thing that happens. *)
Theorem call_with_retry_succeeds_on_last_attempt {A : Type}
    (func : operation R A) (N : nat) (retry_delay : Delay)
    (action_name : string) (st : state R Delay) (v : A) :
  (1 <= N)%nat ->
  N = 1%nat \/ sleep_error retry_delay = None ->
  (forall k, (1 <= k < N)%nat ->
     raises_transient (nth_outcome func (exchange st) k) = true) ->
  nth_outcome func (exchange st) N = Return v ->
  exists tr,
    call_with_retry func (Z.of_nat N) retry_delay action_name st =
      (Return v,
       mkState (after_calls func N (exchange st)) (trace st ++ tr) (heap st))
    /\ count_warnings tr = (N - 1)%nat
    /\ count_invocations tr = N
    /\ last tr = Some Invoke.
Proof.
  intros HN Hsleep Hfail Hok.
  destruct (call_with_retry_settles func (Z.of_nat N) retry_delay action_name
              N N st eq_refl ltac:(lia) Hsleep Hfail)
    as (tr & Heq & Hi & Hw & _); [by rewrite Hok|].
  exists (tr ++ [Invoke]). rewrite Heq, Hok. split; [reflexivity|].
  rewrite count_warnings_app, count_invocations_app, Hi, Hw, last_snoc.
  cbn. repeat split; lia.
Qed.

(** C2, as the code has it.  With [retries = N >= 1], an operation whose [N]
    invocations all raise a caught error, and, when [N >= 2], a retry delay
    that [time.sleep] accepts, [call_with_retry] raises one [RuntimeError].
    Its message is the label, [" failed after "], a numeral and
    [" attempts"], the numeral denoting [N]; its cause is the error of the
    [N]-th invocation.  The call sleeps [N - 1] times, each time for the
    configured delay; the last thing it does before raising is to log the
    warning of attempt [N], so no sleep follows the final attempt. *)
Theorem call_with_retry_exhausted {A : Type}
    (func : operation R A) (N : nat) (retry_delay : Delay)
    (action_name : string) (st : state R Delay) :
  (1 <= N)%nat ->
  N = 1%nat \/ sleep_error retry_delay = None ->
  (forall k, (1 <= k <= N)%nat ->
     raises_transient (nth_outcome func (exchange st) k) = true) ->
  exists tr err digits,
    nth_outcome func (exchange st) N = Raise err
    /\ call_with_retry func (Z.of_nat N) retry_delay action_name st =
         (Raise (RuntimeError
                   (action_name +:+ " failed after " +:+ digits +:+ " attempts")
                   (Some err)),
          mkState (after_calls func N (exchange st)) (trace st ++ tr) (heap st))
    /\ read_decimal digits = Some (Z.of_nat N)
    /\ sleeps tr = repeat retry_delay (N - 1)
    /\ count_invocations tr = N
    /\ count_warnings tr = N
    /\ last tr = Some (Warning "%s failed (%d/%d): %s" action_name
                         (Z.of_nat N) (Z.of_nat N) err).
Proof.
  intros HN Hsleep Hfail.
  destruct (call_with_retry_reaches func (Z.of_nat N) retry_delay action_name
              N N st eq_refl ltac:(lia) Hsleep)
    as (tr & last_error & Heq & Hi & Hw & Hs).
  { intros j Hj. apply Hfail. lia. }
  pose proof (Hfail N ltac:(lia)) as HlastN.
  assert (Hout : nth_outcome func (exchange st) N =
                 fst (func (after_calls func (N - 1) (exchange st)))).
  { unfold nth_outcome. by replace (pred N) with (N - 1)%nat by lia. }
  assert (Hex : after_calls func N (exchange st) =
                snd (func (after_calls func (N - 1) (exchange st)))).
  { replace N with (S (N - 1)) at 1 by lia. apply after_calls_S. }
  destruct (nth_outcome func (exchange st) N) as [v|err] eqn:HoutN; [discriminate|].
  cbn in HlastN.
  exists ((tr ++ [Invoke]) ++ [Warning "%s failed (%d/%d): %s" action_name
                                 (Z.of_nat N) (Z.of_nat N) err]), err,
    (py_str (Z.of_nat N)).
  split; [reflexivity|]. split; [|split; [apply read_decimal_py_str|]].
  - rewrite Heq, Nat.sub_diag. cbn [seq map]. rewrite retry_attempts_cons.
    cbn zeta. cbn [exchange trace heap]. rewrite <- Hout, HlastN, Z.ltb_irrefl.
    cbn [retry_attempts raise exchange trace heap].
    rewrite Hex, <- !app_assoc. reflexivity.
  - rewrite !sleeps_app, !count_invocations_app, !count_warnings_app, Hs, Hi, Hw.
    rewrite last_snoc. cbn. rewrite !app_nil_r. repeat split; lia.
Qed.

(** C7.  Let the [k]-th invocation of the operation raise an error that is
    neither a network, a timeout nor an exchange error.
    - When [k <= retries], the [k - 1] invocations before it raised caught
      errors and the sleeps between the attempts were accepted,
      [call_with_retry] raises that very error, not the aggregated
      [RuntimeError]: the invocation is the last event of the trace, and the
      warnings and sleeps on record are those of the [k - 1] earlier
      attempts.
    - Whatever the retry delay, whenever the call gets to invoke the
      operation a [k]-th time, it raises that very error and stops there:
      the operation has been invoked [k] times, the [k]-th invocation is the
      last event, so no warning is logged for it, no sleep follows it and
      the operation is not invoked again; the [k - 1] warnings and sleeps on
      record are those of the earlier attempts, which raised caught
      errors. *)
Theorem call_with_retry_propagates {A : Type}
    (func : operation R A) (k N : nat) (retry_delay : Delay)
    (action_name : string) (st : state R Delay) (err : exn) :
  nth_outcome func (exchange st) k = Raise err ->
  transient err = false ->
  ((1 <= k <= N)%nat ->
   k = 1%nat \/ sleep_error retry_delay = None ->
   (forall j, (1 <= j < k)%nat ->
      raises_transient (nth_outcome func (exchange st) j) = true) ->
   exists tr,
     call_with_retry func (Z.of_nat N) retry_delay action_name st =
       (Raise err,
        mkState (after_calls func k (exchange st)) (trace st ++ tr ++ [Invoke])
          (heap st))
     /\ count_invocations tr = (k - 1)%nat
     /\ count_warnings tr = (k - 1)%nat
     /\ sleeps tr = repeat retry_delay (k - 1))
  /\ (forall tr,
        trace (call_with_retry func (Z.of_nat N) retry_delay action_name st).2
          = trace st ++ tr ->
        (1 <= k <= count_invocations tr)%nat ->
        call_with_retry func (Z.of_nat N) retry_delay action_name st =
          (Raise err,
           mkState (after_calls func k (exchange st)) (trace st ++ tr) (heap st))
        /\ count_invocations tr = k
        /\ last tr = Some Invoke
        /\ count_warnings tr = (k - 1)%nat
        /\ sleeps tr = repeat retry_delay (k - 1)
        /\ (forall j, (1 <= j < k)%nat ->
              raises_transient (nth_outcome func (exchange st) j) = true)).
Proof.
  intros Hraise Hnt. split.
  - intros Hk Hsleep Hfail.
    destruct (call_with_retry_settles func (Z.of_nat N) retry_delay action_name
                k N st eq_refl Hk Hsleep Hfail)
      as (tr & Heq & Hcounts); [by rewrite Hraise|].
    exists tr. by rewrite Heq, Hraise.
  - intros tr Htr Hk. rewrite <- Hraise.
    apply call_with_retry_stops_at; [done|done|by rewrite Hraise].
Qed.

(** ** Running the monad *)

Lemma mbind_Return {A B : Type} (m : M R Delay A) (k : A -> M R Delay B)
    (st st' : state R Delay) (a : A) :
  m st = (Return a, st') -> (m ≫= k) st = k a st'.
Proof. intros Hm. unfold mbind, M_bind. by rewrite Hm. Qed.

Lemma mbind_Raise {A B : Type} (m : M R Delay A) (k : A -> M R Delay B)
    (st st' : state R Delay) (e : exn) :
  m st = (Raise e, st') -> (m ≫= k) st = (Raise e, st').
Proof. intros Hm. unfold mbind, M_bind. by rewrite Hm. Qed.
(** ** Spreads *)

Lemma get_column_app_l cols extra col vals :
  get_column cols col = Some vals -> get_column (cols ++ extra) col = Some vals.
Proof.
  induction cols as [|[c old] cols IH]; [done|]. cbn.
  case_decide; [done|]. apply IH.
Qed.

Lemma get_column_is_Some cols col :
  col ∈ cols.*1 -> is_Some (get_column cols col).
Proof.
  induction cols as [|[c old] cols IH]; cbn.
  - intros Hin. by apply elem_of_nil in Hin.
  - intros Hin. case_decide; [eauto|].
    apply elem_of_cons in Hin as [->|Hin]; [done|]. by apply IH.
Qed.

Lemma set_column_fresh cols col vals :
  col ∉ cols.*1 -> set_column cols col vals = cols ++ [(col, vals)].
Proof.
  induction cols as [|[c old] cols IH]; [done|]. cbn. intros Hnotin.
  apply not_elem_of_cons in Hnotin as [Hne Hnotin].
  case_decide; [congruence|]. by rewrite IH.
Qed.

Lemma df_getitem_run (st : state R Delay) price_df df col vals :
  heap st !! price_df = Some df ->
  get_column (df_columns df) col = Some vals ->
  df_getitem price_df col st = (Return vals, st).
Proof.
  intros Hdf Hcol. unfold df_getitem.
  erewrite mbind_Return by (unfold load; by rewrite Hdf).
  by rewrite Hcol.
Qed.

Lemma df_setitem_run (st : state R Delay) price_df df col vals :
  heap st !! price_df = Some df ->
  df_setitem price_df col vals st =
    (Return tt,
     mkState (exchange st) (trace st)
       (<[price_df := mkFrame (df_index df) (set_column (df_columns df) col vals)]>
          (heap st))).
Proof.
  intros Hdf. unfold df_setitem.
  erewrite mbind_Return by (unfold load; by rewrite Hdf). reflexivity.
Qed.

(** One [price_df[col]] read, or one [price_df[col] = ...] write, of a
    frame that [Hheap] finds in the store. *)
Ltac read_column Hheap :=
  erewrite mbind_Return
    by (eapply df_getitem_run;
        [apply Hheap | repeat apply get_column_app_l; eassumption]).

Ltac write_column Hheap :=
  erewrite mbind_Return by (eapply df_setitem_run; apply Hheap).

(** The three assignments of [add_spreads] on a frame that has the three
    price columns and none of the spread columns yet. *)
Lemma add_spreads_run (st : state R Delay) price_df df xau xaut paxg :
  heap st !! price_df = Some df ->
  get_column (df_columns df) "XAU" = Some xau ->
  get_column (df_columns df) "XAUT" = Some xaut ->
  get_column (df_columns df) "PAXG" = Some paxg ->
  "XAU_minus_XAUT" ∉ (df_columns df).*1 ->
  "XAU_minus_PAXG" ∉ (df_columns df).*1 ->
  "PAXG_minus_XAUT" ∉ (df_columns df).*1 ->
  add_spreads price_df st =
    (Return price_df,
     mkState (exchange st) (trace st)
       (<[price_df :=
            mkFrame (df_index df)
              (df_columns df ++
                 [("XAU_minus_XAUT", series_sub xau xaut);
                  ("XAU_minus_PAXG", series_sub xau paxg);
                  ("PAXG_minus_XAUT", series_sub paxg xaut)])]> (heap st))).
Proof.
  intros Hdf Hxau Hxaut Hpaxg Hn1 Hn2 Hn3. unfold add_spreads.
  read_column Hdf. read_column Hdf. write_column Hdf.
  rewrite set_column_fresh by done.
  set (df1 := mkFrame (df_index df)
                (df_columns df ++ [("XAU_minus_XAUT", series_sub xau xaut)])).
  assert (Hdf1 : forall h : gmap loc DataFrame,
             <[price_df := df1]> h !! price_df = Some df1)
    by (intros; apply lookup_insert_eq).
  read_column Hdf1. read_column Hdf1. write_column Hdf1.
  cbn [exchange trace heap]. rewrite insert_insert_eq.
  unfold df1 at 1 2. cbn [df_index df_columns].
  rewrite set_column_fresh.
  2: { rewrite fmap_app, elem_of_app. cbn. rewrite list_elem_of_singleton.
       intros [?|?]; done. }
  set (df2 := mkFrame (df_index df) _).
  assert (Hdf2 : forall h : gmap loc DataFrame,
             <[price_df := df2]> h !! price_df = Some df2)
    by (intros; apply lookup_insert_eq).
  read_column Hdf2. read_column Hdf2. write_column Hdf2.
  cbn [exchange trace heap]. rewrite insert_insert_eq.
  unfold df2. cbn [df_index df_columns].
  rewrite set_column_fresh.
  2: { rewrite !fmap_app, !elem_of_app. cbn. rewrite !list_elem_of_singleton.
       intros [[?|?]|?]; done. }
  rewrite <- !app_assoc. reflexivity.
Qed.

(** What a frame with the columns XAU, XAUT and PAXG, in any order, gives
    to [add_spreads]. *)
Lemma price_columns_present (df : DataFrame) :
  (df_columns df).*1 ≡ₚ ["XAU"; "XAUT"; "PAXG"] ->
  (exists xau xaut paxg,
     get_column (df_columns df) "XAU" = Some xau
     /\ get_column (df_columns df) "XAUT" = Some xaut
     /\ get_column (df_columns df) "PAXG" = Some paxg)
  /\ ("XAU_minus_XAUT" ∉ (df_columns df).*1)
  /\ ("XAU_minus_PAXG" ∉ (df_columns df).*1)
  /\ ("PAXG_minus_XAUT" ∉ (df_columns df).*1).
Proof.
  intros Hperm.
  assert (Hin : forall col, col ∈ ["XAU"; "XAUT"; "PAXG"] ->
                  is_Some (get_column (df_columns df) col)).
  { intros col Hcol. apply get_column_is_Some. by rewrite Hperm. }
  destruct (Hin "XAU") as [xau Hxau]; [set_solver|].
  destruct (Hin "XAUT") as [xaut Hxaut]; [set_solver|].
  destruct (Hin "PAXG") as [paxg Hpaxg]; [set_solver|].
  split; [by exists xau, xaut, paxg|].
  rewrite Hperm. repeat split; intros Hbad;
    repeat (apply elem_of_cons in Hbad as [Hbad|Hbad]; [discriminate|]);
    by apply elem_of_nil in Hbad.
Qed.

Lemma get_column_elem_of cols col vals :
  NoDup cols.*1 -> (col, vals) ∈ cols -> get_column cols col = Some vals.
Proof.
  induction cols as [|[c old] cols IH]; cbn.
  - intros _ Hin. by apply elem_of_nil in Hin.
  - intros [Hnotin Hnd]%NoDup_cons Hin. case_decide as Hc.
    + apply elem_of_cons in Hin as [[= _ ->]|Hin]; [done|].
      destruct Hnotin. subst c. by apply (list_elem_of_fmap_2 fst) in Hin.
    + apply elem_of_cons in Hin as [[= -> _]|Hin]; [done|]. by apply IH.
Qed.

(** C4.  Let a table have the columns XAU, XAUT and PAXG, holding the
    values [xau], [xaut] and [paxg], one per row.  [add_spreads] appends
    three columns, named XAU_minus_XAUT, XAU_minus_PAXG and PAXG_minus_XAUT
    in this order, after the columns the table had.  Each has one value per
    row: at row [i], the floating-point difference of the values that the
    two price columns it is named after hold at row [i].  A row with
    XAU = 100, XAUT = 99 and PAXG = 101 gets 1, -1 and 2. *)
Theorem add_spreads_appends (st : state R Delay) (price_df : loc)
    (df : DataFrame) (xau xaut paxg : list float) :
  heap st !! price_df = Some df ->
  (df_columns df).*1 ≡ₚ ["XAU"; "XAUT"; "PAXG"] ->
  Forall (fun col => length col.2 = length (df_index df)) (df_columns df) ->
  ("XAU", xau) ∈ df_columns df ->
  ("XAUT", xaut) ∈ df_columns df ->
  ("PAXG", paxg) ∈ df_columns df ->
  exists d1 d2 d3,
    add_spreads price_df st =
      (Return price_df,
       mkState (exchange st) (trace st)
         (<[price_df :=
              mkFrame (df_index df)
                (df_columns df ++
                   [("XAU_minus_XAUT", d1); ("XAU_minus_PAXG", d2);
                    ("PAXG_minus_XAUT", d3)])]> (heap st)))
    /\ (forall i, (i < length (df_index df))%nat ->
          exists x t p,
            xau !! i = Some x /\ xaut !! i = Some t /\ paxg !! i = Some p
            /\ d1 !! i = Some (x - t)%float
            /\ d2 !! i = Some (x - p)%float
            /\ d3 !! i = Some (p - t)%float)
    /\ length d1 = length (df_index df)
    /\ length d2 = length (df_index df)
    /\ length d3 = length (df_index df)
    /\ (forall i,
          xau !! i = Some 100%float -> xaut !! i = Some 99%float ->
          paxg !! i = Some 101%float ->
          d1 !! i = Some 1%float /\ d2 !! i = Some (-1)%float
          /\ d3 !! i = Some 2%float).
Proof.
  intros Hdf Hperm Hlen Hxau_in Hxaut_in Hpaxg_in.
  destruct (price_columns_present df Hperm) as (_ & Hn1 & Hn2 & Hn3).
  assert (Hnd : NoDup (df_columns df).*1).
  { rewrite Hperm. repeat constructor; rewrite ?not_elem_of_cons;
      repeat split; try done; apply not_elem_of_nil. }
  pose proof (get_column_elem_of _ _ _ Hnd Hxau_in) as Hxau.
  pose proof (get_column_elem_of _ _ _ Hnd Hxaut_in) as Hxaut.
  pose proof (get_column_elem_of _ _ _ Hnd Hpaxg_in) as Hpaxg.
  assert (Hcol : forall col vals,
             (col, vals) ∈ df_columns df -> length vals = length (df_index df)).
  { intros col vals Hin. rewrite Forall_forall in Hlen. apply (Hlen _ Hin). }
  pose proof (Hcol _ _ Hxau_in) as Lx. pose proof (Hcol _ _ Hxaut_in) as Lt.
  pose proof (Hcol _ _ Hpaxg_in) as Lp.
  exists (series_sub xau xaut), (series_sub xau paxg), (series_sub paxg xaut).
  split; [by apply add_spreads_run|].
  unfold series_sub. split; [|split; [|split; [|split]]].
  - intros i Hi.
    destruct (lookup_lt_is_Some_2 xau i) as [x Hx]; [lia|].
    destruct (lookup_lt_is_Some_2 xaut i) as [t Ht]; [lia|].
    destruct (lookup_lt_is_Some_2 paxg i) as [p' Hp]; [lia|].
    exists x, t, p'. rewrite !lookup_zip_with, Hx, Ht, Hp. done.
  - rewrite length_zip_with. lia.
  - rewrite length_zip_with. lia.
  - rewrite length_zip_with. lia.
  - intros i Hx Ht Hp. rewrite !lookup_zip_with, Hx, Ht, Hp. done.
Qed.

(** C9, as the code has it.  [add_spreads] leaves the row index and the
    columns XAU, XAUT and PAXG as they were and only appends the three spread
    columns; no other frame of the store is touched.  The table it returns
    is not a new one: it is the argument itself, updated in place. *)
Theorem add_spreads_in_place (st : state R Delay) (price_df : loc)
    (df : DataFrame) :
  heap st !! price_df = Some df ->
  (df_columns df).*1 ≡ₚ ["XAU"; "XAUT"; "PAXG"] ->
  exists (st' : state R Delay) df' spreads,
    add_spreads price_df st = (Return price_df, st')
    /\ heap st' = <[price_df := df']> (heap st)
    /\ exchange st' = exchange st /\ trace st' = trace st
    /\ df_index df' = df_index df
    /\ df_columns df' = df_columns df ++ spreads
    /\ spreads.*1 = ["XAU_minus_XAUT"; "XAU_minus_PAXG"; "PAXG_minus_XAUT"]
    /\ (forall col, col ∈ ["XAU"; "XAUT"; "PAXG"] ->
          get_column (df_columns df') col = get_column (df_columns df) col)
    /\ (forall r, r ≠ price_df -> heap st' !! r = heap st !! r).
Proof.
  intros Hdf Hperm.
  destruct (price_columns_present df Hperm)
    as ((xau & xaut & paxg & Hxau & Hxaut & Hpaxg) & Hn1 & Hn2 & Hn3).
  eexists _, _, _. split; [by apply add_spreads_run|].
  cbn [heap exchange trace df_index df_columns].
  split; [reflexivity|]. do 4 (split; [reflexivity|]). split; [reflexivity|].
  split.
  - intros col Hcol.
    destruct (get_column_is_Some (df_columns df) col) as [vals Hvals];
      [by rewrite Hperm|].
    rewrite Hvals. by apply get_column_app_l.
  - intros r Hr. by apply lookup_insert_ne.
Qed.

(** ** The inner join *)

Lemma filter_all {A : Type} (P : A -> Prop) `{forall x, Decision (P x)}
    (l : list A) :
  (forall x, x ∈ l -> P x) -> filter P l = l.
Proof.
  induction l as [|x l IH]; intros Hall; [done|].
  rewrite filter_cons_True by (apply Hall; left).
  f_equal. apply IH. intros y Hy. apply Hall. by right.
Qed.

Lemma elem_of_unique idx t : t ∈ unique idx <-> t ∈ idx.
Proof.
  induction idx as [|u idx IH]; cbn [unique]; [done|].
  rewrite !elem_of_cons, list_elem_of_filter, IH.
  destruct (decide (t = u)); tauto.
Qed.

Lemma unique_NoDup idx : NoDup idx -> unique idx = idx.
Proof.
  induction 1 as [|u idx Hnotin _ IH]; cbn [unique]; [done|].
  rewrite IH. f_equal. apply filter_all. intros t Ht ->. by apply Hnotin.
Qed.

Lemma increasing_NoDup idx : StronglySorted Z.lt idx -> NoDup idx.
Proof.
  induction 1 as [|u idx _ IH Hlt]; constructor; [|done].
  intros Hin. rewrite Forall_forall in Hlt. specialize (Hlt _ Hin). lia.
Qed.

Lemma increasing_filter (P : Z -> Prop) `{forall t, Decision (P t)} idx :
  StronglySorted Z.lt idx -> StronglySorted Z.lt (filter P idx).
Proof.
  induction 1 as [|u idx _ IH Hlt]; [constructor|].
  assert (Forall (Z.lt u) (filter P idx)).
  { rewrite Forall_forall in Hlt |- *. intros t Ht.
    apply list_elem_of_filter in Ht as [_ Ht]. by apply Hlt. }
  rewrite filter_cons. case_decide; [by constructor|done].
Qed.

Lemma elem_of_index_intersection idx other t :
  t ∈ index_intersection idx other <-> t ∈ idx /\ t ∈ other.
Proof.
  unfold index_intersection. rewrite list_elem_of_filter, elem_of_unique. tauto.
Qed.

Lemma increasing_index_intersection idx other :
  StronglySorted Z.lt idx -> StronglySorted Z.lt (index_intersection idx other).
Proof.
  intros Hs. unfold index_intersection.
  rewrite unique_NoDup by by apply increasing_NoDup.
  by apply increasing_filter.
Qed.

Lemma elem_of_foldl_intersection others : forall idx t,
  t ∈ foldl index_intersection idx others
  <-> t ∈ idx /\ (forall other, other ∈ others -> t ∈ other).
Proof.
  induction others as [|o others IH]; intros idx t; cbn [foldl].
  - split; [intros Ht; split; [done|]|tauto].
    intros other Hother. by apply elem_of_nil in Hother.
  - rewrite IH, elem_of_index_intersection. split.
    + intros [[Hidx Ho] Hothers]. split; [done|].
      intros other [->|Hother]%elem_of_cons; auto.
    + intros [Hidx Hothers]. split; [split; [done|]|].
      * apply Hothers. left.
      * intros other Hother. apply Hothers. by right.
Qed.

Lemma increasing_foldl_intersection others : forall idx,
  StronglySorted Z.lt idx ->
  StronglySorted Z.lt (foldl index_intersection idx others).
Proof.
  induction others as [|o others IH]; intros idx Hs; cbn [foldl]; [done|].
  by apply IH, increasing_index_intersection.
Qed.

Lemma combined_index_foldl idx others :
  others ≠ [] ->
  combined_index (idx :: others) = foldl index_intersection idx others.
Proof. by destruct others. Qed.

(** A label is in the joined index exactly when every index has it. *)
Lemma elem_of_combined_index indexes t :
  indexes ≠ [] ->
  t ∈ combined_index indexes <-> (forall idx, idx ∈ indexes -> t ∈ idx).
Proof.
  destruct indexes as [|idx others]; [done|]. intros _.
  assert (Hcons : (forall i, i ∈ idx :: others -> t ∈ i)
                  <-> t ∈ idx /\ (forall other, other ∈ others -> t ∈ other)).
  { split.
    - intros Hall. split; [apply Hall; left|].
      intros other Hother. apply Hall. by right.
    - intros [Hidx Hothers] i [->|Hi]%elem_of_cons; auto. }
  rewrite Hcons. destruct others as [|o others].
  - cbn. split; [intros Ht; split; [done|]|tauto].
    intros other Hother. by apply elem_of_nil in Hother.
  - rewrite combined_index_foldl by done. apply elem_of_foldl_intersection.
Qed.

Lemma increasing_combined_index indexes :
  Forall (StronglySorted Z.lt) indexes ->
  StronglySorted Z.lt (combined_index indexes).
Proof.
  intros Hall. destruct Hall as [|idx others Hidx Hothers]; [constructor|].
  destruct others as [|o others]; [done|].
  rewrite combined_index_foldl by done. by apply increasing_foldl_intersection.
Qed.

Lemma reindex_all_names series_list new_index cols :
  reindex_all series_list new_index = Return cols ->
  cols.*1 = s_name <$> series_list.
Proof.
  revert cols. induction series_list as [|s rest IH]; intros cols; cbn.
  - by intros [= <-].
  - destruct (reindex s new_index); [|done].
    destruct (reindex_all rest new_index) as [cols'|]; [|done].
    intros [= <-]. cbn. f_equal. by apply IH.
Qed.

Lemma reindex_all_NoDup series_list new_index :
  Forall (fun s => NoDup (s_index s)) series_list ->
  exists cols, reindex_all series_list new_index = Return cols.
Proof.
  induction 1 as [|s rest Hs _ [cols IH]]; cbn; [by eexists|].
  unfold reindex. rewrite IH. case_decide; [by eexists|].
  rewrite decide_True by done. by eexists.
Qed.

Lemma reindex_all_ValueError series_list new_index e :
  reindex_all series_list new_index = Raise e -> exists msg, e = ValueError msg.
Proof.
  induction series_list as [|s rest IH]; cbn; [done|].
  unfold reindex. repeat case_decide.
  - destruct (reindex_all rest new_index); [done|]. intros [= <-]. by apply IH.
  - destruct (reindex_all rest new_index); [done|]. intros [= <-]. by apply IH.
  - intros [= <-]. by eexists.
Qed.


Lemma unique_sublist idx : unique idx `sublist_of` idx.
Proof.
  induction idx as [|t idx IH]; cbn [unique]; [done|].
  apply sublist_skip. etransitivity; [apply sublist_filter|exact IH].
Qed.

Lemma foldl_intersection_sublist others : forall idx,
  foldl index_intersection idx others `sublist_of` idx.
Proof.
  induction others as [|o others IH]; intros idx; cbn [foldl]; [done|].
  etransitivity; [apply IH|]. unfold index_intersection.
  etransitivity; [apply sublist_filter|apply unique_sublist].
Qed.

(** The joined index lists labels of the first index, in the order the
    first index has them. *)
Lemma combined_index_sublist idx others :
  combined_index (idx :: others) `sublist_of` idx.
Proof.
  destruct others as [|o others]; [done|].
  rewrite combined_index_foldl by done. apply foldl_intersection_sublist.
Qed.

Lemma foldl_intersection_filter others : forall idx,
  NoDup idx ->
  foldl index_intersection idx others
  = filter (fun t => Forall (fun other => t ∈ other) others) idx.
Proof.
  induction others as [|o others IH]; intros idx Hnd; cbn [foldl].
  - symmetry. apply filter_all. intros t _. constructor.
  - unfold index_intersection. rewrite unique_NoDup by done.
    rewrite IH by by apply NoDup_filter.
    rewrite list_filter_filter. apply list_filter_iff. intros t.
    rewrite Forall_cons. tauto.
Qed.

(** When the first index has no repeated label, the joined index is the
    first index without the labels that some other index lacks. *)
Lemma combined_index_filter idx others :
  NoDup idx ->
  combined_index (idx :: others)
  = filter (fun t => Forall (fun other => t ∈ other) others) idx.
Proof.
  intros Hnd. destruct others as [|o others].
  - symmetry. apply filter_all. intros t _. constructor.
  - rewrite combined_index_foldl by done. by apply foldl_intersection_filter.
Qed.

Lemma increasing_combined_index_first idx others :
  StronglySorted Z.lt idx -> StronglySorted Z.lt (combined_index (idx :: others)).
Proof.
  intros Hs. destruct others as [|o others]; [done|].
  rewrite combined_index_foldl by done. by apply increasing_foldl_intersection.
Qed.

(** ** Fetching and aligning *)

Section Prices.

Variable fetch_ohlcv : string -> string -> Z -> operation R (list candle).

(** [fetch_close_series] after its retried fetch. *)
Lemma fetch_close_series_run symbol timeframe limit retries retry_delay
    (st st' : state R Delay) (r : result (list candle)) :
  call_with_retry (fetch_ohlcv symbol timeframe limit) retries retry_delay
    ("fetch_ohlcv(" +:+ symbol +:+ ")") st = (r, st') ->
  fetch_close_series fetch_ohlcv symbol timeframe limit retries retry_delay st =
    match r with
    | Raise e => (Raise e, st')
    | Return [] =>
        (Raise (ValueError ("No OHLCV data returned for " +:+ symbol)), st')
    | Return ohlcv =>
        match to_datetime_all (timestamp <$> ohlcv) with
        | Return index => (Return (mkSeries "close" index (c_close <$> ohlcv)), st')
        | Raise e => (Raise e, st')
        end
    end.
Proof.
  intros Hcall. unfold fetch_close_series, mbind, M_bind. rewrite Hcall.
  destruct r as [[|c ohlcv]|e]; [done| |done].
  unfold lift. by destruct (to_datetime_all _).
Qed.

(** [fetch_close_series] leaves the state where its retried fetch left
    it. *)
Lemma fetch_close_series_state symbol timeframe limit retries retry_delay
    (st : state R Delay) :
  (fetch_close_series fetch_ohlcv symbol timeframe limit retries retry_delay st).2 =
  (call_with_retry (fetch_ohlcv symbol timeframe limit) retries retry_delay
     ("fetch_ohlcv(" +:+ symbol +:+ ")") st).2.
Proof.
  destruct (call_with_retry (fetch_ohlcv symbol timeframe limit) retries
              retry_delay ("fetch_ohlcv(" +:+ symbol +:+ ")") st)
    as [r st1] eqn:Hcall.
  rewrite (fetch_close_series_run _ _ _ _ _ _ _ _ Hcall).
  destruct r as [[|c ohlcv]|e]; [done| |done].
  by destruct (to_datetime_all _).
Qed.

Lemma fetch_close_series_Return symbol timeframe limit retries retry_delay
    (st st' : state R Delay) (s : Series) :
  fetch_close_series fetch_ohlcv symbol timeframe limit retries retry_delay st =
    (Return s, st') ->
  exists ohlcv,
    ohlcv ≠ []
    /\ call_with_retry (fetch_ohlcv symbol timeframe limit) retries retry_delay
         ("fetch_ohlcv(" +:+ symbol +:+ ")") st = (Return ohlcv, st')
    /\ s = mkSeries "close" (timestamp <$> ohlcv) (c_close <$> ohlcv).
Proof.
  destruct (call_with_retry (fetch_ohlcv symbol timeframe limit) retries
              retry_delay ("fetch_ohlcv(" +:+ symbol +:+ ")") st)
    as [r st1] eqn:Hcall.
  rewrite (fetch_close_series_run _ _ _ _ _ _ _ _ Hcall).
  destruct r as [[|c ohlcv]|e]; [done| |done].
  destruct (to_datetime_all _) as [index|] eqn:Hindex; intros [= <- <-].
  apply to_datetime_all_Return in Hindex as ->. by exists (c :: ohlcv).
Qed.

(** The loop of [build_price_df] extends the list it was given with one
    series per entry of the symbol table, named by the alias and never
    empty. *)
Lemma collect_series_Return timeframe limit retries retry_delay symbols :
  forall acc (st st' : state R Delay) series_list,
    collect_series fetch_ohlcv symbols timeframe limit retries retry_delay acc st
      = (Return series_list, st') ->
    exists fetched,
      series_list = acc ++ fetched
      /\ s_name <$> fetched = symbols.*1
      /\ Forall (fun s => s_index s ≠ []) fetched.
Proof.
  induction symbols as [|[alias symbol] rest IH]; intros acc st st' series_list.
  - intros [= <- <-]. exists []. by rewrite app_nil_r.
  - cbn [collect_series]. unfold mbind at 1, M_bind at 1.
    destruct (fetch_close_series fetch_ohlcv symbol timeframe limit retries
                retry_delay st) as [[s|e] st1] eqn:Hfetch; [|done].
    intros Hrest. apply IH in Hrest as (fetched & -> & Hnames & Hne).
    apply fetch_close_series_Return in Hfetch as (ohlcv & Hohlcv & _ & ->).
    exists (mkSeries alias (timestamp <$> ohlcv) (c_close <$> ohlcv) :: fetched).
    split; [by rewrite <- app_assoc|]. split; [cbn; by rewrite Hnames|].
    constructor; [|done]. cbn. by destruct ohlcv.
Qed.

(** [build_price_df] after its loop. *)
Lemma build_price_df_run symbols timeframe limit retries retry_delay
    (st st1 : state R Delay) series_list :
  collect_series fetch_ohlcv symbols timeframe limit retries retry_delay [] st
    = (Return series_list, st1) ->
  build_price_df fetch_ohlcv symbols timeframe limit retries retry_delay st =
    match pd_concat series_list with
    | Raise e => (Raise e, st1)
    | Return df =>
        let st2 := mkState (exchange st1) (trace st1)
                     (<[fresh (dom (heap st1)) := df]> (heap st1)) in
        if df_empty df then
          (Raise (ValueError
                    "Joined price dataframe is empty. Check symbols/timeframe/limit."),
           st2)
        else (Return (fresh (dom (heap st1))), st2)
    end.
Proof.
  intros Hloop. unfold build_price_df.
  erewrite mbind_Return by exact Hloop.
  unfold mbind, M_bind, lift, alloc.
  destruct (pd_concat series_list) as [df|e]; [|done].
  by destruct (df_empty df).
Qed.

Lemma df_empty_false df :
  df_index df ≠ [] -> df_columns df ≠ [] -> df_empty df = false.
Proof. unfold df_empty. by destruct (df_index df), (df_columns df). Qed.

Lemma df_empty_rows df : df_index df = [] -> df_empty df = true.
Proof. unfold df_empty. by intros ->. Qed.

Lemma df_empty_false_inv df :
  df_empty df = false -> df_index df ≠ [] /\ df_columns df ≠ [].
Proof. unfold df_empty. by destruct (df_index df), (df_columns df). Qed.

Lemma pd_concat_Return series_list df :
  pd_concat series_list = Return df ->
  series_list ≠ []
  /\ df_index df = combined_index (s_index <$> series_list)
  /\ (df_columns df).*1 = s_name <$> series_list.
Proof.
  unfold pd_concat. destruct series_list as [|s rest]; [done|].
  destruct (reindex_all (s :: rest) _) as [cols|] eqn:Hcols; [|done].
  intros [= <-]. split; [done|]. split; [done|].
  by apply reindex_all_names in Hcols.
Qed.

Lemma pd_concat_ValueError series_list e :
  pd_concat series_list = Raise e -> exists msg, e = ValueError msg.
Proof.
  unfold pd_concat. destruct series_list as [|s rest].
  - intros [= <-]. by eexists.
  - destruct (reindex_all (s :: rest) _) as [cols|e'] eqn:Hcols; [done|].
    intros [= <-]. by eapply reindex_all_ValueError.
Qed.

(** What a table that [build_price_df] returns comes from. *)
Lemma build_price_df_Return symbols timeframe limit retries retry_delay
    (st st' : state R Delay) r :
  build_price_df fetch_ohlcv symbols timeframe limit retries retry_delay st
    = (Return r, st') ->
  exists series_list st1 df,
    collect_series fetch_ohlcv symbols timeframe limit retries retry_delay [] st
      = (Return series_list, st1)
    /\ pd_concat series_list = Return df
    /\ df_empty df = false
    /\ r = fresh (dom (heap st1))
    /\ st' = mkState (exchange st1) (trace st1) (<[r := df]> (heap st1)).
Proof.
  intros Hbuild.
  destruct (collect_series fetch_ohlcv symbols timeframe limit retries
              retry_delay [] st) as [[series_list|e] st1] eqn:Hloop.
  - rewrite (build_price_df_run _ _ _ _ _ _ _ _ Hloop) in Hbuild.
    destruct (pd_concat series_list) as [df|e] eqn:Hconcat; [|done].
    cbn zeta in Hbuild. destruct (df_empty df) eqn:Hempty; [done|].
    injection Hbuild as <- <-. by exists series_list, st1, df.
  - unfold build_price_df in Hbuild.
    by erewrite mbind_Raise in Hbuild by exact Hloop.
Qed.

(** A label is a row of the join exactly when every series has it. *)
Lemma elem_of_joined_index series_list t :
  series_list ≠ [] ->
  t ∈ combined_index (s_index <$> series_list)
  <-> (forall s, s ∈ series_list -> t ∈ s_index s).
Proof.
  intros Hne. rewrite elem_of_combined_index by by destruct series_list.
  split.
  - intros Hall s Hs. apply Hall. by apply list_elem_of_fmap_2.
  - intros Hall idx (s & -> & Hs)%list_elem_of_fmap. by apply Hall.
Qed.


(** C5.  Empty data does not get through.
    - When the [k]-th invocation of the fetch returns no candle, after
      [k - 1] invocations that failed with caught errors and sleeps that
      were accepted, [fetch_close_series] raises a [ValueError] naming the
      symbol, and that invocation is the last.
    - Whatever the retry delay, whenever [fetch_close_series] gets to invoke
      the fetch a [k]-th time and that invocation returns no candle, it
      raises the [ValueError] naming the symbol; the fetch has been invoked
      [k] times and that invocation is the last event: the fetch is not
      tried again.
    - When the join of the fetched series has no row, [build_price_df]
      raises a [ValueError], with the exchange and the trace as the fetches
      left them.
    - When the fetched series share no timestamp, [build_price_df] raises a
      [ValueError].
    - A series that [fetch_close_series] returns has an entry, and a table
      that [build_price_df] returns has a row and a column. *)
Theorem empty_data_raises :
  (forall symbol timeframe limit (k N : nat) retry_delay (st : state R Delay),
     (1 <= k <= N)%nat ->
     k = 1%nat \/ sleep_error retry_delay = None ->
     (forall j, (1 <= j < k)%nat ->
        raises_transient
          (nth_outcome (fetch_ohlcv symbol timeframe limit) (exchange st) j) = true) ->
     nth_outcome (fetch_ohlcv symbol timeframe limit) (exchange st) k = Return [] ->
     exists tr,
       fetch_close_series fetch_ohlcv symbol timeframe limit (Z.of_nat N)
         retry_delay st =
         (Raise (ValueError ("No OHLCV data returned for " +:+ symbol)),
          mkState (after_calls (fetch_ohlcv symbol timeframe limit) k (exchange st))
            (trace st ++ tr ++ [Invoke]) (heap st))
       /\ count_invocations tr = (k - 1)%nat)
  /\ (forall symbol timeframe limit retries retry_delay (st : state R Delay)
        (k : nat) tr,
        trace (fetch_close_series fetch_ohlcv symbol timeframe limit retries
                 retry_delay st).2 = trace st ++ tr ->
        (1 <= k <= count_invocations tr)%nat ->
        nth_outcome (fetch_ohlcv symbol timeframe limit) (exchange st) k = Return [] ->
        fetch_close_series fetch_ohlcv symbol timeframe limit retries retry_delay st =
          (Raise (ValueError ("No OHLCV data returned for " +:+ symbol)),
           mkState (after_calls (fetch_ohlcv symbol timeframe limit) k (exchange st))
             (trace st ++ tr) (heap st))
        /\ count_invocations tr = k
        /\ last tr = Some Invoke)
  /\ (forall symbols timeframe limit retries retry_delay (st st1 : state R Delay)
        series_list df,
        collect_series fetch_ohlcv symbols timeframe limit retries retry_delay [] st
          = (Return series_list, st1) ->
        pd_concat series_list = Return df ->
        df_index df = [] ->
        exists st2,
          build_price_df fetch_ohlcv symbols timeframe limit retries retry_delay st
            = (Raise (ValueError
                        "Joined price dataframe is empty. Check symbols/timeframe/limit."),
               st2)
          /\ exchange st2 = exchange st1 /\ trace st2 = trace st1)
  /\ (forall symbols timeframe limit retries retry_delay (st st1 : state R Delay)
        series_list,
        collect_series fetch_ohlcv symbols timeframe limit retries retry_delay [] st
          = (Return series_list, st1) ->
        ~ (exists t, forall s, s ∈ series_list -> t ∈ s_index s) ->
        exists msg st2,
          build_price_df fetch_ohlcv symbols timeframe limit retries retry_delay st
            = (Raise (ValueError msg), st2))
  /\ (forall symbol timeframe limit retries retry_delay (st st' : state R Delay) s,
        fetch_close_series fetch_ohlcv symbol timeframe limit retries retry_delay st
          = (Return s, st') ->
        s_index s ≠ [] /\ s_values s ≠ [])
  /\ (forall symbols timeframe limit retries retry_delay (st st' : state R Delay) r,
        build_price_df fetch_ohlcv symbols timeframe limit retries retry_delay st
          = (Return r, st') ->
        exists df, heap st' !! r = Some df /\ df_index df ≠ [] /\ df_columns df ≠ []).
Proof.
  split; [|split; [|split; [|split; [|split]]]].
  - intros symbol timeframe limit k N retry_delay st Hk Hsleep Hfail Hempty.
    destruct (call_with_retry_settles (fetch_ohlcv symbol timeframe limit)
                (Z.of_nat N) retry_delay ("fetch_ohlcv(" +:+ symbol +:+ ")")
                k N st eq_refl Hk Hsleep Hfail)
      as (tr & Hcall & Hi & _); [by rewrite Hempty|].
    exists tr. split; [|done].
    rewrite (fetch_close_series_run _ _ _ _ _ _ _ _ Hcall). by rewrite Hempty.
  - intros symbol timeframe limit retries retry_delay st k tr Htr Hk Hempty.
    rewrite fetch_close_series_state in Htr.
    destruct (call_with_retry_stops_at (fetch_ohlcv symbol timeframe limit)
                retries retry_delay ("fetch_ohlcv(" +:+ symbol +:+ ")") k st tr Htr Hk)
      as (Hcall & Hi & Hlast & _); [by rewrite Hempty|].
    rewrite (fetch_close_series_run _ _ _ _ _ _ _ _ Hcall). by rewrite Hempty.
  - intros symbols timeframe limit retries retry_delay st st1 series_list df
      Hloop Hconcat Hrows.
    rewrite (build_price_df_run _ _ _ _ _ _ _ _ Hloop), Hconcat.
    cbn zeta. rewrite (df_empty_rows df Hrows). by eexists.
  - intros symbols timeframe limit retries retry_delay st st1 series_list
      Hloop Hdisjoint.
    rewrite (build_price_df_run _ _ _ _ _ _ _ _ Hloop).
    destruct (pd_concat series_list) as [df|e] eqn:Hconcat.
    + apply pd_concat_Return in Hconcat as (Hne & Hidx & _).
      cbn zeta. rewrite df_empty_rows; [by eexists _, _|].
      destruct (df_index df) as [|t idx] eqn:Hrows; [done|].
      destruct Hdisjoint. exists t.
      apply elem_of_joined_index; [done|]. rewrite <- Hidx. left.
    + apply pd_concat_ValueError in Hconcat as [msg ->]. by eexists _, _.
  - intros symbol timeframe limit retries retry_delay st st' s Hfetch.
    apply fetch_close_series_Return in Hfetch as (ohlcv & Hne & _ & ->).
    by destruct ohlcv.
  - intros symbols timeframe limit retries retry_delay st st' r Hbuild.
    apply build_price_df_Return in Hbuild
      as (series_list & st1 & df & _ & _ & Hempty & -> & ->).
    exists df. cbn [heap].
    split; [apply lookup_insert_eq|by apply df_empty_false_inv].
Qed.

(** C3, as the code has it.  Let the loop of [build_price_df] have fetched
    the series [series_list], one per alias.
    - When there is a series, no series lists a timestamp twice and some
      timestamp is common to all of them, [build_price_df] returns a new
      table.
    - In every table that [build_price_df] returns, a timestamp is a row if
      and only if every series has it; the rows are timestamps of the first
      series in the order the first series lists them (when it lists none
      twice: its timestamps, less those that another series lacks), so they
      are in ascending order when the first series is; there is one column
      per alias; and for series on the timestamps 1 2 3, 2 3 4 and 2 3 the
      rows are 2 and 3.
    - When no timestamp is common to all the series, no table is returned:
      [build_price_df] raises a [ValueError]. *)
Theorem build_price_df_inner_join symbols timeframe limit retries retry_delay
    (st st1 : state R Delay) (series_list : list Series) :
  collect_series fetch_ohlcv symbols timeframe limit retries retry_delay [] st
    = (Return series_list, st1) ->
  (series_list ≠ [] ->
   Forall (fun s => NoDup (s_index s)) series_list ->
   (exists t, forall s, s ∈ series_list -> t ∈ s_index s) ->
   exists r df,
     build_price_df fetch_ohlcv symbols timeframe limit retries retry_delay st
       = (Return r,
          mkState (exchange st1) (trace st1) (<[r := df]> (heap st1)))
     /\ heap st1 !! r = None)
  /\ (forall r st',
        build_price_df fetch_ohlcv symbols timeframe limit retries retry_delay st
          = (Return r, st') ->
        exists first others df,
          series_list = first :: others
          /\ st' = mkState (exchange st1) (trace st1) (<[r := df]> (heap st1))
          /\ heap st1 !! r = None
          /\ (forall t, t ∈ df_index df
                <-> (forall s, s ∈ series_list -> t ∈ s_index s))
          /\ df_index df `sublist_of` s_index first
          /\ (NoDup (s_index first) ->
                df_index df =
                  filter (fun t => Forall (fun s => t ∈ s_index s) others)
                    (s_index first))
          /\ (StronglySorted Z.lt (s_index first) ->
                StronglySorted Z.lt (df_index df))
          /\ (df_columns df).*1 = symbols.*1
          /\ (s_index <$> series_list = [[1; 2; 3]; [2; 3; 4]; [2; 3]]%Z ->
                df_index df = [2; 3]%Z))
  /\ (~ (exists t, forall s, s ∈ series_list -> t ∈ s_index s) ->
      exists msg st2,
        build_price_df fetch_ohlcv symbols timeframe limit retries retry_delay st
          = (Raise (ValueError msg), st2)).
Proof.
  intros Hloop.
  assert (Hnames : s_name <$> series_list = symbols.*1).
  { apply collect_series_Return in Hloop as (fetched & -> & Hnames & _). done. }
  split; [|split].
  - intros Hne Hnodup [t0 Hcommon].
    destruct (reindex_all_NoDup series_list (combined_index (s_index <$> series_list)))
      as [cols Hcols]; [done|].
    assert (Hconcat : pd_concat series_list =
                      Return (mkFrame (combined_index (s_index <$> series_list)) cols)).
    { unfold pd_concat. destruct series_list; [done|]. cbn zeta. by rewrite Hcols. }
    exists (fresh (dom (heap st1))),
      (mkFrame (combined_index (s_index <$> series_list)) cols).
    split; [|apply not_elem_of_dom, is_fresh].
    rewrite (build_price_df_run _ _ _ _ _ _ _ _ Hloop), Hconcat. cbn zeta.
    rewrite df_empty_false; [done| |]; cbn [df_index df_columns].
    + intros Hnil. apply (elem_of_joined_index _ t0 Hne) in Hcommon.
      rewrite Hnil in Hcommon. by apply elem_of_nil in Hcommon.
    + apply reindex_all_names in Hcols. intros ->. by destruct series_list.
  - intros r st' Hbuild.
    apply build_price_df_Return in Hbuild
      as (series_list' & st1' & df & Hloop' & Hconcat & Hempty & -> & ->).
    rewrite Hloop in Hloop'. injection Hloop' as <- <-.
    apply pd_concat_Return in Hconcat as (Hne & Hidx & Hlabels).
    destruct series_list as [|first others]; [done|].
    exists first, others, df.
    split; [done|]. split; [done|]. split; [apply not_elem_of_dom, is_fresh|].
    split; [intros t; rewrite Hidx; by apply elem_of_joined_index|].
    split; [rewrite Hidx; apply combined_index_sublist|].
    split; [|split; [|split]].
    + intros Hnd. rewrite Hidx. cbn [fmap list_fmap].
      rewrite combined_index_filter by done.
      apply list_filter_iff. intros t. by rewrite Forall_fmap.
    + rewrite Hidx. apply increasing_combined_index_first.
    + by rewrite Hlabels.
    + intros Hex. rewrite Hidx, Hex. reflexivity.
  - intros Hdisjoint.
    rewrite (build_price_df_run _ _ _ _ _ _ _ _ Hloop).
    destruct (pd_concat series_list) as [df|e] eqn:Hconcat.
    + apply pd_concat_Return in Hconcat as (Hne & Hidx & _).
      cbn zeta. rewrite df_empty_rows; [by eexists _, _|].
      destruct (df_index df) as [|t idx] eqn:Hrows; [done|].
      destruct Hdisjoint. exists t.
      apply elem_of_joined_index; [done|]. rewrite <- Hidx. left.
    + apply pd_concat_ValueError in Hconcat as [msg ->]. by eexists _, _.
Qed.

End Prices.

(** ** Market validation *)

(** C6.  On a loaded market set, [validate_symbols] raises if and only if
    some identifier of the symbol table is absent from the market set.  The
    error is then a [ValueError] whose message is a fixed sentence followed
    by a list that denotes the absent identifiers, and those only, in the
    order of the table.  When all identifiers are present it returns.  In
    every case the state comes back as it was: nothing is invoked again,
    logged or slept, and no object is modified. *)
Theorem validate_symbols_missing (symbols : list (string * string))
    (st : state R Delay) (keys : gset string) :
  markets (exchange st) = Some keys ->
  let missing := filter (fun symbol => symbol ∉ keys) symbols.*2 in
  ((exists e, (validate_symbols symbols st).1 = Raise e)
     <-> (exists symbol, symbol ∈ symbols.*2 /\ symbol ∉ keys))
  /\ (forall symbol, symbol ∈ missing <-> symbol ∈ symbols.*2 /\ symbol ∉ keys)
  /\ (forall e, (validate_symbols symbols st).1 = Raise e ->
        exists listing,
          e = ValueError ("Symbols not available on Bitget swap market: "
                            +:+ listing)
          /\ read_repr_list listing = Some missing)
  /\ ((forall symbol, symbol ∈ symbols.*2 -> symbol ∈ keys) ->
        (validate_symbols symbols st).1 = Return tt)
  /\ (validate_symbols symbols st).2 = st.
Proof.
  intros Hmk missing.
  assert (Hmem : forall symbol,
             symbol ∈ missing <-> symbol ∈ symbols.*2 /\ symbol ∉ keys).
  { intros symbol. unfold missing. rewrite list_elem_of_filter. tauto. }
  unfold validate_symbols, missing_symbols. rewrite Hmk. fold missing.
  destruct missing as [|absent rest] eqn:Hmissing; cbn [fst snd].
  - assert (Hnone : forall symbol, symbol ∈ symbols.*2 -> symbol ∉ keys -> False).
    { intros symbol Hin Hout. eapply elem_of_nil. apply Hmem. eauto. }
    split; [split|].
    + intros [e He]. discriminate.
    + intros (symbol & Hin & Hout). destruct (Hnone symbol Hin Hout).
    + split; [exact Hmem|]. split; [intros e He; discriminate|]. by split.
  - assert (Habsent : absent ∈ symbols.*2 /\ absent ∉ keys).
    { apply Hmem. left. }
    split; [split|].
    + intros _. by exists absent.
    + intros _. eauto.
    + split; [exact Hmem|]. split.
      { intros e [= <-]. eexists. split; [reflexivity|].
        apply read_repr_list_py_repr_list. }
      split; [|done].
      intros Hall. destruct Habsent as [Hin Hout]. destruct (Hout (Hall _ Hin)).
Qed.

(** ** The retry wrapper without attempts *)

(** C10.  With [retries <= 0] the loop body never runs: the aggregated
    failure is raised at once, with no cause attached, and the state (the
    exchange, the trace of invocations, warnings and sleeps, the frames) is
    exactly what it was. *)
Theorem call_with_retry_no_attempts {A : Type} (func : operation R A)
    (retries : Z) (retry_delay : Delay) (action_name : string)
    (st : state R Delay) :
  (retries <= 0)%Z ->
  call_with_retry func retries retry_delay action_name st =
    (Raise (RuntimeError
              (action_name +:+ " failed after " +:+ py_str retries +:+ " attempts")
              None), st).
Proof.
  intros Hle. unfold call_with_retry, py_range.
  replace (Z.to_nat (retries + 1 - 1)) with 0%nat by lia.
  reflexivity.
Qed.

End Properties.

(** ** The theorems at concrete inputs *)

Lemma call_with_retry_succeeds_on_last_attempt_witness :
  exists tr,
    call_with_retry
      (scripted [Raise (NetworkError "reset"); Raise (RequestTimeout "30000 ms");
                 Return 42%Z] (Return 0%Z))
      (Z.of_nat 3) 2%float "load_markets" (fresh_state None) =
      (Return 42%Z,
       mkState (after_calls
                  (scripted [Raise (NetworkError "reset");
                             Raise (RequestTimeout "30000 ms"); Return 42%Z]
                     (Return 0%Z)) 3 (exchange (fresh_state None)))
         (trace (fresh_state None) ++ tr) (heap (fresh_state None)))
    /\ count_warnings tr = (3 - 1)%nat
    /\ count_invocations tr = 3%nat
    /\ last tr = Some Invoke.
Proof.
  apply call_with_retry_succeeds_on_last_attempt.
  - lia.
  - right. reflexivity.
  - intros k Hk. assert (k = 1 \/ k = 2)%nat as [-> | ->] by lia; reflexivity.
  - reflexivity.
Defined.

(** C1 as stated fails for a retry delay that [time.sleep] refuses.  With
    [retries = 2] and a delay of -1 second, the first invocation raises a
    network error and the second would return 42; the call raises the
    [ValueError] of [time.sleep] after one invocation and one warning, and
    the operation is never invoked a second time. *)
Lemma call_with_retry_negative_delay_no_result :
  let func := scripted [Raise (NetworkError "reset"); Return 42%Z] (Return 0%Z) in
  raises_transient (nth_outcome func (exchange (fresh_state None)) 1) = true
  /\ nth_outcome func (exchange (fresh_state None)) 2 = Return 42%Z
  /\ call_with_retry func 2 (-1)%float "load_markets" (fresh_state None) =
       (Raise (ValueError "sleep length must be non-negative"),
        mkState (mkExchange None 1%nat)
          [Invoke;
           Warning "%s failed (%d/%d): %s" "load_markets" 1 2 (NetworkError "reset")]
          ∅).
Proof.
  split; [reflexivity|]. split; [reflexivity|]. vm_compute. reflexivity.
Qed.

Lemma call_with_retry_exhausted_witness :
  exists tr err digits,
    nth_outcome
      (scripted [Raise (NetworkError "reset"); Raise (ExchangeError "busy")]
         (Return 0%Z)) (exchange (fresh_state None)) 2 = Raise err
    /\ call_with_retry
         (scripted [Raise (NetworkError "reset"); Raise (ExchangeError "busy")]
            (Return 0%Z))
         (Z.of_nat 2) 2%float "load_markets" (fresh_state None) =
         (Raise (RuntimeError
                   ("load_markets" +:+ " failed after " +:+ digits +:+ " attempts")
                   (Some err)),
          mkState (after_calls
                     (scripted [Raise (NetworkError "reset");
                                Raise (ExchangeError "busy")] (Return 0%Z))
                     2 (exchange (fresh_state None)))
            (trace (fresh_state None) ++ tr) (heap (fresh_state None)))
    /\ read_decimal digits = Some (Z.of_nat 2)
    /\ sleeps tr = repeat 2%float (2 - 1)
    /\ count_invocations tr = 2%nat
    /\ count_warnings tr = 2%nat
    /\ last tr = Some (Warning "%s failed (%d/%d): %s" "load_markets"
                         (Z.of_nat 2) (Z.of_nat 2) err).
Proof.
  apply call_with_retry_exhausted.
  - lia.
  - right. reflexivity.
  - intros k Hk. assert (k = 1 \/ k = 2)%nat as [-> | ->] by lia; reflexivity.
Defined.

(** The aggregated failure of two attempts, as it reads. *)
Example call_with_retry_exhausted_message :
  call_with_retry
    (scripted [Raise (NetworkError "reset"); Raise (ExchangeError "busy")]
       (Return 0%Z))
    2 2%float "load_markets" (fresh_state None) =
  (Raise (RuntimeError "load_markets failed after 2 attempts"
            (Some (ExchangeError "busy"))),
   mkState (mkExchange None 2%nat)
     [Invoke;
      Warning "%s failed (%d/%d): %s" "load_markets" 1 2 (NetworkError "reset");
      Sleep 2%float;
      Invoke;
      Warning "%s failed (%d/%d): %s" "load_markets" 2 2 (ExchangeError "busy")]
     ∅).
Proof. vm_compute. reflexivity. Qed.

(** C2 as stated fails for a retry delay that [time.sleep] refuses.  With
    [retries = 2], a delay of -1 second and an operation that raises a
    caught error at each invocation, the call raises the [ValueError] of
    [time.sleep], not the aggregated failure; it has invoked the operation
    once and slept not at all. *)
Lemma call_with_retry_negative_delay_not_aggregated :
  let func :=
    scripted [Raise (NetworkError "reset"); Raise (ExchangeError "busy")]
      (Return 0%Z) in
  (forall k, (1 <= k <= 2)%nat ->
     raises_transient (nth_outcome func (exchange (fresh_state None)) k) = true)
  /\ exists st',
       call_with_retry func 2 (-1)%float "load_markets" (fresh_state None) =
         (Raise (ValueError "sleep length must be non-negative"), st')
       /\ count_invocations (trace st') = 1%nat
       /\ sleeps (trace st') = [].
Proof.
  split.
  - intros k Hk. assert (k = 1 \/ k = 2)%nat as [-> | ->] by lia; reflexivity.
  - eexists. split; [vm_compute; reflexivity|]. split; reflexivity.
Qed.

Lemma call_with_retry_propagates_witness :
  let func :=
    scripted [Raise (NetworkError "reset"); Raise (KeyError "close")] (Return 0%Z) in
  (exists tr,
     call_with_retry func (Z.of_nat 3) 2%float "load_markets" (fresh_state None) =
       (Raise (KeyError "close"),
        mkState (after_calls func 2 (exchange (fresh_state None)))
          (trace (fresh_state None) ++ tr ++ [Invoke]) (heap (fresh_state None)))
     /\ count_invocations tr = (2 - 1)%nat
     /\ count_warnings tr = (2 - 1)%nat
     /\ sleeps tr = repeat 2%float (2 - 1))
  /\ (let tr :=
        [Invoke;
         Warning "%s failed (%d/%d): %s" "load_markets" 1 3 (NetworkError "reset");
         Sleep 2%float;
         Invoke] in
      call_with_retry func (Z.of_nat 3) 2%float "load_markets" (fresh_state None) =
        (Raise (KeyError "close"),
         mkState (after_calls func 2 (exchange (fresh_state None)))
           (trace (fresh_state None) ++ tr) (heap (fresh_state None)))
      /\ count_invocations tr = 2%nat
      /\ last tr = Some Invoke
      /\ count_warnings tr = (2 - 1)%nat
      /\ sleeps tr = repeat 2%float (2 - 1)
      /\ (forall j, (1 <= j < 2)%nat ->
            raises_transient (nth_outcome func (exchange (fresh_state None)) j)
            = true)).
Proof.
  intros func.
  destruct (call_with_retry_propagates func 2 3 2%float "load_markets"
              (fresh_state None) (KeyError "close") eq_refl eq_refl)
    as [Hreached Hinvoked].
  split.
  - apply Hreached.
    + lia.
    + right. reflexivity.
    + intros j Hj. assert (j = 1)%nat as -> by lia. reflexivity.
  - apply Hinvoked.
    + reflexivity.
    + cbn. lia.
Defined.

Lemma call_with_retry_no_attempts_witness :
  call_with_retry
    (scripted [Return 1%Z] (Return 0%Z)) (-2)%Z 2%float "load_markets"
    (fresh_state None) =
    (Raise (RuntimeError
              ("load_markets" +:+ " failed after " +:+ py_str (-2)%Z +:+ " attempts")
              None), fresh_state None).
Proof.
  apply call_with_retry_no_attempts. lia.
Defined.

Lemma validate_symbols_missing_witness :
  let st := fresh_state (Some {["XAU/USDT:USDT"; "PAXG/USDT:USDT"]}) in
  let keys : gset string := {["XAU/USDT:USDT"; "PAXG/USDT:USDT"]} in
  let missing := filter (fun symbol => symbol ∉ keys) DEFAULT_SYMBOLS.*2 in
  ((exists e, (validate_symbols DEFAULT_SYMBOLS st).1 = Raise e)
     <-> (exists symbol, symbol ∈ DEFAULT_SYMBOLS.*2 /\ symbol ∉ keys))
  /\ (forall symbol,
        symbol ∈ missing <-> symbol ∈ DEFAULT_SYMBOLS.*2 /\ symbol ∉ keys)
  /\ (forall e, (validate_symbols DEFAULT_SYMBOLS st).1 = Raise e ->
        exists listing,
          e = ValueError ("Symbols not available on Bitget swap market: "
                            +:+ listing)
          /\ read_repr_list listing = Some missing)
  /\ ((forall symbol, symbol ∈ DEFAULT_SYMBOLS.*2 -> symbol ∈ keys) ->
        (validate_symbols DEFAULT_SYMBOLS st).1 = Return tt)
  /\ (validate_symbols DEFAULT_SYMBOLS st).2 = st.
Proof.
  intros st keys.
  apply (validate_symbols_missing DEFAULT_SYMBOLS st keys).
  reflexivity.
Defined.

(** The market set lacks one required identifier: the error names it, and
    the list in the message reads back as that one identifier. *)
Example validate_symbols_names_the_missing_one :
  validate_symbols DEFAULT_SYMBOLS
    (fresh_state (Some {["XAU/USDT:USDT"; "PAXG/USDT:USDT"]})) =
  (Raise (ValueError
            "Symbols not available on Bitget swap market: ['XAUT/USDT:USDT']"),
   fresh_state (Some {["XAU/USDT:USDT"; "PAXG/USDT:USDT"]}))
  /\ read_repr_list "['XAUT/USDT:USDT']" = Some ["XAUT/USDT:USDT"].
Proof. split; vm_compute; reflexivity. Qed.

Lemma add_spreads_appends_witness :
  exists d1 d2 d3,
    add_spreads 1%positive sample_store =
      (Return 1%positive,
       mkState (exchange sample_store) (trace sample_store)
         (<[1%positive :=
              mkFrame (df_index sample_table)
                (df_columns sample_table ++
                   [("XAU_minus_XAUT", d1); ("XAU_minus_PAXG", d2);
                    ("PAXG_minus_XAUT", d3)])]> (heap sample_store)))
    /\ (forall i, (i < length (df_index sample_table))%nat ->
          exists x t p,
            [100; 100.5]%float !! i = Some x /\ [99; 99.25]%float !! i = Some t
            /\ [101; 101.5]%float !! i = Some p
            /\ d1 !! i = Some (x - t)%float
            /\ d2 !! i = Some (x - p)%float
            /\ d3 !! i = Some (p - t)%float)
    /\ length d1 = length (df_index sample_table)
    /\ length d2 = length (df_index sample_table)
    /\ length d3 = length (df_index sample_table)
    /\ (forall i,
          [100; 100.5]%float !! i = Some 100%float ->
          [99; 99.25]%float !! i = Some 99%float ->
          [101; 101.5]%float !! i = Some 101%float ->
          d1 !! i = Some 1%float /\ d2 !! i = Some (-1)%float
          /\ d3 !! i = Some 2%float).
Proof.
  apply (add_spreads_appends sample_store 1%positive sample_table).
  - reflexivity.
  - reflexivity.
  - repeat constructor.
  - left.
  - right. left.
  - right. right. left.
Defined.

(** The table of two rows, after [add_spreads]: the first row, with
    XAU = 100, XAUT = 99 and PAXG = 101, gets 1, -1 and 2. *)
Example add_spreads_on_sample_table :
  add_spreads 1%positive sample_store =
  (Return 1%positive,
   mkState (mkExchange None 0%nat) []
     {[ 1%positive :=
          mkFrame [1000; 2000]%Z
            [("XAU", [100; 100.5]%float); ("XAUT", [99; 99.25]%float);
             ("PAXG", [101; 101.5]%float);
             ("XAU_minus_XAUT", [1; 1.25]%float);
             ("XAU_minus_PAXG", [-1; -1]%float);
             ("PAXG_minus_XAUT", [2; 2.25]%float)] ]}).
Proof. vm_compute. reflexivity. Qed.

Lemma add_spreads_in_place_witness :
  exists (st' : state nat float) df' spreads,
    add_spreads 1%positive sample_store = (Return 1%positive, st')
    /\ heap st' = <[1%positive := df']> (heap sample_store)
    /\ exchange st' = exchange sample_store /\ trace st' = trace sample_store
    /\ df_index df' = df_index sample_table
    /\ df_columns df' = df_columns sample_table ++ spreads
    /\ spreads.*1 = ["XAU_minus_XAUT"; "XAU_minus_PAXG"; "PAXG_minus_XAUT"]
    /\ (forall col, col ∈ ["XAU"; "XAUT"; "PAXG"] ->
          get_column (df_columns df') col = get_column (df_columns sample_table) col)
    /\ (forall r, r ≠ 1%positive -> heap st' !! r = heap sample_store !! r).
Proof.
  apply (add_spreads_in_place sample_store 1%positive sample_table).
  - reflexivity.
  - reflexivity.
Defined.

(** C9 as stated fails: the reference returned is the argument, which held a
    frame before the call, and the frame the caller passed has changed. *)
Lemma add_spreads_mutates_its_argument :
  exists (st' : state nat float) df',
    add_spreads 1%positive sample_store = (Return 1%positive, st')
    /\ heap sample_store !! 1%positive = Some sample_table
    /\ heap st' !! 1%positive = Some df'
    /\ df' ≠ sample_table
    /\ length (df_columns df') = 6%nat.
Proof.
  eexists _, _. split; [vm_compute; reflexivity|].
  split; [reflexivity|]. split; [vm_compute; reflexivity|].
  split; [discriminate|reflexivity].
Qed.



Lemma empty_data_raises_witness :
  (exists tr,
     fetch_close_series empty_after_reset "XAU/USDT:USDT" "1h" 500 (Z.of_nat 3)
       2%float (fresh_state None) =
       (Raise (ValueError ("No OHLCV data returned for " +:+ "XAU/USDT:USDT")),
        mkState
          (after_calls (empty_after_reset "XAU/USDT:USDT" "1h" 500) 2
             (exchange (fresh_state None)))
          (trace (fresh_state None) ++ tr ++ [Invoke]) (heap (fresh_state None)))
     /\ count_invocations tr = (2 - 1)%nat)
  /\ (let tr :=
        [Invoke;
         Warning "%s failed (%d/%d): %s" "fetch_ohlcv(XAU/USDT:USDT)" 1 3
           (NetworkError "reset");
         Sleep 2%float;
         Invoke] in
      fetch_close_series empty_after_reset "XAU/USDT:USDT" "1h" 500 3 2%float
        (fresh_state None) =
        (Raise (ValueError ("No OHLCV data returned for " +:+ "XAU/USDT:USDT")),
         mkState
           (after_calls (empty_after_reset "XAU/USDT:USDT" "1h" 500) 2
              (exchange (fresh_state None)))
           (trace (fresh_state None) ++ tr) (heap (fresh_state None)))
      /\ count_invocations tr = 2%nat
      /\ last tr = Some Invoke).
Proof.
  destruct (empty_data_raises empty_after_reset) as (Hreached & Hinvoked & _).
  split.
  - apply Hreached.
    + lia.
    + right. reflexivity.
    + intros j Hj. assert (j = 1)%nat as -> by lia. reflexivity.
    + reflexivity.
  - apply Hinvoked.
    + reflexivity.
    + cbn. lia.
    + reflexivity.
Defined.

Lemma build_price_df_inner_join_witness :
  (exists r df,
     build_price_df (quoting overlapping_book) DEFAULT_SYMBOLS "1h" 500 3 2%float
       (fresh_state None) =
       (Return r,
        mkState (exchange (after_fetches 3)) (trace (after_fetches 3))
          (<[r := df]> (heap (after_fetches 3))))
     /\ heap (after_fetches 3) !! r = None)
  /\ (exists first others df,
        overlapping_series = first :: others
        /\ after_build =
             mkState (exchange (after_fetches 3)) (trace (after_fetches 3))
               (<[1%positive := df]> (heap (after_fetches 3)))
        /\ heap (after_fetches 3) !! 1%positive = None
        /\ (forall t, t ∈ df_index df
              <-> (forall s, s ∈ overlapping_series -> t ∈ s_index s))
        /\ df_index df `sublist_of` s_index first
        /\ (NoDup (s_index first) ->
              df_index df =
                filter (fun t => Forall (fun s => t ∈ s_index s) others)
                  (s_index first))
        /\ (StronglySorted Z.lt (s_index first) ->
              StronglySorted Z.lt (df_index df))
        /\ (df_columns df).*1 = DEFAULT_SYMBOLS.*1
        /\ (s_index <$> overlapping_series = [[1; 2; 3]; [2; 3; 4]; [2; 3]]%Z ->
              df_index df = [2; 3]%Z)).
Proof.
  destruct (build_price_df_inner_join (quoting overlapping_book) DEFAULT_SYMBOLS
              "1h" 500 3 2%float (fresh_state None) (after_fetches 3)
              overlapping_series eq_refl) as (Hbuilt & Hrows & _).
  split.
  - apply Hbuilt.
    + discriminate.
    + repeat constructor; cbn; rewrite ?not_elem_of_cons; repeat split;
        try done; apply not_elem_of_nil.
    + exists 2%Z. intros s Hs.
      repeat (apply elem_of_cons in Hs as [->|Hs]); [..|by apply elem_of_nil in Hs];
        cbn [s_index]; set_solver.
  - apply Hrows. vm_compute. reflexivity.
Defined.

(** The table built from [overlapping_book], as it is. *)
Example build_price_df_on_overlapping_book :
  build_price_df (quoting overlapping_book) DEFAULT_SYMBOLS "1h" 500 3 2%float
    (fresh_state None) =
  (Return 1%positive,
   mkState (mkExchange None 3%nat) [Invoke; Invoke; Invoke]
     {[ 1%positive :=
          mkFrame [2; 3]%Z
            [("XAU", [100; 100]%float); ("XAUT", [99; 99]%float);
             ("PAXG", [101; 101]%float)] ]}).
Proof. vm_compute. reflexivity. Qed.

(** C3 as stated fails in three ways.  With candles that share no
    timestamp no table is produced: the call raises.  With a symbol that
    lists a timestamp twice no table is produced either: pandas refuses to
    realign its series.  With candles that the exchange lists out of order
    the table is produced with its rows in the order of the first series,
    which is not ascending. *)
Lemma build_price_df_not_always_an_ordered_join :
  (exists st',
     build_price_df (quoting disjoint_book) DEFAULT_SYMBOLS "1h" 500 3 2%float
       (fresh_state None) =
       (Raise (ValueError
                 "Joined price dataframe is empty. Check symbols/timeframe/limit."),
        st'))
  /\ (exists st',
        build_price_df (quoting duplicated_book) DEFAULT_SYMBOLS "1h" 500 3 2%float
          (fresh_state None) =
          (Raise (ValueError "cannot reindex on an axis with duplicate labels"), st'))
  /\ (exists r st' df,
        build_price_df (quoting unordered_book) DEFAULT_SYMBOLS "1h" 500 3 2%float
          (fresh_state None) = (Return r, st')
        /\ heap st' !! r = Some df
        /\ df_index df = [3; 2]%Z
        /\ ~ StronglySorted Z.lt (df_index df)).
Proof.
  split; [|split].
  - eexists. vm_compute. reflexivity.
  - eexists. vm_compute. reflexivity.
  - eexists _, _, _. split; [vm_compute; reflexivity|].
    split; [vm_compute; reflexivity|]. cbn [df_index].
    split; [reflexivity|].
    intros Hs. apply StronglySorted_inv in Hs as [_ Hlt].
    apply Forall_inv in Hlt. discriminate.
Qed.

(** * Further properties of the script *)

(** ** The retry wrapper, whatever the operation does *)

Section MoreRetry.

Context {R Delay A : Type} `{!TimeSleep Delay} (func : operation R A)
  (retries : Z) (retry_delay : Delay) (action_name : string).

Abbreviation loop' := (retry_attempts func retries retry_delay action_name).

Lemma py_range_below_last :
  (length (List.filter (fun a => (a <? retries)%Z) (py_range 1 (retries + 1)))
   <= Z.to_nat retries - 1)%nat.
Proof.
  unfold py_range. replace (retries + 1 - 1)%Z with retries by lia.
  destruct (Z.to_nat retries) as [|m] eqn:Hm; [done|].
  rewrite seq_S, map_app, List.filter_app, length_app. cbn [map List.filter plus].
  replace (1 + Z.of_nat m <? retries)%Z with false
    by (symmetry; apply Z.ltb_ge; lia).
  cbn [length]. etransitivity; [apply Nat.add_le_mono_r, List.filter_length_le|].
  rewrite length_map, length_seq. lia.
Qed.

(** [n] caught failures in a row, wherever they fall, the sleeps that
    follow them being accepted: the warnings logged are those of the
    attempts, in order, each with the error of its invocation, and the loop
    goes on with the error of the last one. *)
Lemma retry_attempts_failures_logged (n : nat) :
  forall (a : nat) rest last_error (st : state R Delay),
    sleep_error retry_delay = None
    \/ (forall j, (j < n)%nat -> (retries <= Z.of_nat (a + j))%Z) ->
    (forall k, (1 <= k <= n)%nat ->
       raises_transient (nth_outcome func (exchange st) k) = true) ->
    exists tr last_error',
      loop' (map Z.of_nat (seq a n) ++ rest) last_error st =
        loop' rest last_error'
          (mkState (after_calls func n (exchange st)) (trace st ++ tr) (heap st))
      /\ (forall j, (j < n)%nat ->
            exists e,
              nth_outcome func (exchange st) (S j) = Raise e
              /\ List.filter is_warning tr !! j =
                   Some (Warning "%s failed (%d/%d): %s" action_name
                           (Z.of_nat (a + j)) retries e))
      /\ length (List.filter is_warning tr) = n
      /\ ((n = 0%nat /\ last_error' = last_error)
          \/ ((1 <= n)%nat
              /\ exists e, nth_outcome func (exchange st) n = Raise e
                           /\ last_error' = Some e)).
Proof.
  induction n as [|n IH]; intros a rest last_error st Hsleep Hfail.
  - exists [], last_error. rewrite app_nil_r. destruct st.
    split; [done|]. split; [intros j Hj; lia|]. split; [done|]. by left.
  - pose proof (Hfail 1%nat ltac:(lia)) as H1. rewrite nth_outcome_1 in H1.
    cbn [seq map app]. rewrite retry_attempts_cons. cbn zeta.
    destruct (fst (func (exchange st))) as [v|err] eqn:Hr; [discriminate|].
    cbn in H1. rewrite H1. cbn [exchange trace heap].
    set (slept := if (Z.of_nat a <? retries)%Z then [Sleep retry_delay] else []).
    assert (Hturn :
              (if (Z.of_nat a <? retries)%Z
               then
                 match sleep_error retry_delay with
                 | Some e =>
                     (Raise e,
                      mkState (snd (func (exchange st)))
                        (trace st ++
                           [Invoke;
                            Warning "%s failed (%d/%d): %s" action_name
                              (Z.of_nat a) retries err]) (heap st))
                 | None =>
                     loop' (map Z.of_nat (seq (S a) n) ++ rest) (Some err)
                       (mkState (snd (func (exchange st)))
                          (trace st ++
                             [Invoke;
                              Warning "%s failed (%d/%d): %s" action_name
                                (Z.of_nat a) retries err;
                              Sleep retry_delay]) (heap st))
                 end
               else
                 loop' (map Z.of_nat (seq (S a) n) ++ rest) (Some err)
                   (mkState (snd (func (exchange st)))
                      (trace st ++
                         [Invoke;
                          Warning "%s failed (%d/%d): %s" action_name
                            (Z.of_nat a) retries err]) (heap st)))
              = loop' (map Z.of_nat (seq (S a) n) ++ rest) (Some err)
                  (mkState (snd (func (exchange st)))
                     (trace st ++
                        Invoke
                        :: Warning "%s failed (%d/%d): %s" action_name
                             (Z.of_nat a) retries err
                        :: slept) (heap st))).
    { unfold slept. destruct (Z.of_nat a <? retries)%Z eqn:Hlt; [|done].
      destruct Hsleep as [->|Hlast]; [done|].
      specialize (Hlast 0%nat ltac:(lia)). apply Z.ltb_lt in Hlt. lia. }
    rewrite Hturn.
    edestruct (IH (S a) rest (Some err)) as (tr & last' & Heq & Hlog & Hlen & Hlast);
      [| |rewrite Heq].
    { destruct Hsleep as [?|Hlast]; [by left|right].
      intros j Hj. specialize (Hlast (S j) ltac:(lia)). lia. }
    { intros k Hk. cbn [exchange]. rewrite <- nth_outcome_S by lia.
      apply Hfail. lia. }
    cbn [exchange trace heap] in *.
    exists (Invoke :: Warning "%s failed (%d/%d): %s" action_name (Z.of_nat a)
                        retries err
              :: slept ++ tr), last'.
    assert (Hfilter :
              List.filter is_warning
                (Invoke :: Warning "%s failed (%d/%d): %s" action_name
                             (Z.of_nat a) retries err
                   :: slept ++ tr) =
              Warning "%s failed (%d/%d): %s" action_name (Z.of_nat a) retries err
                :: List.filter is_warning tr).
    { unfold slept. by destruct (Z.of_nat a <? retries)%Z. }
    rewrite Hfilter. split; [|split; [|split]].
    + cbn [after_calls]. do 2 f_equal. by rewrite <- app_assoc.
    + intros [|j] Hj.
      * exists err. rewrite nth_outcome_1, Hr, Nat.add_0_r. done.
      * destruct (Hlog j ltac:(lia)) as (e & He & Hj').
        exists e. rewrite nth_outcome_S by lia. split; [done|].
        replace (Z.of_nat (a + S j)) with (Z.of_nat (S a + j)) by lia.
        exact Hj'.
    + cbn. by rewrite Hlen.
    + right. split; [lia|]. destruct Hlast as [[-> ->]|(Hn & e & He & ->)].
      * exists err. by rewrite nth_outcome_1, Hr.
      * exists e. by rewrite nth_outcome_S by lia.
Qed.

(** All [N >= 1] attempts fail with a caught error, the sleeps between them
    being accepted. *)
Lemma call_with_retry_all_caught (N : nat) (st : state R Delay) :
  retries = Z.of_nat N ->
  (1 <= N)%nat ->
  N = 1%nat \/ sleep_error retry_delay = None ->
  (forall k, (1 <= k <= N)%nat ->
     raises_transient (nth_outcome func (exchange st) k) = true) ->
  exists tr err,
    nth_outcome func (exchange st) N = Raise err
    /\ call_with_retry func retries retry_delay action_name st =
         (Raise (RuntimeError
                   (action_name +:+ " failed after " +:+ py_str retries
                      +:+ " attempts") (Some err)),
          mkState (after_calls func N (exchange st)) (trace st ++ tr) (heap st))
    /\ count_warnings tr = N.
Proof.
  intros HN Hpos Hsleep Hall.
  destruct (retry_attempts_failures_logged N 1 [] None st)
    as (tr & last' & Heq & _ & Hlen & Hlast); [|done|].
  { destruct Hsleep as [->|?]; [right|by left]. intros j Hj. lia. }
  destruct Hlast as [[-> _]|(_ & err & Herr & ->)]; [lia|].
  exists tr, err. split; [done|]. split; [|done].
  unfold call_with_retry.
  replace (py_range 1 (retries + 1)) with (map Z.of_nat (seq 1 N) ++ [])
    by (rewrite app_nil_r, HN; symmetry; apply py_range_from_1).
  by rewrite Heq.
Qed.

(** X3.  Whatever the operation does and whatever [retries] is,
    [call_with_retry] only appends to the trace and leaves the frames
    alone; it invokes the operation at most [retries] times, logs at most
    one warning per invocation, sleeps at most [retries - 1] times and never
    more often than it warned, and every sleep lasts the configured
    delay. *)
Theorem call_with_retry_bounded (st : state R Delay) :
  exists tr,
    trace (call_with_retry func retries retry_delay action_name st).2
      = trace st ++ tr
    /\ heap (call_with_retry func retries retry_delay action_name st).2 = heap st
    /\ (count_invocations tr <= Z.to_nat retries)%nat
    /\ (count_warnings tr <= count_invocations tr)%nat
    /\ (length (sleeps tr) <= count_warnings tr)%nat
    /\ (length (sleeps tr) <= Z.to_nat retries - 1)%nat
    /\ Forall (eq retry_delay) (sleeps tr).
Proof.
  unfold call_with_retry.
  destruct (retry_attempts_frame func retries retry_delay action_name
              (py_range 1 (retries + 1)) None st)
    as (tr & Htr & Hheap & Hi & Hw & Hs & Hlt & Hd).
  exists tr. rewrite py_range_length in Hi.
  pose proof py_range_below_last. repeat split; try done; lia.
Qed.

(** X1.  A success at attempt [k], after [k - 1] caught failures and, when
    [k >= 2], with a retry delay that [time.sleep] accepts, ends the call
    whatever [retries >= k] is: the value is returned, the operation has
    been invoked [k] times, and each of the [k - 1] failures was logged once
    and followed by one sleep of the configured delay. *)
Theorem call_with_retry_succeeds_early (k N : nat) (st : state R Delay) (v : A) :
  retries = Z.of_nat N ->
  (1 <= k <= N)%nat ->
  k = 1%nat \/ sleep_error retry_delay = None ->
  (forall j, (1 <= j < k)%nat ->
     raises_transient (nth_outcome func (exchange st) j) = true) ->
  nth_outcome func (exchange st) k = Return v ->
  exists tr,
    call_with_retry func retries retry_delay action_name st =
      (Return v,
       mkState (after_calls func k (exchange st)) (trace st ++ tr) (heap st))
    /\ count_invocations tr = k
    /\ count_warnings tr = (k - 1)%nat
    /\ sleeps tr = repeat retry_delay (k - 1)
    /\ last tr = Some Invoke.
Proof.
  intros HN Hk Hsleep Hfail Hok.
  destruct (call_with_retry_settles func retries retry_delay action_name
              k N st HN Hk Hsleep Hfail) as (tr & Heq & Hi & Hw & Hs);
    [by rewrite Hok|].
  exists (tr ++ [Invoke]). rewrite Heq, Hok. split; [done|].
  rewrite count_invocations_app, count_warnings_app, sleeps_app, Hi, Hw, Hs,
    last_snoc.
  cbn. rewrite app_nil_r. repeat split; lia.
Qed.

(** X2.  When the first [k] invocations raise caught errors and, for
    [k >= 2], the retry delay is one that [time.sleep] accepts, the first
    [k] warnings of the call are theirs, in order: the [j]-th one carries
    the label, the attempt number [j], [retries], and the error the [j]-th
    invocation raised. *)
Theorem call_with_retry_warnings_numbered (k N : nat) (st : state R Delay) :
  retries = Z.of_nat N ->
  (k <= N)%nat ->
  (k <= 1)%nat \/ sleep_error retry_delay = None ->
  (forall j, (1 <= j <= k)%nat ->
     raises_transient (nth_outcome func (exchange st) j) = true) ->
  exists tr,
    trace (call_with_retry func retries retry_delay action_name st).2
      = trace st ++ tr
    /\ forall j, (1 <= j <= k)%nat ->
         exists e,
           nth_outcome func (exchange st) j = Raise e
           /\ List.filter is_warning tr !! (j - 1)%nat =
                Some (Warning "%s failed (%d/%d): %s" action_name
                        (Z.of_nat j) retries e).
Proof.
  intros HN Hk Hsleep Hfail.
  destruct (sleep_error retry_delay) as [e|] eqn:Hrefused.
  - destruct Hsleep as [Hone|?]; [|done].
    destruct (decide (k = 0%nat)) as [->|Hpos].
    { destruct (call_with_retry_frame func retries retry_delay action_name st)
        as (tr & Htr & _).
      exists tr. split; [done|]. intros j Hj. lia. }
    assert (k = 1%nat) as -> by lia.
    pose proof (Hfail 1%nat ltac:(lia)) as Hfirst.
    destruct (nth_outcome func (exchange st) 1) as [v|err] eqn:Hout; [done|].
    cbn in Hfirst. destruct (decide (N = 1%nat)) as [->|Hmore].
    + destruct (call_with_retry_all_caught 1 st HN ltac:(lia) ltac:(by left))
        as (tr & err' & Herr & Heq & Hw).
      { intros j Hj. assert (j = 1)%nat as -> by lia. by rewrite Hout. }
      rewrite Hout in Herr. injection Herr as <-.
      destruct (retry_attempts_failures_logged 1 1 [] None st)
        as (tr1 & last' & Heq1 & Hlog & _).
      { right. intros j Hj. lia. }
      { intros j Hj. assert (j = 1)%nat as -> by lia. by rewrite Hout. }
      exists tr1. split.
      * unfold call_with_retry.
        replace (py_range 1 (retries + 1)) with (map Z.of_nat (seq 1 1) ++ [])
          by (rewrite app_nil_r, HN; symmetry; apply (py_range_from_1 1)).
        by rewrite Heq1.
      * intros j Hj. assert (j = 1)%nat as -> by lia.
        destruct (Hlog 0%nat ltac:(lia)) as (e0 & He0 & Hw0).
        exists e0. rewrite Hout in He0 |- *. split; [done|]. exact Hw0.
    + rewrite (call_with_retry_sleep_refused func retries retry_delay action_name
                 N st err e HN ltac:(lia) Hout Hfirst Hrefused).
      eexists. split; [reflexivity|].
      intros j Hj. assert (j = 1)%nat as -> by lia.
      exists err. rewrite Hout. split; [done|]. reflexivity.
  - unfold call_with_retry.
    replace (py_range 1 (retries + 1)) with (map Z.of_nat (seq 1 N))
      by (rewrite HN; symmetry; apply py_range_from_1).
    replace N with (k + (N - k))%nat by lia. rewrite seq_app, map_app.
    destruct (retry_attempts_failures_logged k 1
                (map Z.of_nat (seq (1 + k) (N - k))) None st ltac:(by left) Hfail)
      as (tr1 & last' & Heq & Hlog & Hlen & _).
    rewrite Heq.
    match goal with |- context [loop' ?l ?e ?s] =>
      destruct (retry_attempts_frame func retries retry_delay action_name l e s)
        as (tr2 & Htr2 & _) end.
    exists (tr1 ++ tr2). rewrite Htr2. cbn [trace]. split; [by rewrite app_assoc|].
    intros j Hj. destruct (Hlog (j - 1)%nat ltac:(lia)) as (e & He & Hw).
    exists e. replace (S (j - 1)) with j in He by lia. split; [done|].
    rewrite List.filter_app, lookup_app_l by (rewrite Hlen; lia).
    rewrite Hw. do 3 f_equal. lia.
Qed.

(** X4.  Every outcome of [call_with_retry] is accounted for.  An attempt
    is reached when the attempts before it raised caught errors and the
    sleep between two attempts was accepted.  A value the call returns is
    the value of an attempt that was reached.  An error it raises is either
    the error of an attempt that was reached, one the [except] clause does
    not catch; or the aggregated [RuntimeError], whose message gives
    [retries], and then every one of the [retries] invocations raised a
    caught error, the cause being the last of them (none when
    [retries <= 0]); or the error by which [time.sleep] refused the retry
    delay, after a first invocation that raised a caught error and was not
    the last attempt. *)
Theorem call_with_retry_outcome_inv (st : state R Delay) :
  let N := Z.to_nat retries in
  let reached k :=
    (1 <= k <= N)%nat
    /\ (forall j, (1 <= j < k)%nat ->
          raises_transient (nth_outcome func (exchange st) j) = true)
    /\ (k = 1%nat \/ sleep_error retry_delay = None) in
  match (call_with_retry func retries retry_delay action_name st).1 with
  | Return v =>
      exists k, reached k /\ nth_outcome func (exchange st) k = Return v
  | Raise e =>
      (exists k, reached k /\ nth_outcome func (exchange st) k = Raise e
                 /\ transient e = false)
      \/ (exists cause digits,
            e = RuntimeError
                  (action_name +:+ " failed after " +:+ digits +:+ " attempts")
                  cause
            /\ read_decimal digits = Some retries
            /\ (forall j, (1 <= j <= N)%nat ->
                  raises_transient (nth_outcome func (exchange st) j) = true)
            /\ ((N <= 1)%nat \/ sleep_error retry_delay = None)
            /\ ((N = 0%nat /\ cause = None)
                \/ (exists err, nth_outcome func (exchange st) N = Raise err
                                /\ cause = Some err)))
      \/ ((2 <= N)%nat
          /\ raises_transient (nth_outcome func (exchange st) 1) = true
          /\ sleep_error retry_delay = Some e)
  end.
Proof.
  intros N reached.
  assert (Hrefused : forall e, (2 <= N)%nat ->
            raises_transient (nth_outcome func (exchange st) 1) = true ->
            sleep_error retry_delay = Some e ->
            (call_with_retry func retries retry_delay action_name st).1 = Raise e).
  { intros e HN Hfirst Hsleep.
    destruct (nth_outcome func (exchange st) 1) as [v|err] eqn:Hout; [done|].
    assert (Hretries : retries = Z.of_nat N) by lia.
    by rewrite (call_with_retry_sleep_refused func retries retry_delay
                  action_name N st err e Hretries HN Hout Hfirst Hsleep). }
  destruct (first_settled func (exchange st) N)
    as [Hall|(k & Hk & Hsettled & Hbefore)].
  - destruct (decide (N <= 1)%nat) as [Hfew|Hmany];
      [|destruct (sleep_error retry_delay) as [e|] eqn:Hsleep].
    2: { rewrite (Hrefused e ltac:(lia) (Hall 1%nat ltac:(lia)) eq_refl).
         right. right. split; [lia|]. split; [apply Hall; lia|done]. }
    all: assert (Hloop : call_with_retry func retries retry_delay action_name st =
                         loop' (map Z.of_nat (seq 1 N) ++ []) None st)
      by (unfold call_with_retry, py_range; rewrite app_nil_r;
          replace (Z.to_nat (retries + 1 - 1)) with N by lia;
          rewrite <- seq_shift, map_map; f_equal;
          apply map_ext; intros i; lia).
    all: destruct (retry_attempts_failures_logged N 1 [] None st)
      as (tr & last' & Heq & _ & _ & Hlast);
      [first [by left | right; intros j Hj; lia]|done|].
    all: rewrite Hloop, Heq; cbn [retry_attempts raise fst]; right; left.
    all: exists last', (py_str retries); split; [done|];
      split; [apply read_decimal_py_str|]; split; [done|].
    all: split; [first [by left | by right]|].
    all: destruct Hlast as [[? ?]|(_ & err & ? & ?)]; [by left|right; by exists err].
  - assert (HN : retries = Z.of_nat N) by lia.
    destruct (decide (k = 1%nat)) as [Hfirst|Hlater];
      [|destruct (sleep_error retry_delay) as [e|] eqn:Hsleep].
    2: { rewrite (Hrefused e ltac:(lia) (Hbefore 1%nat ltac:(lia)) eq_refl).
         right. right. split; [lia|]. split; [apply Hbefore; lia|done]. }
    all: destruct (call_with_retry_settles func retries retry_delay action_name
                     k N st HN Hk ltac:(first [by left | by right]) Hbefore Hsettled)
      as (tr & Heq & _).
    all: rewrite Heq; cbn [fst]; subst reached; cbn beta.
    all: destruct (nth_outcome func (exchange st) k) as [v|e'] eqn:Hout.
    all: first
      [ exists k; split; [split; [exact Hk|split; [exact Hbefore|]]|exact Hout];
        first [by left | by right]
      | left; exists k; split; [split; [exact Hk|split; [exact Hbefore|]]|];
        [first [by left | by right]|split; [exact Hout|exact Hsettled]] ].
Qed.

(** The exchange after the loop is the exchange after as many invocations
    of the operation as the trace records. *)
Lemma retry_attempts_invoked attempts :
  forall last_error (st : state R Delay),
    exists tr,
      trace (loop' attempts last_error st).2 = trace st ++ tr
      /\ exchange (loop' attempts last_error st).2
         = after_calls func (count_invocations tr) (exchange st)
      /\ (count_invocations tr <= length attempts)%nat.
Proof.
  induction attempts as [|attempt rest IH]; intros last_error st.
  - exists []. cbn. by rewrite app_nil_r.
  - rewrite retry_attempts_cons. cbn zeta.
    destruct (fst (func (exchange st))) as [v|err].
    { exists [Invoke]. cbn. repeat split; first [lia|done]. }
    destruct (transient err).
    2: { exists [Invoke]. cbn. repeat split; first [lia|done]. }
    destruct (attempt <? retries)%Z; [destruct (sleep_error retry_delay)|].
    + eexists [Invoke; Warning _ _ _ _ _]. cbn. repeat split; first [lia|done].
    + match goal with |- context [loop' rest ?l ?s] =>
        destruct (IH l s) as (tr & Htr & Hex & Hi) end.
      exists (Invoke :: Warning "%s failed (%d/%d): %s" action_name attempt retries err
                :: Sleep retry_delay :: tr).
      rewrite Htr, Hex. cbn [trace exchange]. rewrite <- app_assoc.
      split; [done|]. split; [done|].
      unfold count_invocations in *. cbn. lia.
    + match goal with |- context [loop' rest ?l ?s] =>
        destruct (IH l s) as (tr & Htr & Hex & Hi) end.
      exists (Invoke :: Warning "%s failed (%d/%d): %s" action_name attempt retries err
                :: tr).
      rewrite Htr, Hex. cbn [trace exchange]. rewrite <- app_assoc.
      split; [done|]. split; [done|].
      unfold count_invocations in *. cbn. lia.
Qed.

Lemma call_with_retry_invoked (st : state R Delay) :
  exists tr,
    trace (call_with_retry func retries retry_delay action_name st).2
      = trace st ++ tr
    /\ exchange (call_with_retry func retries retry_delay action_name st).2
       = after_calls func (count_invocations tr) (exchange st)
    /\ (count_invocations tr <= Z.to_nat retries)%nat.
Proof.
  unfold call_with_retry.
  destruct (retry_attempts_invoked (py_range 1 (retries + 1)) None st)
    as (tr & Htr & Hex & Hi).
  exists tr. by rewrite py_range_length in Hi.
Qed.

End MoreRetry.

(** ** Loading the markets, then validating *)

Section MoreLoader.

Context {R Delay Markets : Type} `{!TimeSleep Delay}.
Variable load_markets : bool -> list (string * string) -> operation R Markets.

Abbreviation load_op := (load_swap_markets load_markets).

(** X5.  When the market load fails with a caught error at every one of the
    [N >= 1] attempts and, for [N >= 2], the retry delay is one that
    [time.sleep] accepts, [load_markets_with_retry] raises the aggregated
    [RuntimeError] labelled [load_markets], whose message gives [N],
    caused by the last error, after [N] warnings. *)
Theorem load_markets_with_retry_exhausted (N : nat) (retry_delay : Delay)
    (st : state R Delay) :
  (1 <= N)%nat ->
  N = 1%nat \/ sleep_error retry_delay = None ->
  (forall k, (1 <= k <= N)%nat ->
     raises_transient (nth_outcome load_op (exchange st) k) = true) ->
  exists tr err digits,
    nth_outcome load_op (exchange st) N = Raise err
    /\ load_markets_with_retry load_markets (Z.of_nat N) retry_delay st =
         (Raise (RuntimeError
                   ("load_markets failed after " +:+ digits +:+ " attempts")
                   (Some err)),
          mkState (after_calls load_op N (exchange st)) (trace st ++ tr) (heap st))
    /\ read_decimal digits = Some (Z.of_nat N)
    /\ count_warnings tr = N.
Proof.
  intros HN Hsleep Hall.
  destruct (call_with_retry_all_caught load_op (Z.of_nat N) retry_delay
              "load_markets" N st eq_refl HN Hsleep Hall)
    as (tr & err & Herr & Heq & Hw).
  exists tr, err, (py_str (Z.of_nat N)). split; [done|].
  split; [|split; [apply read_decimal_py_str|done]].
  unfold load_markets_with_retry. by erewrite mbind_Raise by exact Heq.
Qed.

(** X6.  Loading then validating, as [main] does.  When the [k]-th load is
    the first not to raise a caught error and returns, leaving the market
    set [keys] on the client, and, for [k >= 2], the retry delay is one that
    [time.sleep] accepts, the validation that follows sees that set: the two
    steps return when every identifier of the table is in [keys], and
    otherwise raise the [ValueError] whose message ends with a list that
    denotes the absent ones.  Either way the exchange is as that load left
    it. *)
Theorem load_then_validate (k N : nat) (retry_delay : Delay)
    (symbols : list (string * string)) (st : state R Delay)
    (m : Markets) (keys : gset string) :
  (1 <= k <= N)%nat ->
  k = 1%nat \/ sleep_error retry_delay = None ->
  (forall j, (1 <= j < k)%nat ->
     raises_transient (nth_outcome load_op (exchange st) j) = true) ->
  nth_outcome load_op (exchange st) k = Return m ->
  markets (after_calls load_op k (exchange st)) = Some keys ->
  let missing := filter (fun symbol => symbol ∉ keys) symbols.*2 in
  exists outcome st',
    (load_markets_with_retry load_markets (Z.of_nat N) retry_delay;;
     validate_symbols symbols) st = (outcome, st')
    /\ exchange st' = after_calls load_op k (exchange st)
    /\ heap st' = heap st
    /\ match missing with
       | [] => outcome = Return tt
       | _ :: _ =>
           exists listing,
             outcome =
               Raise (ValueError ("Symbols not available on Bitget swap market: "
                                    +:+ listing))
             /\ read_repr_list listing = Some missing
       end.
Proof.
  intros Hk Hsleep Hfail Hok Hkeys missing.
  destruct (call_with_retry_settles load_op (Z.of_nat N) retry_delay
              "load_markets" k N st eq_refl Hk Hsleep Hfail)
    as (tr & Heq & _); [by rewrite Hok|].
  rewrite Hok in Heq.
  erewrite mbind_Return.
  2: { unfold load_markets_with_retry. erewrite mbind_Return by exact Heq.
       reflexivity. }
  unfold validate_symbols, missing_symbols. cbn [exchange].
  rewrite Hkeys. fold missing.
  destruct missing as [|absent rest] eqn:Hmissing.
  - by eexists _, _.
  - eexists _, _. split; [reflexivity|]. split; [done|]. split; [done|].
    eexists. split; [reflexivity|]. apply read_repr_list_py_repr_list.
Qed.

End MoreLoader.

(** ** More on fetching and aligning *)

Lemma series_at_lookup idx : forall vals t,
  t ∈ idx -> length idx = length vals ->
  exists j v,
    idx !! j = Some t /\ vals !! j = Some v /\ series_at idx vals t = v.
Proof.
  induction idx as [|u idx IH]; intros vals t Hin Hlen.
  - by apply elem_of_nil in Hin.
  - destruct vals as [|v vals]; [done|]. cbn [series_at]. case_decide.
    + subst u. by exists 0%nat, v.
    + apply elem_of_cons in Hin as [->|Hin]; [done|].
      destruct (IH vals t Hin) as (j & w & Hj & Hw & Hat); [by injection Hlen|].
      by exists (S j), w.
Qed.

(** The realigned values of a series: one per label of the new index, each
    the value the series pairs with that label. *)
Lemma reindex_cells s new_index vals :
  reindex s new_index = Return vals ->
  length (s_index s) = length (s_values s) ->
  (forall t, t ∈ new_index -> t ∈ s_index s) ->
  length vals = length new_index
  /\ forall i t, new_index !! i = Some t ->
       exists j v,
         s_index s !! j = Some t /\ s_values s !! j = Some v
         /\ vals !! i = Some v.
Proof.
  unfold reindex. intros Hre Hlen Hsub. repeat case_decide; [| |done].
  - injection Hre as <-. subst new_index. split; [done|].
    intros i t Hi. destruct (lookup_lt_is_Some_2 (s_values s) i) as [v Hv].
    { rewrite <- Hlen. by eapply lookup_lt_Some. }
    by exists i, v.
  - injection Hre as <-. split; [by rewrite length_fmap|].
    intros i t Hi.
    destruct (series_at_lookup (s_index s) (s_values s) t) as (j & v & Hj & Hv & Hat);
      [by eapply Hsub, list_elem_of_lookup_2|done|].
    exists j, v. split; [done|]. split; [done|].
    by rewrite list_lookup_fmap, Hi, <- Hat.
Qed.

Lemma reindex_all_lookup series_list new_index : forall cols,
  reindex_all series_list new_index = Return cols ->
  forall p s, series_list !! p = Some s ->
    exists vals, cols !! p = Some (s_name s, vals)
                 /\ reindex s new_index = Return vals.
Proof.
  induction series_list as [|s0 rest IH]; intros cols Hall p s Hp; [done|].
  cbn [reindex_all] in Hall.
  destruct (reindex s0 new_index) as [vals0|] eqn:H0; [|done].
  destruct (reindex_all rest new_index) as [cols'|] eqn:Hrest; [|done].
  injection Hall as <-. destruct p as [|p].
  - injection Hp as <-. by exists vals0.
  - by apply (IH cols' eq_refl p s).
Qed.

Lemma NoDup_unique idx : NoDup (unique idx).
Proof.
  induction idx as [|t idx IH]; cbn [unique]; constructor.
  - rewrite list_elem_of_filter. tauto.
  - by apply NoDup_filter.
Qed.

Lemma NoDup_foldl_intersection others : forall idx,
  NoDup idx -> NoDup (foldl index_intersection idx others).
Proof.
  induction others as [|o others IH]; intros idx Hnd; cbn [foldl]; [done|].
  apply IH, NoDup_filter, NoDup_unique.
Qed.

Lemma reindex_length s new_index vals :
  reindex s new_index = Return vals ->
  length (s_index s) = length (s_values s) ->
  length vals = length new_index.
Proof.
  unfold reindex. intros Hre Hlen. repeat case_decide; [| |done].
  - injection Hre as <-. by subst new_index.
  - injection Hre as <-. by rewrite length_fmap.
Qed.

Lemma reindex_all_lengths series_list new_index : forall cols,
  reindex_all series_list new_index = Return cols ->
  Forall (fun s => length (s_index s) = length (s_values s)) series_list ->
  Forall (fun col => length col.2 = length new_index) cols.
Proof.
  induction series_list as [|s rest IH]; intros cols Hall Hpaired.
  - by injection Hall as <-.
  - cbn [reindex_all] in Hall. apply Forall_cons in Hpaired as [Hs Hrest].
    destruct (reindex s new_index) as [vals|] eqn:Hre; [|done].
    destruct (reindex_all rest new_index) as [cols'|] eqn:Hcols; [|done].
    injection Hall as <-. constructor; [|by apply IH].
    by eapply reindex_length.
Qed.

Lemma pd_concat_inv series_list df :
  pd_concat series_list = Return df ->
  series_list ≠ []
  /\ df_index df = combined_index (s_index <$> series_list)
  /\ reindex_all series_list (df_index df) = Return (df_columns df).
Proof.
  unfold pd_concat. destruct series_list as [|s rest]; [done|].
  destruct (reindex_all (s :: rest) _) as [cols|] eqn:Hcols; [|done].
  by intros [= <-].
Qed.

Section MorePrices.

Context {R Delay : Type} `{!TimeSleep Delay}.
Variable fetch_ohlcv : string -> string -> Z -> operation R (list candle).

Abbreviation fetch := (fetch_close_series fetch_ohlcv).
Abbreviation collect := (collect_series fetch_ohlcv).
Abbreviation build := (build_price_df fetch_ohlcv).

(** The loop over a table in two parts. *)
Lemma collect_series_app timeframe limit retries retry_delay pre : forall post acc
    (st : state R Delay),
  collect (pre ++ post) timeframe limit retries retry_delay acc st =
  match collect pre timeframe limit retries retry_delay acc st with
  | (Return series_list, st1) =>
      collect post timeframe limit retries retry_delay series_list st1
  | (Raise e, st1) => (Raise e, st1)
  end.
Proof.
  induction pre as [|[alias symbol] pre IH]; intros post acc st; [done|].
  cbn [app collect_series]. unfold mbind, M_bind.
  destruct (fetch symbol timeframe limit retries retry_delay st) as [[s|e] st1];
    [|done].
  apply IH.
Qed.

(** One fetch only appends to the trace, leaves the frames alone and
    invokes the exchange at most [retries] times. *)
Lemma fetch_close_series_frame symbol timeframe limit retries retry_delay
    (st : state R Delay) :
  exists tr,
    trace (fetch symbol timeframe limit retries retry_delay st).2 = trace st ++ tr
    /\ heap (fetch symbol timeframe limit retries retry_delay st).2 = heap st
    /\ (count_invocations tr <= Z.to_nat retries)%nat.
Proof.
  rewrite fetch_close_series_state. apply call_with_retry_frame.
Qed.

(** The loop only appends to the trace, leaves the frames alone and invokes
    the exchange at most [retries] times per symbol. *)
Lemma collect_series_frame timeframe limit retries retry_delay symbols :
  forall acc (st : state R Delay),
    exists tr,
      trace (collect symbols timeframe limit retries retry_delay acc st).2
        = trace st ++ tr
      /\ heap (collect symbols timeframe limit retries retry_delay acc st).2
         = heap st
      /\ (count_invocations tr <= length symbols * Z.to_nat retries)%nat.
Proof.
  induction symbols as [|[alias symbol] rest IH]; intros acc st.
  - exists []. cbn. by rewrite app_nil_r.
  - cbn [collect_series]. unfold mbind, M_bind.
    destruct (fetch_close_series_frame symbol timeframe limit retries
                retry_delay st) as (tr1 & Htr1 & Hheap1 & Hi1).
    destruct (fetch symbol timeframe limit retries retry_delay st) as [[s|e] st1].
    + cbn [snd] in Htr1, Hheap1.
      match goal with |- context [collect rest _ _ _ _ ?a st1] =>
        destruct (IH a st1) as (tr2 & Htr2 & Hheap2 & Hi2) end.
      exists (tr1 ++ tr2). rewrite Htr2, Hheap2, Htr1, Hheap1, app_assoc.
      split; [done|]. split; [done|].
      rewrite count_invocations_app. cbn [length]. lia.
    + exists tr1. cbn [snd] in *. split; [done|]. split; [done|].
      cbn [length]. lia.
Qed.

(** The series the loop fetches hold one value per timestamp. *)
Lemma collect_series_paired timeframe limit retries retry_delay symbols :
  forall acc (st st' : state R Delay) series_list,
    collect symbols timeframe limit retries retry_delay acc st
      = (Return series_list, st') ->
    Forall (fun s => length (s_index s) = length (s_values s)) acc ->
    Forall (fun s => length (s_index s) = length (s_values s)) series_list.
Proof.
  induction symbols as [|[alias symbol] rest IH];
    intros acc st st' series_list Hloop Hacc.
  - by injection Hloop as <- <-.
  - cbn [collect_series] in Hloop. unfold mbind, M_bind in Hloop.
    destruct (fetch symbol timeframe limit retries retry_delay st)
      as [[s|e] st1] eqn:Hfetch; [|done].
    eapply IH; [exact Hloop|]. apply Forall_app. split; [done|].
    constructor; [|done]. cbn.
    apply fetch_close_series_Return in Hfetch as (ohlcv & _ & _ & ->).
    cbn. by rewrite !length_fmap.
Qed.

(** X7.  When the fetch of a symbol fails with a caught error at every one
    of the [N >= 1] attempts and, for [N >= 2], the retry delay is one that
    [time.sleep] accepts, [fetch_close_series] raises the aggregated
    [RuntimeError], whose label names the symbol, whose message gives [N]
    and whose cause is the last error; no series is built. *)
Theorem fetch_close_series_exhausted symbol timeframe limit (N : nat)
    retry_delay (st : state R Delay) :
  (1 <= N)%nat ->
  N = 1%nat \/ sleep_error retry_delay = None ->
  (forall k, (1 <= k <= N)%nat ->
     raises_transient
       (nth_outcome (fetch_ohlcv symbol timeframe limit) (exchange st) k) = true) ->
  exists tr err digits,
    nth_outcome (fetch_ohlcv symbol timeframe limit) (exchange st) N = Raise err
    /\ fetch symbol timeframe limit (Z.of_nat N) retry_delay st =
         (Raise (RuntimeError
                   (("fetch_ohlcv(" +:+ symbol +:+ ")") +:+ " failed after "
                      +:+ digits +:+ " attempts") (Some err)),
          mkState (after_calls (fetch_ohlcv symbol timeframe limit) N (exchange st))
            (trace st ++ tr) (heap st))
    /\ read_decimal digits = Some (Z.of_nat N)
    /\ count_warnings tr = N.
Proof.
  intros HN Hsleep Hall.
  destruct (call_with_retry_all_caught (fetch_ohlcv symbol timeframe limit)
              (Z.of_nat N) retry_delay ("fetch_ohlcv(" +:+ symbol +:+ ")")
              N st eq_refl HN Hsleep Hall) as (tr & err & Herr & Heq & Hw).
  exists tr, err, (py_str (Z.of_nat N)). split; [done|].
  split; [|split; [apply read_decimal_py_str|done]].
  by rewrite (fetch_close_series_run _ _ _ _ _ _ _ _ _ Heq).
Qed.

(** X8.  A table that [build_price_df] returns is a new object, and the
    frames the store already held are as they were.  Its columns are the
    aliases of the symbol table, in the order of the table; every column
    holds one value per row; and there is at least one row. *)
Theorem build_price_df_shape symbols timeframe limit retries retry_delay
    (st st' : state R Delay) r :
  build symbols timeframe limit retries retry_delay st = (Return r, st') ->
  exists df,
    heap st !! r = None
    /\ heap st' = <[r := df]> (heap st)
    /\ (df_columns df).*1 = symbols.*1
    /\ Forall (fun col => length col.2 = length (df_index df)) (df_columns df)
    /\ df_index df ≠ [].
Proof.
  intros Hbuild.
  apply build_price_df_Return in Hbuild
    as (series_list & st1 & df & Hloop & Hconcat & Hempty & -> & ->).
  destruct (collect_series_frame timeframe limit retries retry_delay symbols [] st)
    as (tr & _ & Hheap & _).
  rewrite Hloop in Hheap. cbn [snd] in Hheap.
  pose proof (collect_series_paired _ _ _ _ _ _ _ _ _ Hloop (List.Forall_nil _)) as Hpaired.
  pose proof Hloop as Hnames.
  apply collect_series_Return in Hnames as (fetched & -> & Hnames & _).
  pose proof Hconcat as Hinv. apply pd_concat_inv in Hinv as (_ & _ & Hcols).
  apply pd_concat_Return in Hconcat as (_ & _ & Hlabels).
  exists df. cbn [heap]. rewrite Hheap. split; [|split; [done|split; [|split]]].
  - apply not_elem_of_dom, is_fresh.
  - by rewrite Hlabels.
  - by eapply reindex_all_lengths.
  - by apply df_empty_false_inv.
Qed.

(** X9.  In a table that [build_price_df] returns, the rows are exactly the
    timestamps that every fetched series has, and the column at position
    [p] belongs to the [p]-th series: it bears its name, and at the row of
    a timestamp it holds a value that the series pairs with that
    timestamp. *)
Theorem build_price_df_cells symbols timeframe limit retries retry_delay
    (st st' : state R Delay) r :
  build symbols timeframe limit retries retry_delay st = (Return r, st') ->
  exists series_list st1 df,
    collect symbols timeframe limit retries retry_delay [] st
      = (Return series_list, st1)
    /\ heap st' !! r = Some df
    /\ (forall t, t ∈ df_index df
          <-> (forall s, s ∈ series_list -> t ∈ s_index s))
    /\ forall p s, series_list !! p = Some s ->
         exists col,
           df_columns df !! p = Some (s_name s, col)
           /\ forall i t, df_index df !! i = Some t ->
                exists j v,
                  s_index s !! j = Some t /\ s_values s !! j = Some v
                  /\ col !! i = Some v.
Proof.
  intros Hbuild.
  apply build_price_df_Return in Hbuild
    as (series_list & st1 & df & Hloop & Hconcat & Hempty & -> & ->).
  pose proof (collect_series_paired _ _ _ _ _ _ _ _ _ Hloop (List.Forall_nil _)) as Hpaired.
  apply pd_concat_inv in Hconcat as (Hne & Hidx & Hcols).
  assert (Hrows : forall t, t ∈ df_index df
                    <-> (forall s, s ∈ series_list -> t ∈ s_index s)).
  { intros t. rewrite Hidx, elem_of_combined_index by by destruct series_list.
    split.
    - intros Hall s Hs. apply Hall. by apply list_elem_of_fmap_2.
    - intros Hall idx (s & -> & Hs)%list_elem_of_fmap. by apply Hall. }
  exists series_list, st1, df. split; [done|].
  split; [apply lookup_insert_eq|]. split; [done|].
  intros p s Hp.
  destruct (reindex_all_lookup _ _ _ Hcols p s Hp) as (col & Hcol & Hre).
  exists col. split; [done|]. intros i t Hi.
  eapply reindex_cells; [exact Hre| | |exact Hi].
  - rewrite Forall_forall in Hpaired. by eapply Hpaired, list_elem_of_lookup_2.
  - intros u Hu. apply Hrows; [done|]. by eapply list_elem_of_lookup_2.
Qed.

(** X10.  [build_price_df] stops at the first symbol whose fetch raises:
    the error is the one of that fetch, the state is the one that fetch
    left, so the symbols after it are not fetched and no table is made. *)
Theorem build_price_df_fails_fast pre alias symbol post timeframe limit
    retries retry_delay (st st1 st2 : state R Delay) fetched e :
  collect pre timeframe limit retries retry_delay [] st = (Return fetched, st1) ->
  fetch symbol timeframe limit retries retry_delay st1 = (Raise e, st2) ->
  build (pre ++ (alias, symbol) :: post) timeframe limit retries retry_delay st
    = (Raise e, st2).
Proof.
  intros Hpre Hfetch. unfold build_price_df.
  erewrite mbind_Raise; [reflexivity|].
  rewrite collect_series_app, Hpre. cbn [collect_series].
  by erewrite mbind_Raise by exact Hfetch.
Qed.

(** [build_price_df] invokes and logs what its loop does. *)
Lemma build_price_df_trace symbols timeframe limit retries retry_delay
    (st : state R Delay) :
  trace (build symbols timeframe limit retries retry_delay st).2
  = trace (collect symbols timeframe limit retries retry_delay [] st).2.
Proof.
  destruct (collect symbols timeframe limit retries retry_delay [] st)
    as [[series_list|e] st1] eqn:Hloop.
  - rewrite (build_price_df_run _ _ _ _ _ _ _ _ _ Hloop).
    destruct (pd_concat series_list) as [df|e]; [|done].
    cbn zeta. by destruct (df_empty df).
  - unfold build_price_df. by erewrite mbind_Raise by exact Hloop.
Qed.

(** X11.  Whatever the exchange answers, [build_price_df] only appends to
    the trace, invokes the exchange at most [len(symbols) * retries] times
    in all, and leaves every frame the store already held as it was.  And
    it invokes the exchange at most [retries] times per symbol: when the
    loop gets to a symbol of the table, what the call does from there starts
    with the fetch of that symbol, whose invocations, at most [retries], are
    all requests for the candles of that symbol. *)
Theorem build_price_df_bounded symbols timeframe limit retries retry_delay
    (st : state R Delay) :
  (exists tr,
     trace (build symbols timeframe limit retries retry_delay st).2
       = trace st ++ tr
     /\ (count_invocations tr <= length symbols * Z.to_nat retries)%nat
     /\ forall r, r ∈ dom (heap st) ->
          heap (build symbols timeframe limit retries retry_delay st).2 !! r
          = heap st !! r)
  /\ (forall pre alias symbol post fetched (st1 : state R Delay),
        symbols = pre ++ (alias, symbol) :: post ->
        collect pre timeframe limit retries retry_delay [] st
          = (Return fetched, st1) ->
        exists seg later,
          trace (fetch symbol timeframe limit retries retry_delay st1).2
            = trace st1 ++ seg
          /\ exchange (fetch symbol timeframe limit retries retry_delay st1).2
             = after_calls (fetch_ohlcv symbol timeframe limit)
                 (count_invocations seg) (exchange st1)
          /\ (count_invocations seg <= Z.to_nat retries)%nat
          /\ trace (build symbols timeframe limit retries retry_delay st).2
             = trace st1 ++ seg ++ later).
Proof.
  split.
  - destruct (collect_series_frame timeframe limit retries retry_delay symbols [] st)
      as (tr & Htr & Hheap & Hi).
    exists tr. rewrite build_price_df_trace. split; [done|]. split; [done|].
    destruct (collect symbols timeframe limit retries retry_delay [] st)
      as [[series_list|e] st1] eqn:Hloop; cbn [snd] in Htr, Hheap.
    + rewrite (build_price_df_run _ _ _ _ _ _ _ _ _ Hloop).
      destruct (pd_concat series_list) as [df|e].
      * cbn zeta. assert (Hfresh : forall r, r ∈ dom (heap st) ->
                            <[fresh (dom (heap st1)) := df]> (heap st1) !! r
                            = heap st !! r).
        { intros r Hr. rewrite lookup_insert_ne, Hheap; [done|].
          intros <-. rewrite <- Hheap in Hr. by apply is_fresh in Hr. }
        by destruct (df_empty df).
      * cbn [snd]. by rewrite Hheap.
    + unfold build_price_df. erewrite mbind_Raise by exact Hloop.
      cbn [snd]. by rewrite Hheap.
  - intros pre alias symbol post fetched st1 -> Hpre.
    destruct (call_with_retry_invoked (fetch_ohlcv symbol timeframe limit) retries
                retry_delay ("fetch_ohlcv(" +:+ symbol +:+ ")") st1)
      as (seg & Hseg & Hex & Hi).
    rewrite <- fetch_close_series_state in Hseg, Hex.
    rewrite build_price_df_trace, collect_series_app, Hpre.
    cbn [collect_series]. unfold mbind, M_bind.
    destruct (fetch symbol timeframe limit retries retry_delay st1)
      as [[s|e] st2]; cbn [snd] in Hseg, Hex.
    + match goal with |- context [collect post _ _ _ _ ?a st2] =>
        destruct (collect_series_frame timeframe limit retries retry_delay
                    post a st2) as (later & Hlater & _) end.
      exists seg, later. rewrite Hlater, Hseg, app_assoc. done.
    + exists seg, []. cbn [snd]. by rewrite app_nil_r.
Qed.

(** X12.  With two symbols or more, no timestamp is twice a row of the
    table that [build_price_df] returns. *)
Theorem build_price_df_distinct_rows symbols timeframe limit retries
    retry_delay (st st' : state R Delay) r :
  (2 <= length symbols)%nat ->
  build symbols timeframe limit retries retry_delay st = (Return r, st') ->
  exists df, heap st' !! r = Some df /\ NoDup (df_index df).
Proof.
  intros Htwo Hbuild.
  apply build_price_df_Return in Hbuild
    as (series_list & st1 & df & Hloop & Hconcat & Hempty & -> & ->).
  apply collect_series_Return in Hloop as (fetched & -> & Hnames & _).
  apply pd_concat_inv in Hconcat as (_ & Hidx & _).
  exists df. split; [apply lookup_insert_eq|]. rewrite Hidx.
  assert (Hlen : length fetched = length symbols).
  { by rewrite <- (length_fmap s_name), Hnames, length_fmap. }
  destruct fetched as [|s1 [|s2 rest]]; cbn in Hlen; [lia|lia|].
  cbn [app fmap list_fmap combined_index foldl].
  apply NoDup_foldl_intersection, NoDup_filter, NoDup_unique.
Qed.

End MorePrices.
(** ** More on the spreads *)

Lemma get_set_column_eq cols col vals :
  get_column (set_column cols col vals) col = Some vals.
Proof.
  induction cols as [|[c old] cols IH]; cbn.
  - by case_decide.
  - case_decide; cbn; case_decide; done.
Qed.

Lemma get_set_column_ne cols col col' vals :
  col ≠ col' ->
  get_column (set_column cols col vals) col' = get_column cols col'.
Proof.
  intros Hne. induction cols as [|[c old] cols IH]; cbn.
  - by case_decide.
  - case_decide; cbn.
    + subst c. by repeat case_decide.
    + by case_decide.
Qed.

Lemma set_column_same cols col vals :
  get_column cols col = Some vals -> set_column cols col vals = cols.
Proof.
  induction cols as [|[c old] cols IH]; cbn; [done|].
  case_decide; [by intros [= ->]|]. intros Hget. by rewrite IH.
Qed.

Lemma set_column_lengths cols col vals (rows : nat) :
  Forall (fun c => length c.2 = rows) cols ->
  length vals = rows ->
  Forall (fun c => length c.2 = rows) (set_column cols col vals).
Proof.
  intros Hcols Hvals. induction Hcols as [|[c old] cols Hc Hrest IH]; cbn.
  - by constructor.
  - case_decide; by constructor.
Qed.

Lemma get_column_length cols col vals (rows : nat) :
  Forall (fun c => length c.2 = rows) cols ->
  get_column cols col = Some vals -> length vals = rows.
Proof.
  intros Hcols. induction Hcols as [|[c old] cols Hc _ IH]; cbn; [done|].
  case_decide; [by intros [= <-]|exact IH].
Qed.

Section MoreSpreads.

Context {R Delay : Type}.

Lemma with_spreads_other cols xau xaut paxg col :
  col ∉ ["XAU_minus_XAUT"; "XAU_minus_PAXG"; "PAXG_minus_XAUT"] ->
  get_column (with_spreads cols xau xaut paxg) col = get_column cols col.
Proof.
  intros Hcol. unfold with_spreads.
  rewrite !get_set_column_ne; [done|..]; intros <-; apply Hcol;
    repeat first [by left | right].
Qed.

(** [add_spreads] on a frame that has the three price columns, whatever
    else it has. *)
Lemma add_spreads_run_any (st : state R Delay) price_df df xau xaut paxg :
  heap st !! price_df = Some df ->
  get_column (df_columns df) "XAU" = Some xau ->
  get_column (df_columns df) "XAUT" = Some xaut ->
  get_column (df_columns df) "PAXG" = Some paxg ->
  add_spreads price_df st =
    (Return price_df,
     mkState (exchange st) (trace st)
       (<[price_df :=
            mkFrame (df_index df) (with_spreads (df_columns df) xau xaut paxg)]>
          (heap st))).
Proof.
  intros Hdf Hxau Hxaut Hpaxg. unfold add_spreads, with_spreads.
  erewrite mbind_Return by (eapply df_getitem_run; eauto).
  erewrite mbind_Return by (eapply df_getitem_run; eauto).
  erewrite mbind_Return by (eapply df_setitem_run; eauto).
  set (df1 := mkFrame (df_index df) _).
  assert (Hdf1 : forall h : gmap loc DataFrame,
             <[price_df := df1]> h !! price_df = Some df1)
    by (intros; apply lookup_insert_eq).
  erewrite mbind_Return
    by (eapply df_getitem_run; [apply Hdf1|cbn; by rewrite get_set_column_ne]).
  erewrite mbind_Return
    by (eapply df_getitem_run; [apply Hdf1|cbn; by rewrite get_set_column_ne]).
  erewrite mbind_Return by (eapply df_setitem_run; apply Hdf1).
  cbn [exchange trace heap]. rewrite insert_insert_eq.
  set (df2 := mkFrame (df_index df1) _).
  assert (Hdf2 : forall h : gmap loc DataFrame,
             <[price_df := df2]> h !! price_df = Some df2)
    by (intros; apply lookup_insert_eq).
  erewrite mbind_Return
    by (eapply df_getitem_run; [apply Hdf2|cbn; by rewrite !get_set_column_ne]).
  erewrite mbind_Return
    by (eapply df_getitem_run; [apply Hdf2|cbn; by rewrite !get_set_column_ne]).
  erewrite mbind_Return by (eapply df_setitem_run; apply Hdf2).
  cbn [exchange trace heap]. rewrite insert_insert_eq. reflexivity.
Qed.

(** X13.  [add_spreads] can be run again on its result: the second run
    finds the spread columns, overwrites them with the same values, and
    leaves the whole state as the first run left it. *)
Theorem add_spreads_idempotent (st : state R Delay) price_df df xau xaut paxg :
  heap st !! price_df = Some df ->
  get_column (df_columns df) "XAU" = Some xau ->
  get_column (df_columns df) "XAUT" = Some xaut ->
  get_column (df_columns df) "PAXG" = Some paxg ->
  exists st1,
    add_spreads price_df st = (Return price_df, st1)
    /\ add_spreads price_df st1 = (Return price_df, st1).
Proof.
  intros Hdf Hxau Hxaut Hpaxg. eexists. split; [by eapply add_spreads_run_any|].
  set (cols1 := with_spreads (df_columns df) xau xaut paxg).
  erewrite add_spreads_run_any with (df := mkFrame (df_index df) cols1);
    [|cbn [heap]; apply lookup_insert_eq
     |cbn [df_columns]; unfold cols1;
      by rewrite with_spreads_other
        by (rewrite !not_elem_of_cons; repeat split; try done; apply not_elem_of_nil)..].
  cbn [exchange trace heap df_index df_columns]. rewrite insert_insert_eq.
  do 4 f_equal. unfold with_spreads at 1.
  assert (H1 : get_column cols1 "XAU_minus_XAUT" = Some (series_sub xau xaut)).
  { unfold cols1, with_spreads.
    by rewrite !get_set_column_ne, get_set_column_eq by done. }
  assert (H2 : get_column cols1 "XAU_minus_PAXG" = Some (series_sub xau paxg)).
  { unfold cols1, with_spreads.
    by rewrite get_set_column_ne, get_set_column_eq by done. }
  assert (H3 : get_column cols1 "PAXG_minus_XAUT" = Some (series_sub paxg xaut)).
  { unfold cols1, with_spreads. by rewrite get_set_column_eq. }
  by rewrite (set_column_same _ _ _ H1), (set_column_same _ _ _ H2),
    (set_column_same _ _ _ H3).
Qed.

(** X14.  Without an XAU column, or with XAU and without an XAUT column,
    [add_spreads] raises the [KeyError] of the missing label and leaves the
    state, the caller's frame included, as it was. *)
Theorem add_spreads_missing_price (st : state R Delay) price_df df :
  heap st !! price_df = Some df ->
  (get_column (df_columns df) "XAU" = None ->
     add_spreads price_df st = (Raise (KeyError "XAU"), st))
  /\ (is_Some (get_column (df_columns df) "XAU") ->
      get_column (df_columns df) "XAUT" = None ->
        add_spreads price_df st = (Raise (KeyError "XAUT"), st)).
Proof.
  intros Hdf. split.
  - intros Hxau. unfold add_spreads. erewrite mbind_Raise; [reflexivity|].
    unfold df_getitem. erewrite mbind_Return by (unfold load; by rewrite Hdf).
    by rewrite Hxau.
  - intros [xau Hxau] Hxaut. unfold add_spreads.
    erewrite mbind_Return by (eapply df_getitem_run; eauto).
    erewrite mbind_Raise; [reflexivity|].
    unfold df_getitem. erewrite mbind_Return by (unfold load; by rewrite Hdf).
    by rewrite Hxaut.
Qed.

(** X15.  With XAU and XAUT but without a PAXG column, [add_spreads] raises
    [KeyError] for PAXG after its first assignment: the caller's frame has
    already got its XAU_minus_XAUT column, and nothing else has changed. *)
Theorem add_spreads_partial_update (st : state R Delay) price_df df xau xaut :
  heap st !! price_df = Some df ->
  get_column (df_columns df) "XAU" = Some xau ->
  get_column (df_columns df) "XAUT" = Some xaut ->
  get_column (df_columns df) "PAXG" = None ->
  add_spreads price_df st =
    (Raise (KeyError "PAXG"),
     mkState (exchange st) (trace st)
       (<[price_df :=
            mkFrame (df_index df)
              (set_column (df_columns df) "XAU_minus_XAUT" (series_sub xau xaut))]>
          (heap st))).
Proof.
  intros Hdf Hxau Hxaut Hpaxg. unfold add_spreads.
  erewrite mbind_Return by (eapply df_getitem_run; eauto).
  erewrite mbind_Return by (eapply df_getitem_run; eauto).
  erewrite mbind_Return by (eapply df_setitem_run; eauto).
  erewrite mbind_Return
    by (eapply df_getitem_run;
        [apply lookup_insert_eq|cbn; by rewrite get_set_column_ne]).
  erewrite mbind_Raise; [reflexivity|].
  unfold df_getitem.
  erewrite mbind_Return by (unfold load; cbn [heap]; by rewrite lookup_insert_eq).
  cbn [df_columns]. by rewrite get_set_column_ne, Hpaxg.
Qed.

(** X16.  On any frame that has the three price columns and one value per
    row in every column, [add_spreads] sets the three spread columns,
    whether they were there or not, to the row-wise differences, changes no
    other column, keeps the row index, and leaves one value per row in
    every column. *)
Theorem add_spreads_sets_spreads (st : state R Delay) price_df df xau xaut paxg :
  heap st !! price_df = Some df ->
  get_column (df_columns df) "XAU" = Some xau ->
  get_column (df_columns df) "XAUT" = Some xaut ->
  get_column (df_columns df) "PAXG" = Some paxg ->
  Forall (fun col => length col.2 = length (df_index df)) (df_columns df) ->
  exists df',
    add_spreads price_df st =
      (Return price_df,
       mkState (exchange st) (trace st) (<[price_df := df']> (heap st)))
    /\ df_index df' = df_index df
    /\ get_column (df_columns df') "XAU_minus_XAUT" = Some (series_sub xau xaut)
    /\ get_column (df_columns df') "XAU_minus_PAXG" = Some (series_sub xau paxg)
    /\ get_column (df_columns df') "PAXG_minus_XAUT" = Some (series_sub paxg xaut)
    /\ (forall col,
          col ∉ ["XAU_minus_XAUT"; "XAU_minus_PAXG"; "PAXG_minus_XAUT"] ->
          get_column (df_columns df') col = get_column (df_columns df) col)
    /\ Forall (fun col => length col.2 = length (df_index df')) (df_columns df').
Proof.
  intros Hdf Hxau Hxaut Hpaxg Hrows.
  exists (mkFrame (df_index df) (with_spreads (df_columns df) xau xaut paxg)).
  split; [by apply add_spreads_run_any|]. cbn [df_index df_columns].
  split; [done|].
  split; [unfold with_spreads;
          by rewrite !get_set_column_ne, get_set_column_eq by done|].
  split; [unfold with_spreads;
          by rewrite get_set_column_ne, get_set_column_eq by done|].
  split; [unfold with_spreads; by rewrite get_set_column_eq|].
  split; [intros col; apply with_spreads_other|].
  pose proof (get_column_length _ _ _ _ Hrows Hxau).
  pose proof (get_column_length _ _ _ _ Hrows Hxaut).
  pose proof (get_column_length _ _ _ _ Hrows Hpaxg).
  unfold with_spreads, series_sub.
  repeat apply set_column_lengths; [done|..]; rewrite length_zip_with; lia.
Qed.

End MoreSpreads.

(** ** From the aligned table to the spreads *)

Section MorePipeline.

Context {R Delay : Type} `{!TimeSleep Delay}.
Variable fetch_ohlcv : string -> string -> Z -> operation R (list candle).

(** X17.  With the symbol table of the script, every table that
    [build_price_df] returns is one that [add_spreads] accepts: the call
    that follows in [main] raises no [KeyError], touches neither the
    exchange nor the trace, and leaves the table with its three price
    columns followed by the three spread columns, one value per row in each,
    and at least one row. *)
Theorem build_then_add_spreads timeframe limit retries retry_delay
    (st st1 : state R Delay) r :
  build_price_df fetch_ohlcv DEFAULT_SYMBOLS timeframe limit retries retry_delay st
    = (Return r, st1) ->
  exists (st2 : state R Delay) df,
    add_spreads r st1 = (Return r, st2)
    /\ exchange st2 = exchange st1
    /\ trace st2 = trace st1
    /\ heap st2 !! r = Some df
    /\ (df_columns df).*1 =
         ["XAU"; "XAUT"; "PAXG";
          "XAU_minus_XAUT"; "XAU_minus_PAXG"; "PAXG_minus_XAUT"]
    /\ df_index df ≠ []
    /\ Forall (fun col => length col.2 = length (df_index df)) (df_columns df).
Proof.
  intros Hbuild.
  apply build_price_df_Return in Hbuild
    as (series_list & st0 & df0 & Hloop & Hconcat & Hempty & -> & ->).
  pose proof (collect_series_paired _ _ _ _ _ _ _ _ _ _ Hloop (List.Forall_nil _))
    as Hpaired.
  apply collect_series_Return in Hloop as (fetched & -> & Hnames & _).
  pose proof Hconcat as Hinv. apply pd_concat_inv in Hinv as (_ & _ & Hcols).
  apply pd_concat_Return in Hconcat as (_ & _ & Hlabels).
  cbn [app] in *. rewrite Hnames in Hlabels. cbn in Hlabels.
  pose proof (reindex_all_lengths _ _ _ Hcols Hpaired) as Hrows.
  destruct (price_columns_present df0)
    as ((xau & xaut & paxg & Hxau & Hxaut & Hpaxg) & Hn1 & Hn2 & Hn3);
    [by rewrite Hlabels|].
  eexists _, _. split.
  { apply add_spreads_run with (df := df0); try done.
    cbn [heap]. apply lookup_insert_eq. }
  cbn [exchange trace heap]. split; [done|]. split; [done|].
  split; [apply lookup_insert_eq|]. cbn [df_index df_columns].
  split; [by rewrite fmap_app, Hlabels|].
  split; [by apply df_empty_false_inv|].
  pose proof (get_column_length _ _ _ _ Hrows Hxau).
  pose proof (get_column_length _ _ _ _ Hrows Hxaut).
  pose proof (get_column_length _ _ _ _ Hrows Hpaxg).
  apply Forall_app. split; [done|]. unfold series_sub.
  repeat constructor; cbn; rewrite length_zip_with; lia.
Qed.

End MorePipeline.

(** ** The symbol listing *)

Lemma prefix_app needle : forall text,
  String.prefix needle text = true <-> exists post, text = needle +:+ post.
Proof.
  induction needle as [|c needle IH]; intros [|d text]; cbn.
  - split; [by exists EmptyString|done].
  - split; [by exists (String d text)|done].
  - split; [done|]. intros [post Hpost]. by rewrite append_cons in Hpost.
  - destruct (ascii_dec c d) as [->|Hne].
    + rewrite IH. split.
      * intros [post ->]. by exists post.
      * intros [post Hpost]. exists post. rewrite append_cons in Hpost.
        by injection Hpost.
    + split; [done|]. intros [post Hpost]. rewrite append_cons in Hpost.
      by injection Hpost.
Qed.

(** [needle in text] holds exactly when [needle] is a substring of
    [text]. *)
Lemma py_in_substring needle text :
  py_in needle text = true
  <-> exists pre post, text = pre +:+ needle +:+ post.
Proof.
  induction text as [|d text IH]; cbn [py_in]; rewrite orb_true_iff, prefix_app.
  - split.
    + intros [[post Hpost]|]; [|done]. by exists EmptyString, post.
    + intros ([|c pre] & post & Hpost).
      * left. by exists post.
      * by rewrite append_cons in Hpost.
  - rewrite IH. split.
    + intros [[post Hpost]|(pre & post & ->)].
      * by exists EmptyString, post.
      * by exists (String d pre), post.
    + intros ([|c pre] & post & Hpost).
      * left. by exists post.
      * right. rewrite append_cons in Hpost. injection Hpost as -> ->.
        by exists pre, post.
Qed.

Lemma py_in_XAUT_XAU text : py_in "XAUT" text = true -> py_in "XAU" text = true.
Proof.
  rewrite !py_in_substring. intros (pre & post & ->).
  exists pre, ("T" +:+ post). f_equal.
Qed.

(** X18.  The listing of [tance.py] keeps, in the order of the exchange,
    exactly the symbols that have XAU or PAXG as a substring: the test for
    XAUT adds nothing, since a text that has XAUT has XAU. *)
Theorem tance_symbols_spec (exchange_symbols : list string) :
  tance_symbols exchange_symbols =
    List.filter (fun s => py_in "XAU" s || py_in "PAXG" s) exchange_symbols
  /\ forall s,
       In s (tance_symbols exchange_symbols)
       <-> In s exchange_symbols
           /\ ((exists pre post, s = pre +:+ "XAU" +:+ post)
               \/ (exists pre post, s = pre +:+ "PAXG" +:+ post)).
Proof.
  assert (Heq : forall s,
             py_in "XAU" s || py_in "XAUT" s || py_in "PAXG" s
             = py_in "XAU" s || py_in "PAXG" s).
  { intros s. pose proof (py_in_XAUT_XAU s).
    destruct (py_in "XAU" s), (py_in "XAUT" s); try done. by discriminate H. }
  split.
  - unfold tance_symbols. apply List.filter_ext. exact Heq.
  - intros s. unfold tance_symbols.
    rewrite List.filter_In, Heq, orb_true_iff, !py_in_substring. tauto.
Qed.

(** ** The client *)

(** X19.  Whatever the constructor of the client makes of the
    configuration, the client that [create_exchange] returns has the option
    [defaultType] set to [swap] and the option [fetchCurrencies] set to
    [False]; when its [has] table is a dict, [fetchCurrencies] is [False]
    there too.  Every other option, every other entry of [has] and the rest
    of the client are as the constructor left them. *)
Theorem create_exchange_forces_swap {C : Type}
    (bitget : list (string * pyval) -> Client C) (timeout_ms : Z)
    (proxy : string) :
  let built := bitget (exchange_config timeout_ms proxy) in
  let exchange := create_exchange bitget timeout_ms proxy in
  client_options exchange !! "defaultType" = Some (PyStr "swap")
  /\ client_options exchange !! "fetchCurrencies" = Some (PyBool false)
  /\ (forall key, key ≠ "defaultType" -> key ≠ "fetchCurrencies" ->
        client_options exchange !! key = client_options built !! key)
  /\ match client_has built with
     | Some has =>
         exists has',
           client_has exchange = Some has'
           /\ has' !! "fetchCurrencies" = Some (PyBool false)
           /\ forall key, key ≠ "fetchCurrencies" -> has' !! key = has !! key
     | None => client_has exchange = None
     end
  /\ client_rest exchange = client_rest built.
Proof.
  intros built exchange. unfold exchange, create_exchange. fold built.
  cbn [client_has client_options client_rest].
  destruct (client_has built) as [has|] eqn:Hhas;
    cbn [client_has client_options client_rest].
  - split; [by rewrite lookup_insert_ne, lookup_insert_eq|].
    split; [by rewrite lookup_insert_eq|].
    split; [intros key H1 H2; by rewrite !lookup_insert_ne|].
    split; [|done]. eexists. split; [done|].
    split; [by rewrite lookup_insert_eq|].
    intros key Hkey. by rewrite lookup_insert_ne.
  - split; [by rewrite lookup_insert_ne, lookup_insert_eq|].
    split; [by rewrite lookup_insert_eq|].
    split; [intros key H1 H2; by rewrite !lookup_insert_ne|]. done.
Qed.

(** ** Validating before fetching *)

(** X20.  Validation comes before any fetch.  When an identifier of the
    symbol table is absent from the loaded market set, the validation that
    [main] runs before [build_price_df] raises its [ValueError], and the
    state is untouched: no candle has been requested. *)
Theorem validate_before_fetch {R Delay : Type} `{!TimeSleep Delay}
    (fetch_ohlcv : string -> string -> Z -> operation R (list candle))
    (symbols : list (string * string)) timeframe limit retries
    (retry_delay : Delay) (st : state R Delay) (keys : gset string) :
  markets (exchange st) = Some keys ->
  (exists symbol, symbol ∈ symbols.*2 /\ symbol ∉ keys) ->
  (validate_symbols symbols;;
   build_price_df fetch_ohlcv symbols timeframe limit retries retry_delay) st =
  (Raise (ValueError
            ("Symbols not available on Bitget swap market: "
               +:+ py_repr_list (filter (fun symbol => symbol ∉ keys) symbols.*2))),
   st).
Proof.
  intros Hkeys (symbol & Hin & Hout).
  erewrite mbind_Raise; [reflexivity|].
  unfold validate_symbols, missing_symbols. rewrite Hkeys.
  destruct (filter _ symbols.*2) as [|absent rest] eqn:Hmissing; [|done].
  assert (Hmem : symbol ∈ filter (fun symbol => symbol ∉ keys) symbols.*2)
    by by apply list_elem_of_filter.
  rewrite Hmissing in Hmem. by apply elem_of_nil in Hmem.
Qed.
(** ** The further properties at concrete inputs *)

Lemma call_with_retry_succeeds_early_witness :
  exists tr,
    call_with_retry
      (scripted [Raise (NetworkError "reset"); Return 7%Z] (Return 0%Z))
      (Z.of_nat 5) 2%float "load_markets" (fresh_state None) =
      (Return 7%Z,
       mkState (after_calls
                  (scripted [Raise (NetworkError "reset"); Return 7%Z] (Return 0%Z))
                  2 (exchange (fresh_state None)))
         (trace (fresh_state None) ++ tr) (heap (fresh_state None)))
    /\ count_invocations tr = 2%nat
    /\ count_warnings tr = (2 - 1)%nat
    /\ sleeps tr = repeat 2%float (2 - 1)
    /\ last tr = Some Invoke.
Proof.
  apply (call_with_retry_succeeds_early
           (scripted [Raise (NetworkError "reset"); Return 7%Z] (Return 0%Z))
           (Z.of_nat 5) 2%float "load_markets" 2 5 (fresh_state None) 7%Z).
  - reflexivity.
  - lia.
  - right. reflexivity.
  - intros j Hj. assert (j = 1)%nat as -> by lia. reflexivity.
  - reflexivity.
Defined.

Lemma call_with_retry_warnings_numbered_witness :
  exists tr,
    trace (call_with_retry
             (scripted [Raise (NetworkError "reset");
                        Raise (RequestTimeout "30000 ms"); Return 7%Z] (Return 0%Z))
             (Z.of_nat 3) 2%float "load_markets" (fresh_state None)).2
      = trace (fresh_state None) ++ tr
    /\ forall j, (1 <= j <= 2)%nat ->
         exists e,
           nth_outcome
             (scripted [Raise (NetworkError "reset");
                        Raise (RequestTimeout "30000 ms"); Return 7%Z] (Return 0%Z))
             (exchange (fresh_state None)) j = Raise e
           /\ List.filter is_warning tr !! (j - 1)%nat =
                Some (Warning "%s failed (%d/%d): %s" "load_markets"
                        (Z.of_nat j) (Z.of_nat 3) e).
Proof.
  apply (call_with_retry_warnings_numbered
           (scripted [Raise (NetworkError "reset");
                      Raise (RequestTimeout "30000 ms"); Return 7%Z] (Return 0%Z))
           (Z.of_nat 3) 2%float "load_markets" 2 3 (fresh_state None)).
  - reflexivity.
  - lia.
  - right. reflexivity.
  - intros j Hj. assert (j = 1 \/ j = 2)%nat as [-> | ->] by lia; reflexivity.
Defined.

Lemma load_markets_with_retry_exhausted_witness :
  exists tr err digits,
    nth_outcome (load_swap_markets markets_down) (exchange (fresh_state None)) 2
      = Raise err
    /\ load_markets_with_retry markets_down (Z.of_nat 2) 2%float (fresh_state None) =
         (Raise (RuntimeError
                   ("load_markets failed after " +:+ digits +:+ " attempts")
                   (Some err)),
          mkState (after_calls (load_swap_markets markets_down) 2
                     (exchange (fresh_state None)))
            (trace (fresh_state None) ++ tr) (heap (fresh_state None)))
    /\ read_decimal digits = Some (Z.of_nat 2)
    /\ count_warnings tr = 2%nat.
Proof.
  apply (load_markets_with_retry_exhausted markets_down 2 2%float (fresh_state None)).
  - lia.
  - right. reflexivity.
  - intros k Hk. assert (k = 1 \/ k = 2)%nat as [-> | ->] by lia; reflexivity.
Defined.

(** The failure of a market load that never gets through, as it reads. *)
Example load_markets_with_retry_exhausted_message :
  (load_markets_with_retry markets_down 2 2%float (fresh_state None)).1 =
  Raise (RuntimeError "load_markets failed after 2 attempts"
           (Some (NetworkError "reset"))).
Proof. vm_compute. reflexivity. Qed.

Lemma load_then_validate_witness :
  let keys : gset string := {["XAU/USDT:USDT"; "PAXG/USDT:USDT"]} in
  let missing := filter (fun symbol => symbol ∉ keys) DEFAULT_SYMBOLS.*2 in
  exists outcome st',
    (load_markets_with_retry (loading keys) (Z.of_nat 3) 2%float;;
     validate_symbols DEFAULT_SYMBOLS) (fresh_state None) = (outcome, st')
    /\ exchange st' =
         after_calls (load_swap_markets (loading keys)) 2 (exchange (fresh_state None))
    /\ heap st' = heap (fresh_state None)
    /\ match missing with
       | [] => outcome = Return tt
       | _ :: _ =>
           exists listing,
             outcome =
               Raise (ValueError ("Symbols not available on Bitget swap market: "
                                    +:+ listing))
             /\ read_repr_list listing = Some missing
       end.
Proof.
  intros keys.
  apply (load_then_validate (loading keys) 2 3 2%float DEFAULT_SYMBOLS
           (fresh_state None) tt keys).
  - lia.
  - right. reflexivity.
  - intros j Hj. assert (j = 1)%nat as -> by lia. reflexivity.
  - reflexivity.
  - reflexivity.
Defined.

(** A market set that the second load brings and that lacks XAUT: the
    validation names it. *)
Example load_then_validate_names_the_missing_one :
  ((load_markets_with_retry
      (loading {["XAU/USDT:USDT"; "PAXG/USDT:USDT"]}) 3 2%float;;
    validate_symbols DEFAULT_SYMBOLS) (fresh_state None)).1 =
  Raise (ValueError
           "Symbols not available on Bitget swap market: ['XAUT/USDT:USDT']").
Proof. vm_compute. reflexivity. Qed.

Lemma fetch_close_series_exhausted_witness :
  exists tr err digits,
    nth_outcome (candles_down "XAU/USDT:USDT" "1h" 500)
      (exchange (fresh_state None)) 2 = Raise err
    /\ fetch_close_series candles_down "XAU/USDT:USDT" "1h" 500 (Z.of_nat 2)
         2%float (fresh_state None) =
         (Raise (RuntimeError
                   (("fetch_ohlcv(" +:+ "XAU/USDT:USDT" +:+ ")") +:+ " failed after "
                      +:+ digits +:+ " attempts") (Some err)),
          mkState (after_calls (candles_down "XAU/USDT:USDT" "1h" 500) 2
                     (exchange (fresh_state None)))
            (trace (fresh_state None) ++ tr) (heap (fresh_state None)))
    /\ read_decimal digits = Some (Z.of_nat 2)
    /\ count_warnings tr = 2%nat.
Proof.
  apply (fetch_close_series_exhausted candles_down "XAU/USDT:USDT" "1h" 500 2
           2%float (fresh_state None)).
  - lia.
  - right. reflexivity.
  - intros k Hk. assert (k = 1 \/ k = 2)%nat as [-> | ->] by lia; reflexivity.
Defined.

(** The failure of a fetch that never gets through, as it reads. *)
Example fetch_close_series_exhausted_message :
  (fetch_close_series candles_down "XAU/USDT:USDT" "1h" 500 2 2%float
     (fresh_state None)).1 =
  Raise (RuntimeError "fetch_ohlcv(XAU/USDT:USDT) failed after 2 attempts"
           (Some (RequestTimeout "30000 ms"))).
Proof. vm_compute. reflexivity. Qed.

Lemma build_price_df_shape_witness :
  exists df,
    heap (fresh_state None) !! 1%positive = None
    /\ heap after_build = <[1%positive := df]> (heap (fresh_state None))
    /\ (df_columns df).*1 = DEFAULT_SYMBOLS.*1
    /\ Forall (fun col => length col.2 = length (df_index df)) (df_columns df)
    /\ df_index df ≠ [].
Proof.
  apply (build_price_df_shape (quoting overlapping_book) DEFAULT_SYMBOLS "1h"
           500 3 2%float (fresh_state None) after_build 1%positive).
  vm_compute. reflexivity.
Defined.

Lemma build_price_df_cells_witness :
  exists series_list st1 df,
    collect_series (quoting overlapping_book) DEFAULT_SYMBOLS "1h" 500 3 2%float
      [] (fresh_state None) = (Return series_list, st1)
    /\ heap after_build !! 1%positive = Some df
    /\ (forall t, t ∈ df_index df
          <-> (forall s, s ∈ series_list -> t ∈ s_index s))
    /\ forall p s, series_list !! p = Some s ->
         exists col,
           df_columns df !! p = Some (s_name s, col)
           /\ forall i t, df_index df !! i = Some t ->
                exists j v,
                  s_index s !! j = Some t /\ s_values s !! j = Some v
                  /\ col !! i = Some v.
Proof.
  apply (build_price_df_cells (quoting overlapping_book) DEFAULT_SYMBOLS "1h"
           500 3 2%float (fresh_state None) after_build 1%positive).
  vm_compute. reflexivity.
Defined.

Lemma build_price_df_fails_fast_witness :
  build_price_df (quoting xau_only_book)
    ([("XAU", "XAU/USDT:USDT")] ++ ("XAUT", "XAUT/USDT:USDT")
       :: [("PAXG", "PAXG/USDT:USDT")])
    "1h" 500 3 2%float (fresh_state None) =
  (Raise (ValueError "No OHLCV data returned for XAUT/USDT:USDT"), after_fetches 2).
Proof.
  apply (build_price_df_fails_fast (quoting xau_only_book)
           [("XAU", "XAU/USDT:USDT")] "XAUT" "XAUT/USDT:USDT"
           [("PAXG", "PAXG/USDT:USDT")] "1h" 500 3 2%float
           (fresh_state None) (after_fetches 1) (after_fetches 2)
           [mkSeries "XAU" [1; 2]%Z [100; 100]%float]).
  - vm_compute. reflexivity.
  - vm_compute. reflexivity.
Defined.

Lemma build_price_df_bounded_witness :
  exists seg later,
    trace (fetch_close_series (quoting overlapping_book) "XAUT/USDT:USDT" "1h" 500
             3 2%float (after_fetches 1)).2
      = trace (after_fetches 1) ++ seg
    /\ exchange (fetch_close_series (quoting overlapping_book) "XAUT/USDT:USDT"
                   "1h" 500 3 2%float (after_fetches 1)).2
       = after_calls (quoting overlapping_book "XAUT/USDT:USDT" "1h" 500)
           (count_invocations seg) (exchange (after_fetches 1))
    /\ (count_invocations seg <= Z.to_nat 3)%nat
    /\ trace (build_price_df (quoting overlapping_book) DEFAULT_SYMBOLS "1h" 500
                3 2%float (fresh_state None)).2
       = trace (after_fetches 1) ++ seg ++ later.
Proof.
  apply (proj2 (build_price_df_bounded (quoting overlapping_book) DEFAULT_SYMBOLS
                  "1h" 500 3 2%float (fresh_state None))
           [("XAU", "XAU/USDT:USDT")] "XAUT" "XAUT/USDT:USDT"
           [("PAXG", "PAXG/USDT:USDT")]
           [mkSeries "XAU" [1; 2; 3]%Z [100; 100; 100]%float]).
  - reflexivity.
  - vm_compute. reflexivity.
Defined.

Lemma build_price_df_distinct_rows_witness :
  exists df, heap after_build !! 1%positive = Some df /\ NoDup (df_index df).
Proof.
  apply (build_price_df_distinct_rows (quoting overlapping_book) DEFAULT_SYMBOLS
           "1h" 500 3 2%float (fresh_state None) after_build 1%positive).
  - cbn. lia.
  - vm_compute. reflexivity.
Defined.

Lemma add_spreads_idempotent_witness :
  exists st1,
    add_spreads 1%positive sample_store = (Return 1%positive, st1)
    /\ add_spreads 1%positive st1 = (Return 1%positive, st1).
Proof.
  apply (add_spreads_idempotent sample_store 1%positive sample_table
           [100; 100.5]%float [99; 99.25]%float [101; 101.5]%float);
    reflexivity.
Defined.

Lemma add_spreads_missing_price_witness :
  add_spreads 1%positive no_xau_store = (Raise (KeyError "XAU"), no_xau_store).
Proof.
  apply (proj1 (add_spreads_missing_price no_xau_store 1%positive
                  (mkFrame [1000]%Z [("XAUT", [99]%float); ("PAXG", [101]%float)])
                  eq_refl)).
  reflexivity.
Defined.

Lemma add_spreads_partial_update_witness :
  add_spreads 1%positive no_paxg_store =
    (Raise (KeyError "PAXG"),
     mkState (exchange no_paxg_store) (trace no_paxg_store)
       (<[1%positive :=
            mkFrame (df_index no_paxg_table)
              (set_column (df_columns no_paxg_table) "XAU_minus_XAUT"
                 (series_sub [100]%float [99]%float))]>
          (heap no_paxg_store))).
Proof.
  apply (add_spreads_partial_update no_paxg_store 1%positive no_paxg_table
           [100]%float [99]%float); reflexivity.
Defined.

Lemma add_spreads_sets_spreads_witness :
  exists df',
    add_spreads 1%positive sample_store =
      (Return 1%positive,
       mkState (exchange sample_store) (trace sample_store)
         (<[1%positive := df']> (heap sample_store)))
    /\ df_index df' = df_index sample_table
    /\ get_column (df_columns df') "XAU_minus_XAUT"
       = Some (series_sub [100; 100.5]%float [99; 99.25]%float)
    /\ get_column (df_columns df') "XAU_minus_PAXG"
       = Some (series_sub [100; 100.5]%float [101; 101.5]%float)
    /\ get_column (df_columns df') "PAXG_minus_XAUT"
       = Some (series_sub [101; 101.5]%float [99; 99.25]%float)
    /\ (forall col,
          col ∉ ["XAU_minus_XAUT"; "XAU_minus_PAXG"; "PAXG_minus_XAUT"] ->
          get_column (df_columns df') col = get_column (df_columns sample_table) col)
    /\ Forall (fun col => length col.2 = length (df_index df')) (df_columns df').
Proof.
  apply (add_spreads_sets_spreads sample_store 1%positive sample_table
           [100; 100.5]%float [99; 99.25]%float [101; 101.5]%float);
    try reflexivity.
  repeat constructor.
Defined.

Lemma build_then_add_spreads_witness :
  exists (st2 : state nat float) df,
    add_spreads 1%positive after_build = (Return 1%positive, st2)
    /\ exchange st2 = exchange after_build
    /\ trace st2 = trace after_build
    /\ heap st2 !! 1%positive = Some df
    /\ (df_columns df).*1 =
         ["XAU"; "XAUT"; "PAXG";
          "XAU_minus_XAUT"; "XAU_minus_PAXG"; "PAXG_minus_XAUT"]
    /\ df_index df ≠ []
    /\ Forall (fun col => length col.2 = length (df_index df)) (df_columns df).
Proof.
  apply (build_then_add_spreads (quoting overlapping_book) "1h" 500 3 2%float
           (fresh_state None) after_build 1%positive).
  vm_compute. reflexivity.
Defined.

Lemma validate_before_fetch_witness :
  (validate_symbols DEFAULT_SYMBOLS;;
   build_price_df (quoting overlapping_book) DEFAULT_SYMBOLS "1h" 500 3 2%float)
    (fresh_state (Some {["XAU/USDT:USDT"; "PAXG/USDT:USDT"]})) =
  (Raise (ValueError
            ("Symbols not available on Bitget swap market: "
               +:+ py_repr_list
                     (filter (fun symbol =>
                                symbol ∉ ({["XAU/USDT:USDT"; "PAXG/USDT:USDT"]}
                                            : gset string))
                        DEFAULT_SYMBOLS.*2))),
   fresh_state (Some {["XAU/USDT:USDT"; "PAXG/USDT:USDT"]})).
Proof.
  apply (validate_before_fetch (quoting overlapping_book) DEFAULT_SYMBOLS "1h"
           500 3 2%float
           (fresh_state (Some {["XAU/USDT:USDT"; "PAXG/USDT:USDT"]}))
           {["XAU/USDT:USDT"; "PAXG/USDT:USDT"]}).
  - reflexivity.
  - exists "XAUT/USDT:USDT". split.
    + cbn. right. left.
    + intros Hin. apply elem_of_union in Hin as [Hin|Hin];
        apply elem_of_singleton in Hin; discriminate.
Defined.
